(** * babsecs: the entity-component store of [src/Manager.hpp]

    A shallow embedding of class [ECS] and of the templates defined in
    [Manager.hpp] ([RegisterComponent], [AddComponent], [RemoveComponent],
    [GetComponent], [HasComponent], [EntitiesWith]), followed by the
    properties of the specification stated over that embedding.

    Conventions of the embedding.
    - The private members of [ECS] are the fields of the record [ECS].
    - A member function is a function from the store to a [result]: the
      store it leaves behind together with the returned value, or the store
      it leaves behind together with the exception it throws (C++ does not
      roll a store back when an exception leaves a member function), or
      [Undefined] where the C++ has no defined behaviour.
    - [typeid(component).name()] is the [string] the caller passes as
      [componentName]; the component value has the section's type [T].
    - [std::map] is [gmap]; [operator[]] is [subscript], which inserts a
      value-initialised entry when the key is absent.
    - A pointer result ([T*], [Entity*]) is modelled by the value it points
      at when it is taken, [nullptr] by [None]. The [Entity*] that
      [EntitiesWith] returns point into storage that is destroyed when the
      function returns, so that a caller can read their number only:
      [EntitiesWith_size]. *)

From Stdlib Require Import ZArith String List Lia.
From stdpp Require Import gmap strings list fin_maps pretty.

Local Open Scope Z_scope.

(** ** [bitfield.hpp] *)

Module bitfield.

(** Modelled from the spec: [bitfield.hpp] is not part of the sources.
    [Bitfield] is the fixed-width unsigned membership word, 32 bits wide
    ("max 32 b/c uint32" in [RegisterComponent]); a value is a [Z] in
    [0, 2^32). *)
Definition width : Z := 32.

Definition wrap (z : Z) : Z := z mod 2 ^ width.

(** Modelled from the spec: "set T's bit in the entity's membership
    mask", the bitwise OR of the word and the flag. *)
Definition Set_ (field flag : Z) : Z := Z.lor field flag.

(** Modelled from the spec: "clear T's bit in the entity's membership
    mask", [field & ~flag] on the unsigned word. *)
Definition Clear (field flag : Z) : Z := Z.land field (wrap (Z.lnot flag)).

(** Modelled from the spec: "membership mask is a superset of the
    combined mask (bitwise AND equals the combined mask)". *)
Definition Has (field flag : Z) : bool := bool_decide (Z.land field flag = flag).

End bitfield.

(** [int componentFlag = componentIndex[componentName];] converts the
    unsigned word to [int]; handing [componentFlag] to a function of
    [bitfield] converts it back. *)
Definition to_int (z : Z) : Z :=
  let m := z mod 2 ^ 32 in if decide (m < 2 ^ 31) then m else m - 2 ^ 32.

Definition INT32_MAX : Z := 2 ^ 31 - 1.

(** ** [Entity.hpp] *)

(** Modelled from the spec: [Entity.hpp] is not part of the sources. An
    entity is an identifier and a membership word; [Manager.hpp] reads and
    writes the members [UUID] and [bitfield]. *)
Record Entity : Type := mkEntity { UUID : Z; bitfield : Z }.

(** Modelled from the spec: the constructor [Entity(id)] gives
    "membership = 0". *)
Definition Entity_new (id : Z) : Entity := mkEntity id 0.

Global Instance Entity_eq_dec : EqDecision Entity.
Proof. solve_decision. Defined.

(** ** Exceptions and results *)

Inductive exception : Type :=
| ComponentNotRegisteredException (componentName : string)
| out_of_range (what : string)
| runtime_error (what : string).

Global Instance exception_eq_dec : EqDecision exception.
Proof. solve_decision. Defined.

(** The error kinds of the specification, read off the exception a member
    function throws. [Manager.hpp] has no exception for
    [ComponentNotPresent]. *)
Inductive error_kind : Type :=
| ComponentNotRegistered | EntityNotFound | ComponentNotPresent | CapacityExceeded.

Definition kind_of (ex : exception) : error_kind :=
  match ex with
  | ComponentNotRegisteredException _ => ComponentNotRegistered
  | out_of_range _ => CapacityExceeded
  | runtime_error _ => EntityNotFound
  end.

Inductive result (S A : Type) : Type :=
| Returns (s : S) (a : A)
| Throws (s : S) (ex : exception)
| Undefined.
Arguments Returns {S A} s a.
Arguments Throws {S A} s ex.
Arguments Undefined {S A}.

(** The store a call leaves behind, for a caller that catches. *)
Definition store_after {S A} (r : result S A) : option S :=
  match r with
  | Returns s _ => Some s
  | Throws s _ => Some s
  | Undefined => None
  end.

Definition returned {S A} (r : result S A) : option A :=
  match r with Returns _ a => Some a | _ => None end.

Definition thrown {S A} (r : result S A) : option exception :=
  match r with Throws _ ex => Some ex | _ => None end.

Definition bind {S A B} (m : S → result S A) (k : A → S → result S B) : S → result S B :=
  fun s =>
    match m s with
    | Returns s' a => k a s'
    | Throws s' ex => Throws s' ex
    | Undefined => Undefined
    end.

Notation "'call' x := m 'in' k" := (bind m (fun x => k))
  (at level 10, x binder, m at level 100, k at level 200).

(** [std::map::operator[]]: the mapped value, and the map, in which a
    value-initialised entry has been inserted when the key was absent. *)
Definition subscript {K A} `{Countable K} (dflt : A) (m : gmap K A) (k : K) : A * gmap K A :=
  match m !! k with
  | Some a => (a, m)
  | None => (dflt, <[k := dflt]> m)
  end.

(** [std::min_element] with the comparison of [EntitiesWith]: the first
    of the smallest entries. *)
Fixpoint min_element (smallest : string * Z) (rest : list (string * Z)) : string * Z :=
  match rest with
  | [] => smallest
  | x :: rest' => min_element (if decide (x.2 < smallest.2) then x else smallest) rest'
  end.

(** The first entry of a membership vector with the given [UUID] erased;
    [None] when the loop runs to the end of the vector. *)
Fixpoint erase_first (uuid : Z) (vec : list Entity) : option (list Entity) :=
  match vec with
  | [] => None
  | x :: vec' =>
      if decide (UUID x = uuid) then Some vec'
      else cons x <$> erase_first uuid vec'
  end.

Section Manager.

(** The component type; [T_default] is the value-initialised [T] that
    [container->data[entity]] inserts for an absent key. *)
Variable T : Type.
Variable T_default : T.

(** ** [pubsub/PubSub.hpp] *)

(** Modelled from the spec: [PubSub.hpp] is not part of the sources. The
    three lifecycle events carry the entity and, where applicable, the
    component value; the string names the component type of the event. *)
Inductive Event : Type :=
| EntityCreated (e : Entity)
| ComponentAdded (e : Entity) (componentName : string) (component : T)
| ComponentRemoved (e : Entity) (componentName : string) (component : T).

(** ** [class ECS] *)

(** [eventManager] is modelled from the spec: [Broadcast] is synchronous
    and the store only ever calls [Broadcast], so the member is the
    sequence of events broadcast so far. *)
Record ECS : Type := mkECS {
  entityIndex : Z;
  bitIndex : Z;
  entities : list Entity;
  components : gmap string (gmap Z T);
  componentIndex : gmap string Z;
  individualComponentVecs : gmap string (list Entity);
  eventManager : list Event
}.

Definition Broadcast (ev : Event) (log : list Event) : list Event := log ++ [ev].

(** [ECS::ECS()] *)
Definition ECS_new : ECS :=
  {| entityIndex := 0; bitIndex := 1; entities := [];
     components := ∅; componentIndex := ∅; individualComponentVecs := ∅;
     eventManager := [] |}.

(** [ECS::CreateEntity]. [entityIndex] is an [int32_t]: incrementing it
    at its largest value is undefined. *)
Definition CreateEntity (s : ECS) : result ECS Entity :=
  if decide (entityIndex s = INT32_MAX) then Undefined
  else
    let e := Entity_new (entityIndex s) in
    Returns
      {| entityIndex := entityIndex s + 1; bitIndex := bitIndex s;
         entities := entities s ++ [e];
         components := components s; componentIndex := componentIndex s;
         individualComponentVecs := individualComponentVecs s;
         eventManager := Broadcast (EntityCreated e) (eventManager s) |}
      e.

(** [ECS::ComponentIsRegistered] *)
Definition ComponentIsRegistered (componentName : string) (s : ECS) : bool :=
  bool_decide (is_Some (components s !! componentName)).

(** [ECS::RegisterComponent] *)
Definition RegisterComponent (componentName : string) (s : ECS) : result ECS unit :=
  match components s !! componentName with
  | Some _ => Returns s tt
  | None =>
      let lastIndex := bitIndex s in
      let bitIndex' := bitfield.wrap (bitIndex s * 2) in
      let s' :=
        {| entityIndex := entityIndex s; bitIndex := bitIndex';
           entities := entities s;
           components := <[componentName := ∅]> (components s);
           componentIndex := <[componentName := bitIndex s]> (componentIndex s);
           individualComponentVecs := individualComponentVecs s;
           eventManager := eventManager s |} in
      if decide (bitIndex' < lastIndex)
      then Throws s' (out_of_range "Exceeded available flags for the bitfield! (max 32 b/c uint32)")
      else Returns s' tt
  end.

(** The loop of [AddComponent] over [this->entities]: every entity with
    the [UUID] of the argument gets the flag set, a copy of it (as it is
    then) is pushed on the type's membership vector, which is created
    when the type has none, and [ComponentAdded] is broadcast. The loop
    has no [break]. The result is the table, the membership vectors, the
    events and [entityFound]. *)
Fixpoint AddComponent_loop (entity : Entity) (componentName : string) (component : T)
    (componentFlag : Z) (es : list Entity)
    (vecs : gmap string (list Entity)) (log : list Event) (entityFound : bool)
    : list Entity * gmap string (list Entity) * list Event * bool :=
  match es with
  | [] => ([], vecs, log, entityFound)
  | e :: es' =>
      if decide (UUID e = UUID entity) then
        let e' := mkEntity (UUID e) (bitfield.Set_ (bitfield e) (bitfield.wrap componentFlag)) in
        let vecs' :=
          match vecs !! componentName with
          | Some vec => <[componentName := vec ++ [e']]> vecs
          | None => <[componentName := [e']]> vecs
          end in
        let log' := Broadcast (ComponentAdded entity componentName component) log in
        let '(rest, vecs'', log'', found) :=
          AddComponent_loop entity componentName component componentFlag es' vecs' log' true in
        (e' :: rest, vecs'', log'', found)
      else
        let '(rest, vecs', log', found) :=
          AddComponent_loop entity componentName component componentFlag es' vecs log entityFound in
        (e :: rest, vecs', log', found)
  end.

(** [ECS::AddComponent]. The container is keyed by [Entity] under
    [EntityComparer], that is by [UUID]. The value is stored before the
    table is searched for the entity. *)
Definition AddComponent (entity : Entity) (componentName : string) (component : T)
    (s : ECS) : result ECS unit :=
  match components s !! componentName with
  | None => Throws s (ComponentNotRegisteredException componentName)
  | Some container =>
      let container' := <[UUID entity := component]> container in
      let '(flag, componentIndex') := subscript 0 (componentIndex s) componentName in
      let componentFlag := to_int flag in
      let components' := <[componentName := container']> (components s) in
      let '(entities', vecs', log', entityFound) :=
        AddComponent_loop entity componentName component componentFlag
          (entities s) (individualComponentVecs s) (eventManager s) false in
      let s' :=
        {| entityIndex := entityIndex s; bitIndex := bitIndex s;
           entities := entities';
           components := components'; componentIndex := componentIndex';
           individualComponentVecs := vecs';
           eventManager := log' |} in
      if entityFound then Returns s' tt
      else Throws s' (runtime_error "Failed to find entity to add component to")
  end.

(** The outer loop of [RemoveComponent] up to its [break]: the first
    entity of the table with the given [UUID] gets the flag cleared. The
    result is the table and that entity; [None] when the loop runs to
    the end of the table. *)
Fixpoint RemoveComponent_find (uuid : Z) (componentFlag : Z) (es : list Entity)
    : option (list Entity * Entity) :=
  match es with
  | [] => None
  | e :: es' =>
      if decide (UUID e = uuid) then
        let e' := mkEntity (UUID e) (bitfield.Clear (bitfield e) (bitfield.wrap componentFlag)) in
        Some (e' :: es', e')
      else
        (fun r : list Entity * Entity => (e :: r.1, r.2)) <$> RemoveComponent_find uuid componentFlag es'
  end.

(** [ECS::RemoveComponent]. [individualComponentVecs.find] is
    dereferenced without a test against [end()]: undefined when the type
    has no membership vector. *)
Definition RemoveComponent (entity : Entity) (componentName : string)
    (s : ECS) : result ECS unit :=
  match components s !! componentName with
  | None => Throws s (ComponentNotRegisteredException componentName)
  | Some container =>
      let '(flag, componentIndex') := subscript 0 (componentIndex s) componentName in
      let componentFlag := to_int flag in
      match RemoveComponent_find (UUID entity) componentFlag (entities s) with
      | None =>
          Throws
            {| entityIndex := entityIndex s; bitIndex := bitIndex s;
               entities := entities s;
               components := components s; componentIndex := componentIndex';
               individualComponentVecs := individualComponentVecs s;
               eventManager := eventManager s |}
            (runtime_error "Failed to find entity to remove component from")
      | Some (entities', e) =>
          match individualComponentVecs s !! componentName with
          | None => Undefined
          | Some componentVector =>
              match erase_first (UUID e) componentVector with
              | None =>
                  Returns
                    {| entityIndex := entityIndex s; bitIndex := bitIndex s;
                       entities := entities';
                       components := components s; componentIndex := componentIndex';
                       individualComponentVecs := individualComponentVecs s;
                       eventManager := eventManager s |}
                    tt
              | Some componentVector' =>
                  let '(componentData, container') := subscript T_default container (UUID entity) in
                  Returns
                    {| entityIndex := entityIndex s; bitIndex := bitIndex s;
                       entities := entities';
                       components := <[componentName := container']> (components s);
                       componentIndex := componentIndex';
                       individualComponentVecs :=
                         <[componentName := componentVector']> (individualComponentVecs s);
                       eventManager :=
                         Broadcast (ComponentRemoved entity componentName componentData)
                           (eventManager s) |}
                    tt
              end
          end
      end
  end.

(** The test of the loop of [GetComponent]: some entity of the table has
    the [UUID] and has the flag. *)
Definition GetComponent_found (uuid : Z) (componentFlag : Z) (es : list Entity) : bool :=
  existsb (fun e => bool_decide (UUID e = uuid) && bitfield.Has (bitfield e) (bitfield.wrap componentFlag)) es.

(** [ECS::GetComponent]: the pointer into the container is the value it
    points at, [nullptr] is [None]. *)
Definition GetComponent (entity : Entity) (componentName : string)
    (s : ECS) : result ECS (option T) :=
  match components s !! componentName with
  | None => Throws s (ComponentNotRegisteredException componentName)
  | Some container =>
      let '(flag, componentIndex') := subscript 0 (componentIndex s) componentName in
      let componentFlag := to_int flag in
      if GetComponent_found (UUID entity) componentFlag (entities s) then
        let '(value, container') := subscript T_default container (UUID entity) in
        Returns
          {| entityIndex := entityIndex s; bitIndex := bitIndex s;
             entities := entities s;
             components := <[componentName := container']> (components s);
             componentIndex := componentIndex';
             individualComponentVecs := individualComponentVecs s;
             eventManager := eventManager s |}
          (Some value)
      else
        Returns
          {| entityIndex := entityIndex s; bitIndex := bitIndex s;
             entities := entities s;
             components := components s; componentIndex := componentIndex';
             individualComponentVecs := individualComponentVecs s;
             eventManager := eventManager s |}
          None
  end.

(** [ECS::HasComponent] *)
Definition HasComponent (entity : Entity) (componentName : string)
    (s : ECS) : result ECS bool :=
  (call p := GetComponent entity componentName in
   fun s' => Returns s' (if p is Some _ then true else false)) s.

(** The first loop of [EntitiesWith]: each requested name is checked and
    the size of its membership vector recorded;
    [individualComponentVecs[componentName]] creates an empty vector for
    a type that has none. *)
Fixpoint EntitiesWith_sizes (componentNames : list string)
    (registered : gmap string (gmap Z T)) (vecs : gmap string (list Entity))
    (componentListSizes : list (string * Z))
    : gmap string (list Entity) * (exception + list (string * Z)) :=
  match componentNames with
  | [] => (vecs, inr componentListSizes)
  | componentName :: names =>
      match registered !! componentName with
      | None => (vecs, inl (ComponentNotRegisteredException componentName))
      | Some _ =>
          let '(vec, vecs') := subscript [] vecs componentName in
          EntitiesWith_sizes names registered vecs'
            (componentListSizes ++ [(componentName, to_int (Z.of_nat (length vec)))])
      end
  end.

(** The second loop of [EntitiesWith]: the flags of the requested names
    are set in [field]. *)
Fixpoint EntitiesWith_field (componentNames : list string)
    (index : gmap string Z) (field : Z) : Z * gmap string Z :=
  match componentNames with
  | [] => (field, index)
  | name :: names =>
      let '(flag, index') := subscript 0 index name in
      EntitiesWith_field names index' (bitfield.Set_ field flag)
  end.

(** [ECS::EntitiesWith]. The returned pointers point into the local copy
    [entitySearchVector] (into the loop variable when no type is
    requested); the result is the sequence of the entities they point at
    when they are taken. Both are destroyed when the function returns:
    the pointers dangle in the hands of the caller, and what the caller
    can read of the result is the number of its elements. *)
Definition EntitiesWith (componentNames : list string) (s : ECS) : result ECS (list Entity) :=
  match componentNames with
  | [] => Returns s (entities s)
  | _ :: _ =>
      match EntitiesWith_sizes componentNames (components s) (individualComponentVecs s) [] with
      | (vecs', inl ex) =>
          Throws
            {| entityIndex := entityIndex s; bitIndex := bitIndex s;
               entities := entities s;
               components := components s; componentIndex := componentIndex s;
               individualComponentVecs := vecs';
               eventManager := eventManager s |}
            ex
      | (vecs', inr componentListSizes) =>
          let '(field, componentIndex') :=
            EntitiesWith_field componentNames (componentIndex s) 0 in
          match componentListSizes with
          | [] => Undefined
          | first :: rest =>
              let smallestComponentList := (min_element first rest).1 in
              let '(entitySearchVector, vecs'') := subscript [] vecs' smallestComponentList in
              Returns
                {| entityIndex := entityIndex s; bitIndex := bitIndex s;
                   entities := entities s;
                   components := components s; componentIndex := componentIndex';
                   individualComponentVecs := vecs'';
                   eventManager := eventManager s |}
                (List.filter (fun e => bitfield.Has (bitfield e) field) entitySearchVector)
          end
      end
  end.

End Manager.

Arguments EntityCreated {T}.
Arguments ComponentAdded {T}.
Arguments ComponentRemoved {T}.
Arguments mkECS {T}.
Arguments entityIndex {T}.
Arguments bitIndex {T}.
Arguments entities {T}.
Arguments components {T}.
Arguments componentIndex {T}.
Arguments individualComponentVecs {T}.
Arguments eventManager {T}.
Arguments Broadcast {T}.
Arguments ECS_new {T}.
Arguments CreateEntity {T}.
Arguments ComponentIsRegistered {T}.
Arguments RegisterComponent {T}.
Arguments AddComponent_loop {T}.
Arguments AddComponent {T}.
Arguments RemoveComponent {T}.
Arguments GetComponent {T}.
Arguments HasComponent {T}.
Arguments EntitiesWith_sizes {T}.
Arguments EntitiesWith {T}.

(** ** The scenario of the specification

    Component values are numbers here; [Position] and [Velocity] are the
    names of two component types. *)
Module Scenario.

Definition Position : string := "Position".
Definition Velocity : string := "Velocity".

(** Register [Position] and [Velocity], create e0, e1, e2, add
    [Position] to e0 and e1, then [Velocity] to e1 and e2. *)
Definition setup : ECS Z → result (ECS Z) (Entity * Entity * Entity) :=
  call _ := RegisterComponent Position in
  call _ := RegisterComponent Velocity in
  call e0 := CreateEntity in
  call e1 := CreateEntity in
  call e2 := CreateEntity in
  call _ := AddComponent e0 Position 10 in
  call _ := AddComponent e1 Position 11 in
  call _ := AddComponent e1 Velocity 21 in
  call _ := AddComponent e2 Velocity 22 in
  fun s => Returns s (e0, e1, e2).

(** Register [Position], create e0 and e1, add [Position] to e1 only. *)
Definition only_e1 : ECS Z → result (ECS Z) (Entity * Entity) :=
  call _ := RegisterComponent Position in
  call e0 := CreateEntity in
  call e1 := CreateEntity in
  call _ := AddComponent e1 Position 11 in
  fun s => Returns s (e0, e1).

(** Register [Position], create e0, add [Position] to e0 twice. *)
Definition added_twice : ECS Z → result (ECS Z) Entity :=
  call _ := RegisterComponent Position in
  call e0 := CreateEntity in
  call _ := AddComponent e0 Position 10 in
  call _ := AddComponent e0 Position 20 in
  fun s => Returns s e0.

(** The store a script leaves behind on a new store. *)
Definition store_of {A} (script : ECS Z → result (ECS Z) A) : ECS Z :=
  default ECS_new (store_after (script ECS_new)).

Definition e0 : Entity := mkEntity 0 0.
Definition e1 : Entity := mkEntity 1 0.
Definition e2 : Entity := mkEntity 2 0.

End Scenario.

(** ** Observations on a store *)

(** The value stored for an entity in the container of a component type. *)
Definition stored {T} (s : ECS T) (componentName : string) (uuid : Z) : option T :=
  components s !! componentName ≫= (.!! uuid).

(** The flag the member functions work with for a component type:
    [componentIndex[componentName]] read into an [int] and handed to
    [bitfield]. *)
Definition flag_of {T} (s : ECS T) (componentName : string) : Z :=
  bitfield.wrap (to_int (default 0 (componentIndex s !! componentName))).

(** An entity identifier is live when the table holds an entity with it. *)
Definition live {T} (s : ECS T) (uuid : Z) : Prop :=
  Exists (λ e, UUID e = uuid) (entities s).


(** ** Calls and runs, for statements about the history of a store *)

Inductive op (T : Type) : Type :=
| OpCreateEntity
| OpRegisterComponent (componentName : string)
| OpAddComponent (entity : Entity) (componentName : string) (component : T)
| OpRemoveComponent (entity : Entity) (componentName : string)
| OpGetComponent (entity : Entity) (componentName : string)
| OpHasComponent (entity : Entity) (componentName : string)
| OpEntitiesWith (componentNames : list string).
Arguments OpCreateEntity {T}.
Arguments OpRegisterComponent {T}.
Arguments OpAddComponent {T}.
Arguments OpRemoveComponent {T}.
Arguments OpGetComponent {T}.
Arguments OpHasComponent {T}.
Arguments OpEntitiesWith {T}.

(** The store after a call whose exception, if any, the caller catches. *)
Definition exec {T} (d : T) (c : op T) (s : ECS T) : option (ECS T) :=
  match c with
  | OpCreateEntity => store_after (CreateEntity s)
  | OpRegisterComponent n => store_after (RegisterComponent n s)
  | OpAddComponent e n v => store_after (AddComponent e n v s)
  | OpRemoveComponent e n => store_after (RemoveComponent d e n s)
  | OpGetComponent e n => store_after (GetComponent d e n s)
  | OpHasComponent e n => store_after (HasComponent d e n s)
  | OpEntitiesWith ns => store_after (EntitiesWith ns s)
  end.

Fixpoint run {T} (d : T) (cs : list (op T)) (s : ECS T) : option (ECS T) :=
  match cs with
  | [] => Some s
  | c :: cs' => exec d c s ≫= run d cs'
  end.

(** A store is reachable when a run of calls on a new store leaves it. *)
Definition reachable {T} (d : T) (s : ECS T) : Prop :=
  ∃ cs, run d cs ECS_new = Some s.

(** ** Registering many types *)

Definition type_name (i : nat) : string := "T" +:+ pretty i.

(** The outcome of registering the names in turn, each exception caught:
    what each call threw, and the store at the end. *)
Fixpoint register_all {T} (names : list string) (s : ECS T)
    : list (option exception) * option (ECS T) :=
  match names with
  | [] => ([], Some s)
  | n :: names' =>
      let r := RegisterComponent n s in
      match store_after r with
      | None => ([thrown r], None)
      | Some s' =>
          let '(outcomes, final) := register_all names' s' in
          (thrown r :: outcomes, final)
      end
  end.

(** ** The loop of [AddComponent], read as a whole *)

(** What the loop does to one entity of the table. *)
Definition add_flag (entity : Entity) (componentFlag : Z) (e : Entity) : Entity :=
  if decide (UUID e = UUID entity)
  then mkEntity (UUID e) (bitfield.Set_ (bitfield e) (bitfield.wrap componentFlag))
  else e.

(** The entities of the table the loop stops at. *)
Definition matching (entity : Entity) (es : list Entity) : list Entity :=
  filter (λ e, UUID e = UUID entity) es.

(** Copies pushed on the membership vector of the type. *)
Definition push_back_all (componentName : string) (copies : list Entity)
    (vecs : gmap string (list Entity)) : gmap string (list Entity) :=
  match copies with
  | [] => vecs
  | _ :: _ => <[componentName := default [] (vecs !! componentName) ++ copies]> vecs
  end.

(** The mask [EntitiesWith] filters with. *)
Definition query_field {T} (s : ECS T) (componentNames : list string) : Z :=
  (EntitiesWith_field componentNames (componentIndex s) 0).1.

(** What a caller can read of the result of [EntitiesWith]: [size()] of
    the returned vector. The elements are pointers to the by-value loop
    variable or into the local copy [entitySearchVector], whose lifetime
    ends with the call. *)
Definition EntitiesWith_size {T} (componentNames : list string) (s : ECS T)
    : result (ECS T) nat :=
  match EntitiesWith componentNames s with
  | Returns s' requestedEntities => Returns s' (length requestedEntities)
  | Throws s' ex => Throws s' ex
  | Undefined => Undefined
  end.

(** What every run of calls on a new store maintains: the identifiers of
    the table are distinct and below [entityIndex], [bitIndex] and the
    flags are words, and a type has a container exactly when it has a
    flag. *)
Definition well_formed {T} (s : ECS T) : Prop :=
  NoDup (UUID <$> entities s) ∧
  0 ≤ entityIndex s ∧
  Forall (λ e, 0 ≤ UUID e < entityIndex s) (entities s) ∧
  0 ≤ bitIndex s < 2 ^ 32 ∧
  (∀ n f, componentIndex s !! n = Some f → 0 ≤ f < 2 ^ 32) ∧
  (∀ n, is_Some (components s !! n) ↔ is_Some (componentIndex s !! n)).

(** What a call other than [CreateEntity] and [RegisterComponent] leaves
    alone. *)
Definition same_schema {T} (s s' : ECS T) : Prop :=
  entityIndex s' = entityIndex s ∧
  bitIndex s' = bitIndex s ∧
  UUID <$> entities s' = UUID <$> entities s ∧
  (∀ n, is_Some (components s' !! n) ↔ is_Some (components s !! n)) ∧
  ((∀ n, is_Some (components s !! n) → is_Some (componentIndex s !! n)) →
   componentIndex s' = componentIndex s).

(** ** [EntityComparer] and [GetComponentNames] *)

(** [EntityComparer::operator()], the ordering of the keys of a
    container. *)
Definition EntityComparer (lhs rhs : Entity) : bool := bool_decide (UUID lhs < UUID rhs).

(** Two keys are the same key of a [std::map] when neither is ordered
    before the other. *)
Definition same_key (lhs rhs : Entity) : Prop :=
  EntityComparer lhs rhs = false ∧ EntityComparer rhs lhs = false.

(** The overloads of [ECS::GetComponentNames], the parameter pack being
    the list of the names of its types: without a type the vector is
    returned, with types the name of the first is pushed and the rest
    handled in turn. *)
Fixpoint GetComponentNames (names : list string) (types : list string) : list string :=
  match types with
  | [] => names
  | type :: types' => GetComponentNames (names ++ [type]) types'
  end.

(** The first requested name that is not registered. *)
Definition first_unregistered {T} (componentNames : list string) (s : ECS T) : option string :=
  List.find (λ n, negb (ComponentIsRegistered n s)) componentNames.

(** ** A run of calls that builds the scenario *)

Module History.

Definition setup_calls : list (op Z) :=
  [OpRegisterComponent Scenario.Position; OpRegisterComponent Scenario.Velocity;
   OpCreateEntity; OpCreateEntity; OpCreateEntity;
   OpAddComponent Scenario.e0 Scenario.Position 10;
   OpAddComponent Scenario.e1 Scenario.Position 11;
   OpAddComponent Scenario.e1 Scenario.Velocity 21;
   OpAddComponent Scenario.e2 Scenario.Velocity 22].

Definition after_setup : ECS Z := default ECS_new (run 0 setup_calls ECS_new).

(** The calls of [Scenario.only_e1]. *)
Definition only_e1_calls : list (op Z) :=
  [OpRegisterComponent Scenario.Position; OpCreateEntity; OpCreateEntity;
   OpAddComponent Scenario.e1 Scenario.Position 11].



(** 33 types registered in turn, each exception caught, then one entity
    created; no component is ever added. *)
Definition exhausted_calls : list (op Z) :=
  (OpRegisterComponent <$> (type_name <$> seq 1 33)) ++ [OpCreateEntity].

Definition exhausted : ECS Z := default ECS_new (run 0 exhausted_calls ECS_new).

End History.

(** ** What a run of calls maintains besides *)

(** The table lists the identifiers 0, 1, 2, ... in the order of
    creation, and [entityIndex] is their number. *)
Definition sequential_ids {T} (s : ECS T) : Prop :=
  UUID <$> entities s = Z.of_nat <$> seq 0 (length (entities s)) ∧
  entityIndex s = Z.of_nat (length (entities s)).

(** [k] flags have been handed out: [bitIndex] is the next power of two
    (0 once the 32 bits are used up), every flag is one of the powers of
    two below it (or the empty word, after exhaustion), no flag but the
    empty word is shared by two types, and the membership words of the
    table have no bit from [k] on. *)
Definition allocated {T} (s : ECS T) (k : Z) : Prop :=
  0 ≤ k ≤ 32 ∧
  bitIndex s = bitfield.wrap (2 ^ k) ∧
  (∀ n f, componentIndex s !! n = Some f →
          (f = 0 ∧ k = 32) ∨ ∃ i, 0 ≤ i < k ∧ f = 2 ^ i) ∧
  (∀ n1 n2 f, componentIndex s !! n1 = Some f → componentIndex s !! n2 = Some f →
              f ≠ 0 → n1 = n2) ∧
  Forall (λ e, 0 ≤ bitfield e < 2 ^ k) (entities s).

(** Only registered types have a membership vector, and every entry of
    the vector of a type carries the flag of the type. *)
Definition vectors_flagged {T} (s : ECS T) : Prop :=
  ∀ n vec, individualComponentVecs s !! n = Some vec →
           is_Some (components s !! n) ∧
           Forall (λ e, bitfield.Has (bitfield e) (flag_of s n) = true) vec.

(** An entity of the table whose word has the flag of a type, the flag
    not being the empty word, has a value in the container of the type. *)
Definition flagged_stored {T} (s : ECS T) : Prop :=
  ∀ e n, e ∈ entities s → is_Some (components s !! n) → flag_of s n ≠ 0 →
         bitfield.Has (bitfield e) (flag_of s n) = true →
         is_Some (stored s n (UUID e)).

Definition coherent {T} (s : ECS T) : Prop :=
  well_formed s ∧ sequential_ids s ∧ (∃ k, allocated s k) ∧
  vectors_flagged s ∧ flagged_stored s.

(** A call that writes the stored value of the entity with identifier
    [uuid] for the type [componentName]. *)
Definition writes_value {T} (componentName : string) (uuid : Z) (c : op T) : Prop :=
  match c with
  | OpAddComponent e n _ => n = componentName ∧ UUID e = uuid
  | _ => False
  end.

(** Every entry of a membership vector has the identifier of an entity of
    the table. *)
Definition entries_live {T} (s : ECS T) : Prop :=
  ∀ n vec, individualComponentVecs s !! n = Some vec →
           Forall (λ e, UUID e ∈ UUID <$> entities s) vec.

(** Until it wraps to 0, [bitIndex] is 2 to the number of registered
    types. *)
Definition counted {T} (s : ECS T) : Prop :=
  bitIndex s ≠ 0 → bitIndex s = 2 ^ Z.of_nat (size (componentIndex s)).

(** * Properties *)

(** ** The membership word *)

Lemma land_lor_absorb (a b : Z) : Z.land (Z.lor a b) b = b.
Proof.
  apply Z.bits_inj'. intros n _.
  rewrite Z.land_spec, Z.lor_spec. destruct (Z.testbit a n), (Z.testbit b n); reflexivity.
Qed.

Lemma Has_Set (field flag : Z) : bitfield.Has (bitfield.Set_ field flag) flag = true.
Proof.
  unfold bitfield.Has, bitfield.Set_. apply bool_decide_eq_true. apply land_lor_absorb.
Qed.

Lemma wrap_to_int (z : Z) : bitfield.wrap (to_int z) = bitfield.wrap z.
Proof.
  unfold bitfield.wrap, to_int, bitfield.width. cbv zeta.
  destruct (decide _).
  - apply Z.mod_mod. lia.
  - rewrite Zminus_mod, Z.mod_same, Z.sub_0_r, !Z.mod_mod by lia. reflexivity.
Qed.

Lemma wrap_small (z : Z) : 0 ≤ z < 2 ^ 32 → bitfield.wrap z = z.
Proof. intros Hz. unfold bitfield.wrap, bitfield.width. apply Z.mod_small. exact Hz. Qed.

(** ** [operator[]] *)

Lemma subscript_fst {K A} `{Countable K} (d : A) (m : gmap K A) (k : K) :
  (subscript d m k).1 = default d (m !! k).
Proof. unfold subscript. destruct (m !! k); reflexivity. Qed.

Lemma subscript_lookup {K A} `{Countable K} (d : A) (m : gmap K A) (k : K) :
  (subscript d m k).2 !! k = Some (subscript d m k).1.
Proof.
  unfold subscript. destruct (m !! k) eqn:E; simpl; [exact E | apply lookup_insert_eq].
Qed.

Lemma subscript_lookup_ne {K A} `{Countable K} (d : A) (m : gmap K A) (k k' : K) :
  k ≠ k' → (subscript d m k).2 !! k' = m !! k'.
Proof.
  intros Hne. unfold subscript. destruct (m !! k); simpl; [reflexivity |].
  apply lookup_insert_ne, Hne.
Qed.

Lemma subscript_present {K A} `{Countable K} (d : A) (m : gmap K A) (k : K) (a : A) :
  m !! k = Some a → subscript d m k = (a, m).
Proof. intros E. unfold subscript. rewrite E. reflexivity. Qed.

(** Entries present before [operator[]] are present after it. *)
Lemma subscript_mono {K A} `{Countable K} (d : A) (m : gmap K A) (k k' : K) (a : A) :
  m !! k' = Some a → (subscript d m k).2 !! k' = Some a.
Proof.
  intros E. destruct (decide (k = k')) as [->|Hne].
  - rewrite (subscript_present d m k' a E). exact E.
  - rewrite subscript_lookup_ne by exact Hne. exact E.
Qed.

(** ** [RegisterComponent] *)





(** ** [AddComponent] *)

Section AddComponent_facts.

Context {T : Type}.
Variables (entity : Entity) (componentName : string) (component : T).

Lemma AddComponent_loop_spec (componentFlag : Z) (es : list Entity)
    (vecs : gmap string (list Entity)) (log : list (Event T)) (entityFound : bool) :
  AddComponent_loop entity componentName component componentFlag es vecs log entityFound =
    (add_flag entity componentFlag <$> es,
     push_back_all componentName (add_flag entity componentFlag <$> matching entity es) vecs,
     log ++ ((λ _, ComponentAdded entity componentName component) <$> matching entity es),
     if matching entity es is [] then entityFound else true).
Proof.
  revert vecs log entityFound.
  induction es as [|e es IH]; intros vecs log entityFound.
  - simpl. rewrite app_nil_r. reflexivity.
  - cbn [AddComponent_loop]. unfold matching in *. rewrite filter_cons.
    destruct (decide (UUID e = UUID entity)) as [Heq|Hne].
    + rewrite IH, !fmap_cons.
      assert (add_flag entity componentFlag e
              = mkEntity (UUID e) (bitfield.Set_ (bitfield e) (bitfield.wrap componentFlag)))
        as -> by (unfold add_flag; rewrite decide_True by exact Heq; reflexivity).
      set (copies := add_flag entity componentFlag <$> filter _ es).
      set (e' := mkEntity _ _).
      assert (push_back_all componentName copies
                match vecs !! componentName with
                | Some vec => <[componentName := vec ++ [e']]> vecs
                | None => <[componentName := [e']]> vecs
                end
              = push_back_all componentName (e' :: copies) vecs) as ->.
      { unfold push_back_all.
        destruct (vecs !! componentName) as [vec|] eqn:E; destruct copies as [|c cs];
          rewrite ?lookup_insert_eq, ?insert_insert_eq; unfold default, from_option, id;
          rewrite <- ?app_assoc; reflexivity. }
      unfold Broadcast. rewrite <- app_assoc.
      destruct (filter _ es); reflexivity.
    + rewrite IH.
      assert (add_flag entity componentFlag e = e) as Hid
        by (unfold add_flag; rewrite decide_False by exact Hne; reflexivity).
      rewrite fmap_cons, Hid. reflexivity.
Qed.

(** [AddComponent] on a registered type, in one equation. *)
Lemma AddComponent_spec (s : ECS T) (container : gmap Z T) :
  components s !! componentName = Some container →
  let componentFlag := to_int (default 0 (componentIndex s !! componentName)) in
  let s' :=
    {| entityIndex := entityIndex s; bitIndex := bitIndex s;
       entities := add_flag entity componentFlag <$> entities s;
       components := <[componentName := <[UUID entity := component]> container]> (components s);
       componentIndex := (subscript 0 (componentIndex s) componentName).2;
       individualComponentVecs :=
         push_back_all componentName (add_flag entity componentFlag <$> matching entity (entities s))
           (individualComponentVecs s);
       eventManager :=
         eventManager s ++
           ((λ _, ComponentAdded entity componentName component) <$> matching entity (entities s)) |} in
  AddComponent entity componentName component s =
    if matching entity (entities s) is [] then
      Throws s' (runtime_error "Failed to find entity to add component to")
    else Returns s' tt.
Proof.
  intros Hreg. unfold AddComponent. rewrite Hreg.
  rewrite <- subscript_fst.
  destruct (subscript 0 (componentIndex s) componentName) as [flag index'].
  rewrite AddComponent_loop_spec. cbn [fst snd].
  destruct (matching entity (entities s)); reflexivity.
Qed.

Lemma AddComponent_unregistered (s : ECS T) :
  components s !! componentName = None →
  AddComponent entity componentName component s
    = Throws s (ComponentNotRegisteredException componentName).
Proof. intros E. unfold AddComponent. rewrite E. reflexivity. Qed.

Lemma add_flag_no_match (componentFlag : Z) (es : list Entity) :
  matching entity es = [] → add_flag entity componentFlag <$> es = es.
Proof.
  unfold matching. induction es as [|e es IH]; [reflexivity|].
  rewrite filter_cons, fmap_cons. unfold add_flag at 1.
  destruct (decide (UUID e = UUID entity)); [discriminate|].
  intros Hnil. rewrite (IH Hnil). reflexivity.
Qed.

Lemma matching_nil (es : list Entity) :
  matching entity es = [] ↔ ∀ e, e ∈ es → UUID e ≠ UUID entity.
Proof.
  unfold matching. split.
  - intros Hnil e He Heq.
    assert (e ∈ filter (λ e, UUID e = UUID entity) es) as Hin
      by (apply list_elem_of_filter; split; assumption).
    rewrite Hnil in Hin. inversion Hin.
  - intros Hall. induction es as [|e es IH]; [reflexivity|].
    rewrite filter_cons, decide_False by (apply Hall; left).
    apply IH. intros e' He'. apply Hall. right. exact He'.
Qed.

End AddComponent_facts.

(** ** [GetComponent] and [HasComponent] *)

Section GetComponent_facts.

Context {T : Type}.
Variables (T_default : T) (entity : Entity) (componentName : string).

Lemma GetComponent_found_iff (componentFlag : Z) (es : list Entity) :
  GetComponent_found (UUID entity) componentFlag es = true ↔
  ∃ e, e ∈ es ∧ UUID e = UUID entity ∧
       bitfield.Has (bitfield e) (bitfield.wrap componentFlag) = true.
Proof.
  unfold GetComponent_found. rewrite existsb_exists. split.
  - intros (e & Hin & Hb). apply andb_true_iff in Hb as [Hu Hh].
    exists e. rewrite list_elem_of_In. apply bool_decide_eq_true in Hu. auto.
  - intros (e & Hin & Hu & Hh). exists e. rewrite <- list_elem_of_In.
    split; [exact Hin|]. apply andb_true_iff. split; [|exact Hh].
    apply bool_decide_eq_true. exact Hu.
Qed.

(** [GetComponent] on a registered type, in one equation: it returns,
    with the stored value ([T_default], inserted, when the container has
    none) when some entity of the table has the identifier and the flag,
    and with [nullptr] otherwise. *)
Lemma GetComponent_spec (s : ECS T) (container : gmap Z T) :
  components s !! componentName = Some container →
  let componentFlag := to_int (default 0 (componentIndex s !! componentName)) in
  GetComponent T_default entity componentName s =
    if GetComponent_found (UUID entity) componentFlag (entities s) then
      Returns
        {| entityIndex := entityIndex s; bitIndex := bitIndex s;
           entities := entities s;
           components :=
             <[componentName := (subscript T_default container (UUID entity)).2]> (components s);
           componentIndex := (subscript 0 (componentIndex s) componentName).2;
           individualComponentVecs := individualComponentVecs s;
           eventManager := eventManager s |}
        (Some (default T_default (container !! UUID entity)))
    else
      Returns
        {| entityIndex := entityIndex s; bitIndex := bitIndex s;
           entities := entities s;
           components := components s;
           componentIndex := (subscript 0 (componentIndex s) componentName).2;
           individualComponentVecs := individualComponentVecs s;
           eventManager := eventManager s |}
        None.
Proof.
  intros Hreg. unfold GetComponent. rewrite Hreg.
  rewrite <- subscript_fst.
  destruct (subscript 0 (componentIndex s) componentName) as [flag index'].
  cbn [fst snd].
  destruct (GetComponent_found _ _ _); [|reflexivity].
  rewrite <- subscript_fst.
  destruct (subscript T_default container (UUID entity)); reflexivity.
Qed.

Lemma GetComponent_unregistered (s : ECS T) :
  components s !! componentName = None →
  GetComponent T_default entity componentName s
    = Throws s (ComponentNotRegisteredException componentName).
Proof. intros E. unfold GetComponent. rewrite E. reflexivity. Qed.

Lemma HasComponent_unregistered (s : ECS T) :
  components s !! componentName = None →
  HasComponent T_default entity componentName s
    = Throws s (ComponentNotRegisteredException componentName).
Proof.
  intros E. unfold HasComponent, bind. rewrite (GetComponent_unregistered s E). reflexivity.
Qed.

(** [HasComponent] on a registered type returns whether some entity of
    the table has the identifier and the flag: it reads the table and
    the flag, and nothing of the container. *)
Lemma HasComponent_spec (s : ECS T) :
  is_Some (components s !! componentName) →
  returned (HasComponent T_default entity componentName s)
    = Some (GetComponent_found (UUID entity)
              (to_int (default 0 (componentIndex s !! componentName))) (entities s)).
Proof.
  intros [container Hreg]. unfold HasComponent, bind.
  rewrite (GetComponent_spec s container Hreg). cbv zeta.
  destruct (GetComponent_found _ _ _); reflexivity.
Qed.

End GetComponent_facts.

(** For a component type that is not registered, [GetComponent] and
    [HasComponent] throw [ComponentNotRegisteredException] and leave the
    store as it is. *)
Lemma Get_Has_unregistered {T} (d : T) (entity : Entity) (componentName : string)
    (s : ECS T) :
  ComponentIsRegistered componentName s = false →
  GetComponent d entity componentName s
    = Throws s (ComponentNotRegisteredException componentName) ∧
  HasComponent d entity componentName s
    = Throws s (ComponentNotRegisteredException componentName).
Proof.
  intros Hreg. unfold ComponentIsRegistered in Hreg.
  apply bool_decide_eq_false in Hreg.
  assert (components s !! componentName = None) as E
    by (destruct (components s !! componentName); [exfalso; eauto | reflexivity]).
  rewrite (GetComponent_unregistered d entity componentName s E).
  rewrite (HasComponent_unregistered d entity componentName s E).
  split; reflexivity.
Qed.

(** ** [RemoveComponent] *)

Lemma erase_first_None (uuid : Z) (vec : list Entity) :
  erase_first uuid vec = None ↔ ∀ x, x ∈ vec → UUID x ≠ uuid.
Proof.
  induction vec as [|x vec IH]; simpl.
  - split; [intros _ x Hx; inversion Hx | reflexivity].
  - destruct (decide (UUID x = uuid)) as [Heq|Hne].
    + split; [discriminate|]. intros Hall. exfalso. apply (Hall x); [left | exact Heq].
    + rewrite fmap_None, IH. split.
      * intros Hall y Hy. apply elem_of_cons in Hy as [->|Hy]; [exact Hne | apply Hall, Hy].
      * intros Hall y Hy. apply Hall. right. exact Hy.
Qed.

(** [erase] takes one entry away, the first with the identifier. *)
Lemma erase_first_Some (uuid : Z) (vec vec' : list Entity) :
  erase_first uuid vec = Some vec' →
  ∃ before x after, vec = before ++ x :: after ∧ vec' = before ++ after ∧
                    UUID x = uuid ∧ ∀ y, y ∈ before → UUID y ≠ uuid.
Proof.
  revert vec'. induction vec as [|x vec IH]; intros vec'; simpl; [discriminate|].
  destruct (decide (UUID x = uuid)) as [Heq|Hne].
  - intros [= <-]. exists [], x, vec. repeat split; [exact Heq|].
    intros y Hy. inversion Hy.
  - intros Hsome. apply fmap_Some in Hsome as (rest & Hrest & ->).
    destruct (IH rest Hrest) as (before & y & after & -> & -> & Hy & Hbefore).
    exists (x :: before), y, after. repeat split; [exact Hy|].
    intros z Hz. apply elem_of_cons in Hz as [->|Hz]; [exact Hne | apply Hbefore, Hz].
Qed.

Lemma RemoveComponent_find_None (uuid componentFlag : Z) (es : list Entity) :
  RemoveComponent_find uuid componentFlag es = None ↔ ∀ e, e ∈ es → UUID e ≠ uuid.
Proof.
  induction es as [|e es IH]; simpl.
  - split; [intros _ x Hx; inversion Hx | reflexivity].
  - destruct (decide (UUID e = uuid)) as [Heq|Hne].
    + split; [discriminate|]. intros Hall. exfalso. apply (Hall e); [left | exact Heq].
    + rewrite fmap_None, IH. split.
      * intros Hall y Hy. apply elem_of_cons in Hy as [->|Hy]; [exact Hne | apply Hall, Hy].
      * intros Hall y Hy. apply Hall. right. exact Hy.
Qed.

(** The table after the outer loop: the first entity with the identifier
    has the flag cleared, every other entity is as it was. *)
Lemma RemoveComponent_find_Some (uuid componentFlag : Z) (es es' : list Entity) (e' : Entity) :
  RemoveComponent_find uuid componentFlag es = Some (es', e') →
  ∃ before e after,
    es = before ++ e :: after ∧ es' = before ++ e' :: after ∧
    UUID e = uuid ∧ (∀ y, y ∈ before → UUID y ≠ uuid) ∧
    e' = mkEntity (UUID e) (bitfield.Clear (bitfield e) (bitfield.wrap componentFlag)).
Proof.
  revert es'. induction es as [|x es IH]; intros es'; simpl; [discriminate|].
  destruct (decide (UUID x = uuid)) as [Heq|Hne].
  - intros [= <- <-]. exists [], x, es. repeat split; [exact Heq|].
    intros y Hy. inversion Hy.
  - intros Hsome. apply fmap_Some in Hsome as ([rest r] & Hrest & [= -> ->]).
    destruct (IH rest Hrest) as (before & y & after & -> & Hr & Hy & Hbefore & He').
    cbn [fst snd] in *. subst rest.
    exists (x :: before), y, after. repeat split; [exact Hy | | exact He'].
    intros z Hz. apply elem_of_cons in Hz as [->|Hz]; [exact Hne | apply Hbefore, Hz].
Qed.

Section RemoveComponent_facts.

Context {T : Type}.
Variables (T_default : T) (entity : Entity) (componentName : string).

(** [RemoveComponent] on a registered type, in one equation. *)
Lemma RemoveComponent_spec (s : ECS T) (container : gmap Z T) :
  components s !! componentName = Some container →
  let componentFlag := to_int (default 0 (componentIndex s !! componentName)) in
  let index' := (subscript 0 (componentIndex s) componentName).2 in
  RemoveComponent T_default entity componentName s =
    match RemoveComponent_find (UUID entity) componentFlag (entities s) with
    | None =>
        Throws
          (mkECS (entityIndex s) (bitIndex s) (entities s) (components s) index'
             (individualComponentVecs s) (eventManager s))
          (runtime_error "Failed to find entity to remove component from")
    | Some (entities', e) =>
        match individualComponentVecs s !! componentName with
        | None => Undefined
        | Some componentVector =>
            match erase_first (UUID e) componentVector with
            | None =>
                Returns
                  (mkECS (entityIndex s) (bitIndex s) entities' (components s) index'
                     (individualComponentVecs s) (eventManager s))
                  tt
            | Some componentVector' =>
                Returns
                  (mkECS (entityIndex s) (bitIndex s) entities'
                     (<[componentName := (subscript T_default container (UUID entity)).2]>
                        (components s))
                     index'
                     (<[componentName := componentVector']> (individualComponentVecs s))
                     (eventManager s ++
                        [ComponentRemoved entity componentName
                           (default T_default (container !! UUID entity))]))
                  tt
            end
        end
    end.
Proof.
  intros Hreg. unfold RemoveComponent. rewrite Hreg.
  rewrite <- subscript_fst.
  destruct (subscript 0 (componentIndex s) componentName) as [flag index'].
  cbn [fst snd].
  destruct (RemoveComponent_find _ _ _) as [[entities' e]|]; [|reflexivity].
  destruct (individualComponentVecs s !! componentName) as [vec|]; [|reflexivity].
  destruct (erase_first _ _); [|reflexivity].
  rewrite <- subscript_fst.
  destruct (subscript T_default container (UUID entity)); reflexivity.
Qed.

Lemma RemoveComponent_unregistered (s : ECS T) :
  components s !! componentName = None →
  RemoveComponent T_default entity componentName s
    = Throws s (ComponentNotRegisteredException componentName).
Proof. intros E. unfold RemoveComponent. rewrite E. reflexivity. Qed.

End RemoveComponent_facts.

(** Clearing a flag leaves a word that does not have the flag, unless the
    flag is the empty word. *)
Lemma land_Clear (field flag : Z) :
  0 ≤ flag < 2 ^ 32 → Z.land (bitfield.Clear field flag) flag = 0.
Proof.
  intros Hflag. unfold bitfield.Clear, bitfield.wrap, bitfield.width.
  apply Z.bits_inj'. intros n Hn.
  rewrite !Z.land_spec, Z.bits_0.
  destruct (Z.testbit flag n) eqn:Hbit; [|apply andb_false_r].
  destruct (decide (n < 32)) as [Hlt|Hge].
  - rewrite Z.mod_pow2_bits_low, Z.lnot_spec, Hbit by lia.
    rewrite andb_false_r. reflexivity.
  - rewrite Z.mod_pow2_bits_high by lia. rewrite andb_false_r. reflexivity.
Qed.

Lemma wrap_range (z : Z) : 0 ≤ bitfield.wrap z < 2 ^ 32.
Proof. unfold bitfield.wrap, bitfield.width. apply Z.mod_pos_bound. lia. Qed.

Lemma Has_Clear (field componentFlag : Z) :
  bitfield.Has field (bitfield.wrap componentFlag) = false →
  bitfield.Has (bitfield.Clear field (bitfield.wrap componentFlag)) (bitfield.wrap componentFlag)
    = false.
Proof.
  unfold bitfield.Has at 1 2. rewrite !bool_decide_eq_false.
  intros Hnot Hhas. apply Hnot.
  rewrite land_Clear in Hhas by apply wrap_range.
  rewrite <- Hhas. apply Z.land_0_r.
Qed.

(** C4, as stated, fails: in the store in which [Position] is registered,
    e0 and e1 are live and only e1 has a [Position], e0 does not have the
    component, and [RemoveComponent] for e0 returns normally; it throws
    nothing, and no exception of the sources is of the kind
    [ComponentNotPresent]. *)
Lemma RemoveComponent_absent_does_not_throw :
  let s := Scenario.store_of Scenario.only_e1 in
  returned (Scenario.only_e1 ECS_new) = Some (Scenario.e0, Scenario.e1) ∧
  ComponentIsRegistered Scenario.Position s = true ∧
  live s (UUID Scenario.e0) ∧
  returned (HasComponent 0 Scenario.e0 Scenario.Position s) = Some false ∧
  returned (RemoveComponent 0 Scenario.e0 Scenario.Position s) = Some tt ∧
  ¬ (∃ s' ex, RemoveComponent 0 Scenario.e0 Scenario.Position s = Throws s' ex ∧
              kind_of ex = ComponentNotPresent).
Proof.
  assert (returned (RemoveComponent 0 Scenario.e0 Scenario.Position
                      (Scenario.store_of Scenario.only_e1)) = Some tt) as Hreturns
    by (vm_compute; reflexivity).
  split; [vm_compute; reflexivity|].
  split; [vm_compute; reflexivity|].
  split; [left; reflexivity|].
  split; [vm_compute; reflexivity|].
  split; [exact Hreturns|].
  intros (s' & ex & Hthrows & _). cbv zeta in Hthrows.
  rewrite Hthrows in Hreturns. discriminate Hreturns.
Qed.

(** ** Failure of [AddComponent] *)

(** When the type is registered and no entity of the table has the
    identifier, [AddComponent] throws after it has written the value into
    the container: the table, the membership vectors and the events are as
    before, the container is not. *)
Lemma AddComponent_not_found {T} (entity : Entity) (componentName : string) (component : T)
    (s : ECS T) (container : gmap Z T) :
  components s !! componentName = Some container →
  ¬ live s (UUID entity) →
  ∃ s', AddComponent entity componentName component s
          = Throws s' (runtime_error "Failed to find entity to add component to") ∧
        stored s' componentName (UUID entity) = Some component ∧
        entities s' = entities s ∧
        individualComponentVecs s' = individualComponentVecs s ∧
        eventManager s' = eventManager s.
Proof.
  intros Hreg Hdead.
  assert (matching entity (entities s) = []) as Hnil.
  { apply matching_nil. intros e He Hu. apply Hdead. apply Exists_exists. eauto. }
  rewrite (AddComponent_spec entity componentName component s container Hreg).
  cbv zeta. rewrite Hnil. eexists. split; [reflexivity|].
  unfold stored. cbn [components entities individualComponentVecs eventManager].
  rewrite lookup_insert_eq. cbn. rewrite lookup_insert_eq.
  repeat split.
  all: try (apply add_flag_no_match, Hnil).
  all: try (cbn; apply app_nil_r).
Qed.

(** C2 (the sources break it). [Position] is registered and the table is
    empty; [AddComponent] for the identifier 7 fails with the error kind
    [EntityNotFound], and the failed call has written the value into the
    container of [Position]: the store after the failure is not the store
    before it. The table, the membership vectors and the events are
    unchanged. *)
Theorem AddComponent_failure_not_atomic :
  ∃ s, RegisterComponent Scenario.Position (@ECS_new Z) = Returns s tt ∧
       ¬ live s 7 ∧
       stored s Scenario.Position 7 = None ∧
       ∃ s' ex, AddComponent (mkEntity 7 0) Scenario.Position 5 s = Throws s' ex ∧
                kind_of ex = EntityNotFound ∧
                stored s' Scenario.Position 7 = Some 5 ∧
                s' ≠ s ∧
                entities s' = entities s ∧
                individualComponentVecs s' = individualComponentVecs s ∧
                eventManager s' = eventManager s.
Proof.
  eexists. split; [reflexivity|].
  assert (¬ live (mkECS (T:=Z) 0 2 [] {["Position"%string := ∅]}
                    {["Position"%string := 1]} ∅ []) 7) as Hdead
    by (unfold live; cbn [entities]; intros H; inversion H).
  split; [exact Hdead|].
  split; [reflexivity|].
  assert (components (mkECS (T:=Z) 0 2 [] {["Position"%string := ∅]}
                        {["Position"%string := 1]} ∅ []) !! Scenario.Position
          = Some (∅ : gmap Z Z)) as Hreg by reflexivity.
  destruct (AddComponent_not_found (mkEntity 7 0) Scenario.Position 5 _ _ Hreg Hdead)
    as (s' & Hthrows & Hstored & Hes & Hvecs & Hlog).
  exists s', (runtime_error "Failed to find entity to add component to").
  split; [exact Hthrows|]. split; [reflexivity|]. split; [exact Hstored|].
  split; [|auto].
  intros ->. cbn in Hstored. discriminate Hstored.
Qed.

(** When it fails, [RemoveComponent] has changed nothing of a store in
    which every registered type has its flag. *)
Lemma RemoveComponent_failure_atomic {T} (d : T) (entity : Entity) (componentName : string)
    (s s' : ECS T) (ex : exception) :
  (is_Some (components s !! componentName) → is_Some (componentIndex s !! componentName)) →
  RemoveComponent d entity componentName s = Throws s' ex → s' = s.
Proof.
  intros Hflag. destruct (components s !! componentName) as [container|] eqn:Hreg.
  - rewrite (RemoveComponent_spec d entity componentName s container Hreg). cbv zeta.
    destruct (Hflag (ltac:(eauto))) as [flag Hf].
    rewrite (subscript_present 0 _ _ _ Hf). cbn [snd].
    destruct (RemoveComponent_find _ _ _) as [[entities' e]|].
    + destruct (individualComponentVecs s !! componentName); [|discriminate].
      destruct (erase_first _ _); discriminate.
    + intros [= <- _]. destruct s; reflexivity.
  - rewrite (RemoveComponent_unregistered d entity componentName s Hreg).
    intros [= <- _]. reflexivity.
Qed.

(** ** The bit allocator *)

Section RegisterComponent_capacity.

Context {T : Type}.
Variables (componentName : string) (s : ECS T).
Hypothesis Hfresh : components s !! componentName = None.

(** While [bitIndex] is one of the first 31 flags, a new type gets it
    and [bitIndex] doubles. *)
Lemma RegisterComponent_fresh (k : Z) :
  0 ≤ k < 31 → bitIndex s = 2 ^ k →
  ∃ s', RegisterComponent componentName s = Returns s' tt ∧
        componentIndex s' !! componentName = Some (2 ^ k) ∧
        bitIndex s' = 2 ^ (k + 1).
Proof.
  intros Hk Hbit. unfold RegisterComponent. rewrite Hfresh, Hbit.
  assert (bitfield.wrap (2 ^ k * 2) = 2 ^ (k + 1)) as ->.
  { rewrite Z.pow_add_r, Z.pow_1_r by lia. apply wrap_small.
    split; [lia|]. change (2 ^ 32) with (2 ^ 31 * 2).
    assert (2 ^ k < 2 ^ 31) by (apply Z.pow_lt_mono_r; lia). lia. }
  rewrite decide_False
    by (rewrite Z.pow_add_r, Z.pow_1_r by lia; assert (0 < 2 ^ k) by lia; lia).
  eexists. split; [reflexivity|]. cbn [componentIndex bitIndex].
  rewrite lookup_insert_eq. split; reflexivity.
Qed.

(** With [bitIndex] at the 32nd flag, the new type gets the flag and
    its container, and the call throws all the same: doubling the last
    flag wraps to 0. *)
Lemma RegisterComponent_last_flag :
  bitIndex s = 2 ^ 31 →
  ∃ s', RegisterComponent componentName s
          = Throws s' (out_of_range "Exceeded available flags for the bitfield! (max 32 b/c uint32)") ∧
        componentIndex s' !! componentName = Some (2 ^ 31) ∧
        is_Some (components s' !! componentName) ∧
        bitIndex s' = 0.
Proof.
  intros Hbit. unfold RegisterComponent. rewrite Hfresh, Hbit.
  change (bitfield.wrap (2 ^ 31 * 2)) with 0.
  rewrite decide_True by lia.
  eexists. split; [reflexivity|]. cbn [componentIndex bitIndex components].
  rewrite !lookup_insert_eq. eauto.
Qed.

(** Once [bitIndex] has wrapped to 0, every further type is registered
    without an exception, with the empty flag. *)
Lemma RegisterComponent_exhausted :
  bitIndex s = 0 →
  ∃ s', RegisterComponent componentName s = Returns s' tt ∧
        componentIndex s' !! componentName = Some 0 ∧
        bitIndex s' = 0.
Proof.
  intros Hbit. unfold RegisterComponent. rewrite Hfresh, Hbit.
  change (bitfield.wrap (0 * 2)) with 0.
  rewrite decide_False by lia.
  eexists. split; [reflexivity|]. cbn [componentIndex bitIndex].
  rewrite lookup_insert_eq. split; reflexivity.
Qed.

End RegisterComponent_capacity.

(** C5 (the sources break it). 33 distinct types are registered on a new
    store, each exception caught. The first 31 calls return; the 32nd call
    throws [out_of_range] (the error kind [CapacityExceeded]) although it
    has given the type the 32nd flag; the 33rd call, where the claim has
    the failure, returns normally and gives its type the empty flag 0. *)
Theorem RegisterComponent_33_types :
  let names := type_name <$> seq 1 33 in
  let outcome := register_all names (@ECS_new Z) in
  let flag (i : nat) : option Z := outcome.2 ≫= (λ s : ECS Z, componentIndex s !! type_name i) in
  NoDup names ∧
  outcome.1 = replicate 31 None
              ++ [Some (out_of_range "Exceeded available flags for the bitfield! (max 32 b/c uint32)");
                  None] ∧
  kind_of (out_of_range "Exceeded available flags for the bitfield! (max 32 b/c uint32)")
    = CapacityExceeded ∧
  flag 31%nat = Some (2 ^ 30) ∧
  flag 32%nat = Some (2 ^ 31) ∧
  flag 33%nat = Some 0 ∧
  bitIndex <$> outcome.2 = Some 0.
Proof.
  cbv zeta.
  split; [apply (bool_decide_unpack _); vm_compute; exact I|].
  repeat split; vm_compute; reflexivity.
Qed.

(** ** Adding a component twice *)

(** Every successful [AddComponent] pushes on the membership vector of the
    type one copy for each entity of the table with the identifier,
    whatever the vector holds already. *)
Lemma AddComponent_push_back {T} (entity : Entity) (componentName : string) (component : T)
    (s s1 : ECS T) :
  AddComponent entity componentName component s = Returns s1 tt →
  let componentFlag := to_int (default 0 (componentIndex s !! componentName)) in
  matching entity (entities s) ≠ [] ∧
  individualComponentVecs s1 !! componentName
    = Some (default [] (individualComponentVecs s !! componentName)
            ++ (add_flag entity componentFlag <$> matching entity (entities s))) ∧
  entities s1 = add_flag entity componentFlag <$> entities s ∧
  stored s1 componentName (UUID entity) = Some component.
Proof.
  destruct (components s !! componentName) as [container|] eqn:Hreg.
  - rewrite (AddComponent_spec entity componentName component s container Hreg). cbv zeta.
    destruct (matching entity (entities s)) as [|m ms] eqn:Hm; [discriminate|].
    intros [= <-]. cbn [individualComponentVecs entities].
    split; [discriminate|]. split; [|split; [reflexivity|]].
    + unfold push_back_all. rewrite fmap_cons. apply lookup_insert_eq.
    + unfold stored. cbn [components]. rewrite lookup_insert_eq. cbn.
      apply lookup_insert_eq.
  - rewrite (AddComponent_unregistered entity componentName component s Hreg). discriminate.
Qed.

(** C3 (the sources break it). [Position] is added to e0 twice. The second
    call replaces the stored value, and it pushes a second entry for e0 on
    the membership vector of [Position]. A [RemoveComponent] then erases
    one of the two: e0 no longer has the component and is still in the
    vector, so that [EntitiesWith] returns it, and a second
    [RemoveComponent], for a component e0 does not have, broadcasts
    [ComponentRemoved]. *)
Theorem AddComponent_twice_duplicates :
  let s := Scenario.store_of Scenario.added_twice in
  let s' := Scenario.store_of (λ _, RemoveComponent 0 Scenario.e0 Scenario.Position s) in
  let s'' := Scenario.store_of (λ _, RemoveComponent 0 Scenario.e0 Scenario.Position s') in
  returned (Scenario.added_twice ECS_new) = Some Scenario.e0 ∧
  returned (GetComponent 0 Scenario.e0 Scenario.Position s) = Some (Some 20) ∧
  individualComponentVecs s !! Scenario.Position = Some [mkEntity 0 1; mkEntity 0 1] ∧
  returned (RemoveComponent 0 Scenario.e0 Scenario.Position s) = Some tt ∧
  returned (HasComponent 0 Scenario.e0 Scenario.Position s') = Some false ∧
  individualComponentVecs s' !! Scenario.Position = Some [mkEntity 0 1] ∧
  returned (EntitiesWith [Scenario.Position] s') = Some [mkEntity 0 1] ∧
  returned (RemoveComponent 0 Scenario.e0 Scenario.Position s') = Some tt ∧
  eventManager s''
    = eventManager s' ++ [ComponentRemoved Scenario.e0 Scenario.Position 20].
Proof.
  cbv zeta. repeat split; vm_compute; reflexivity.
Qed.


(** ** Adding a component, then asking for it *)

(** In a table without repeated identifiers an entity is determined by
    its identifier. *)
Lemma UUID_determines (es : list Entity) (e e' : Entity) :
  NoDup (UUID <$> es) → e ∈ es → e' ∈ es → UUID e = UUID e' → e = e'.
Proof.
  induction es as [|x es IH]; intros Hnd He He' Hu; [inversion He|].
  rewrite fmap_cons in Hnd. apply NoDup_cons in Hnd as [Hx Hnd].
  apply elem_of_cons in He as [->|He]; apply elem_of_cons in He' as [->|He'].
  - reflexivity.
  - exfalso. apply Hx. rewrite Hu. apply list_elem_of_fmap_2, He'.
  - exfalso. apply Hx. rewrite <- Hu. apply list_elem_of_fmap_2, He.
  - apply IH; assumption.
Qed.

Lemma matching_elem (entity : Entity) (es : list Entity) (e : Entity) :
  e ∈ es → UUID e = UUID entity → matching entity es ≠ [].
Proof.
  intros He Hu Hnil. apply (proj1 (matching_nil entity es) Hnil e He Hu).
Qed.

(** After [operator[]], the flag read for the type is the one read
    before. *)
Lemma subscript_default (index : gmap string Z) (componentName : string) :
  default 0 ((subscript 0 index componentName).2 !! componentName)
  = default 0 (index !! componentName).
Proof. rewrite subscript_lookup, subscript_fst. reflexivity. Qed.

(** For a registered type and a live entity, in a table without repeated
    identifiers: [AddComponent] returns, and in the store it leaves
    [HasComponent] returns [true] and [GetComponent] returns the value
    added; and [GetComponent] returns without an exception, with a value
    exactly when [bitfield::Has] holds of the membership word of the
    entity in the table and the flag of the type, and with [nullptr]
    otherwise. When the flag is the empty word, as it is for a type
    registered after the 32 flags are used up, [bitfield::Has] holds of
    every word. *)
Lemma AddComponent_then_Get_Has {T} (d : T) (entity : Entity) (componentName : string)
    (component : T) (s : ECS T) (e : Entity) :
  ComponentIsRegistered componentName s = true →
  NoDup (UUID <$> entities s) →
  e ∈ entities s → UUID e = UUID entity →
  (∃ s1, AddComponent entity componentName component s = Returns s1 tt ∧
         returned (HasComponent d entity componentName s1) = Some true ∧
         returned (GetComponent d entity componentName s1) = Some (Some component)) ∧
  (∃ s' r, GetComponent d entity componentName s = Returns s' r ∧
           (is_Some r ↔ bitfield.Has (bitfield e) (flag_of s componentName) = true)).
Proof.
  intros Hreg Hnd He Hu.
  apply bool_decide_eq_true in Hreg. pose proof Hreg as [container Hc].
  split.
  - rewrite (AddComponent_spec entity componentName component s container Hc). cbv zeta.
    destruct (matching entity (entities s)) eqn:Hm;
      [exfalso; exact (matching_elem entity _ e He Hu Hm)|].
    rewrite <- Hm. clear Hm.
    set (componentFlag := to_int (default 0 (componentIndex s !! componentName))).
    eexists. split; [reflexivity|].
    set (s1 := mkECS _ _ _ _ _ _ _).
    assert (components s1 !! componentName
            = Some (<[UUID entity := component]> container)) as Hc1
      by apply lookup_insert_eq.
    assert (GetComponent_found (UUID entity)
              (to_int (default 0 (componentIndex s1 !! componentName))) (entities s1)
            = true) as Hfound.
    { unfold s1. cbn [componentIndex entities]. rewrite subscript_default.
      fold componentFlag. apply GetComponent_found_iff.
      exists (add_flag entity componentFlag e).
      split; [apply list_elem_of_fmap_2, He|].
      unfold add_flag. rewrite decide_True by exact Hu. cbn [UUID bitfield].
      split; [exact Hu | apply Has_Set]. }
    split.
    + rewrite HasComponent_spec by (rewrite Hc1; eauto). rewrite Hfound. reflexivity.
    + rewrite (GetComponent_spec d entity componentName s1 _ Hc1). cbv zeta.
      rewrite Hfound. cbn [returned]. rewrite lookup_insert_eq. reflexivity.
  - rewrite (GetComponent_spec d entity componentName s container Hc). cbv zeta.
    unfold flag_of.
    set (componentFlag := to_int (default 0 (componentIndex s !! componentName))).
    destruct (GetComponent_found (UUID entity) componentFlag (entities s)) eqn:Hfound.
    + eexists _, _. split; [reflexivity|].
      split; [intros _ | eauto].
      apply GetComponent_found_iff in Hfound as (e' & He' & Hu' & Hhas).
      assert (e' = e) as <-
        by (apply (UUID_determines (entities s)); [assumption..| congruence]).
      exact Hhas.
    + eexists _, _. split; [reflexivity|].
      split; [intros [? [=]]|].
      intros Hhas. exfalso.
      assert (GetComponent_found (UUID entity) componentFlag (entities s) = true) as Htrue
        by (apply GetComponent_found_iff; exists e; auto).
      rewrite Hfound in Htrue. discriminate Htrue.
Qed.

Lemma AddComponent_then_Get_Has_witness :
  let s := Scenario.store_of Scenario.only_e1 in
  (∃ s1, AddComponent Scenario.e0 Scenario.Position 10 s = Returns s1 tt ∧
         returned (HasComponent 0 Scenario.e0 Scenario.Position s1) = Some true ∧
         returned (GetComponent 0 Scenario.e0 Scenario.Position s1) = Some (Some 10)) ∧
  (∃ s' r, GetComponent 0 Scenario.e0 Scenario.Position s = Returns s' r ∧
           (is_Some r ↔ bitfield.Has (bitfield Scenario.e0) (flag_of s Scenario.Position) = true)).
Proof.
  apply (AddComponent_then_Get_Has 0 Scenario.e0 Scenario.Position 10
           (Scenario.store_of Scenario.only_e1) Scenario.e0).
  - vm_compute; reflexivity.
  - apply (bool_decide_unpack _); vm_compute; exact I.
  - apply (bool_decide_unpack _); vm_compute; exact I.
  - reflexivity.
Defined.


(** ** What [RemoveComponent] leaves in the container *)

(** Either [RemoveComponent] leaves the containers and the events as they
    are, or it has read [container->data[entity]] and broadcast the value
    read. No case erases an entry of a container. *)
Lemma RemoveComponent_effects {T} (d : T) (entity : Entity) (componentName : string)
    (s s' : ECS T) :
  store_after (RemoveComponent d entity componentName s) = Some s' →
  (components s' = components s ∧ eventManager s' = eventManager s) ∨
  (∃ container,
     components s !! componentName = Some container ∧
     components s'
       = <[componentName := (subscript d container (UUID entity)).2]> (components s) ∧
     eventManager s'
       = eventManager s ++
         [ComponentRemoved entity componentName (default d (container !! UUID entity))]).
Proof.
  destruct (components s !! componentName) as [container|] eqn:Hreg.
  - rewrite (RemoveComponent_spec d entity componentName s container Hreg). cbv zeta.
    destruct (RemoveComponent_find _ _ _) as [[entities' e]|].
    + destruct (individualComponentVecs s !! componentName); [|discriminate].
      destruct (erase_first _ _).
      * intros [= <-]. right. exists container. auto.
      * intros [= <-]. left. auto.
    + intros [= <-]. left. auto.
  - rewrite (RemoveComponent_unregistered d entity componentName s Hreg).
    intros [= <-]. left. auto.
Qed.

(** The table after a [RemoveComponent] that returns, in a table without
    repeated identifiers: no entity with the identifier has a flag that is
    not the empty word. *)
Lemma RemoveComponent_clears {T} (d : T) (entity : Entity) (componentName : string)
    (s s' : ECS T) :
  NoDup (UUID <$> entities s) →
  flag_of s componentName ≠ 0 →
  RemoveComponent d entity componentName s = Returns s' tt →
  returned (HasComponent d entity componentName s') = Some false.
Proof.
  intros Hnd Hflag.
  destruct (components s !! componentName) as [container|] eqn:Hreg;
    [|rewrite (RemoveComponent_unregistered d entity componentName s Hreg); discriminate].
  rewrite (RemoveComponent_spec d entity componentName s container Hreg). cbv zeta.
  unfold flag_of in Hflag.
  set (componentFlag := to_int (default 0 (componentIndex s !! componentName))) in *.
  destruct (RemoveComponent_find _ _ _) as [[entities' e']|] eqn:Hfind; [|discriminate].
  apply RemoveComponent_find_Some in Hfind
    as (before & e & after & Hes & -> & Hu & Hbefore & ->).
  assert (GetComponent_found (UUID entity) componentFlag
            (before ++ mkEntity (UUID e)
                         (bitfield.Clear (bitfield e) (bitfield.wrap componentFlag)) :: after)
          = false) as Hfound.
  { apply not_true_is_false. intros Htrue.
    apply GetComponent_found_iff in Htrue as (x & Hx & Hxu & Hhas).
    rewrite Hes, fmap_app, fmap_cons in Hnd.
    apply NoDup_app in Hnd as (_ & Hdisj & Hnd). apply NoDup_cons in Hnd as [Hafter _].
    apply elem_of_app in Hx as [Hx|Hx]; [exact (Hbefore x Hx Hxu)|].
    apply elem_of_cons in Hx as [->|Hx].
    - cbn [bitfield] in Hhas. unfold bitfield.Has in Hhas.
      apply bool_decide_eq_true in Hhas.
      rewrite land_Clear in Hhas by apply wrap_range. congruence.
    - apply Hafter. rewrite Hu, <- Hxu. apply list_elem_of_fmap_2, Hx. }
  destruct (individualComponentVecs s !! componentName); [|discriminate].
  destruct (erase_first _ _); intros [= <-].
  - rewrite HasComponent_spec by (cbn [components]; rewrite lookup_insert_eq; eauto).
    cbn [componentIndex entities]. rewrite subscript_default. fold componentFlag.
    rewrite Hfound. reflexivity.
  - rewrite HasComponent_spec by (cbn [components]; rewrite Hreg; eauto).
    cbn [componentIndex entities]. rewrite subscript_default. fold componentFlag.
    rewrite Hfound. reflexivity.
Qed.

(** C10. Whatever a [RemoveComponent] does, every value stored before it
    is stored after it: no entry of a container is erased. The
    [ComponentRemoved] event, when one is broadcast, carries the value
    stored for the entity. A later successful [AddComponent] overwrites
    the value. [HasComponent] is decided by the table and the flag of the
    type alone: two stores with the same table and flags give the same
    answer whatever their containers hold; and after a [RemoveComponent]
    that returns (table without repeated identifiers, flag not the empty
    word) it answers [false] while the value is still stored. *)
Theorem RemoveComponent_keeps_storage {T} (d : T) (entity : Entity) (componentName : string)
    (s s' : ECS T) :
  store_after (RemoveComponent d entity componentName s) = Some s' →
  (∀ name uuid v, stored s name uuid = Some v → stored s' name uuid = Some v) ∧
  (∀ v, stored s componentName (UUID entity) = Some v →
        eventManager s' = eventManager s ∨
        eventManager s' = eventManager s ++ [ComponentRemoved entity componentName v]) ∧
  (∀ v2 s2, AddComponent entity componentName v2 s' = Returns s2 tt →
            stored s2 componentName (UUID entity) = Some v2) ∧
  (∀ s2 : ECS T,
     entities s2 = entities s' → componentIndex s2 = componentIndex s' →
     ComponentIsRegistered componentName s2 = true →
     ComponentIsRegistered componentName s' = true →
     returned (HasComponent d entity componentName s2)
       = returned (HasComponent d entity componentName s')) ∧
  (∀ v, NoDup (UUID <$> entities s) → flag_of s componentName ≠ 0 →
        stored s componentName (UUID entity) = Some v →
        RemoveComponent d entity componentName s = Returns s' tt →
        returned (HasComponent d entity componentName s') = Some false ∧
        stored s' componentName (UUID entity) = Some v).
Proof.
  intros Hafter.
  assert (∀ name uuid v, stored s name uuid = Some v → stored s' name uuid = Some v)
    as Hkept.
  { intros name uuid v. unfold stored.
    destruct (RemoveComponent_effects d entity componentName s s' Hafter)
      as [[-> _]|(container & Hc & -> & _)]; [auto|].
    destruct (decide (componentName = name)) as [<-|Hne].
    - rewrite Hc, lookup_insert_eq. cbn. apply subscript_mono.
    - rewrite lookup_insert_ne by exact Hne. auto. }
  split; [exact Hkept|]. split; [|split; [|split]].
  - intros v Hv.
    destruct (RemoveComponent_effects d entity componentName s s' Hafter)
      as [[_ ->]|(container & Hc & _ & ->)]; [left; reflexivity|].
    right. unfold stored in Hv. rewrite Hc in Hv. cbn in Hv. rewrite Hv. reflexivity.
  - intros v2 s2 Hadd.
    apply (AddComponent_push_back entity componentName v2 s' s2 Hadd).
  - intros s2 Hes Hidx Hreg2 Hreg'.
    apply bool_decide_eq_true in Hreg2, Hreg'.
    rewrite !HasComponent_spec by assumption. rewrite Hes, Hidx. reflexivity.
  - intros v Hnd Hflag Hv Hret. split.
    + exact (RemoveComponent_clears d entity componentName s s' Hnd Hflag Hret).
    + apply Hkept, Hv.
Qed.

Lemma RemoveComponent_keeps_storage_witness :
  let s := Scenario.store_of Scenario.only_e1 in
  let s' := Scenario.store_of (λ _, RemoveComponent 0 Scenario.e1 Scenario.Position s) in
  store_after (RemoveComponent 0 Scenario.e1 Scenario.Position s) = Some s' ∧
  stored s Scenario.Position 1 = Some 11 ∧
  returned (HasComponent 0 Scenario.e1 Scenario.Position s') = Some false ∧
  ∀ name uuid v, stored s name uuid = Some v → stored s' name uuid = Some v.
Proof.
  cbv zeta.
  assert (store_after (RemoveComponent 0 Scenario.e1 Scenario.Position
                         (Scenario.store_of Scenario.only_e1))
          = Some (Scenario.store_of
                    (λ _, RemoveComponent 0 Scenario.e1 Scenario.Position
                            (Scenario.store_of Scenario.only_e1)))) as Hafter
    by (vm_compute; reflexivity).
  split; [exact Hafter|].
  split; [vm_compute; reflexivity|].
  split; [vm_compute; reflexivity|].
  exact (proj1 (RemoveComponent_keeps_storage 0 Scenario.e1 Scenario.Position _ _ Hafter)).
Defined.


(** ** [EntitiesWith] *)

Lemma min_element_elem (smallest : string * Z) (rest : list (string * Z)) :
  min_element smallest rest ∈ smallest :: rest.
Proof.
  revert smallest. induction rest as [|x rest IH]; intros smallest; simpl; [left|].
  specialize (IH (if decide (x.2 < smallest.2) then x else smallest)).
  apply elem_of_cons in IH as [->|IH].
  - destruct (decide _); [right; left | left].
  - right. right. exact IH.
Qed.

(** No entry is smaller than the one [min_element] returns. *)
Lemma min_element_least (smallest : string * Z) (rest : list (string * Z)) (x : string * Z) :
  x ∈ smallest :: rest → (min_element smallest rest).2 ≤ x.2.
Proof.
  revert smallest x. induction rest as [|y rest IH]; intros smallest x Hx; simpl.
  - apply list_elem_of_singleton in Hx as ->. lia.
  - assert ((min_element (if decide (y.2 < smallest.2) then y else smallest) rest).2
            ≤ (if decide (y.2 < smallest.2) then y else smallest).2) as Hle
      by (apply IH; left).
    apply elem_of_cons in Hx as [->|Hx]; [destruct (decide _); lia|].
    apply elem_of_cons in Hx as [->|Hx]; [destruct (decide _); lia|].
    apply IH. right. exact Hx.
Qed.

(** The first loop, when it runs to its end: every name is registered,
    the sizes recorded are those of the membership vectors, in the order
    of the names, and the vectors are as before, but for empty ones
    created. *)
Lemma EntitiesWith_sizes_inr {T} (componentNames : list string)
    (registered : gmap string (gmap Z T)) (vecs vecs' : gmap string (list Entity))
    (acc sizes : list (string * Z)) :
  EntitiesWith_sizes componentNames registered vecs acc = (vecs', inr sizes) →
  Forall (λ n, is_Some (registered !! n)) componentNames ∧
  sizes = acc ++ ((λ n, (n, to_int (Z.of_nat (length (default [] (vecs !! n))))))
                    <$> componentNames) ∧
  ∀ n, default [] (vecs' !! n) = default [] (vecs !! n).
Proof.
  revert vecs acc. induction componentNames as [|name names IH]; intros vecs acc; simpl.
  - intros [= <- <-]. rewrite app_nil_r. auto.
  - destruct (registered !! name) as [c|] eqn:Hreg; [|discriminate].
    pose proof (subscript_fst [] vecs name) as Hfst.
    pose proof (subscript_lookup [] vecs name) as Hlook.
    pose proof (subscript_lookup_ne [] vecs name) as Hne.
    destruct (subscript [] vecs name) as [vec vecs1]. cbn [fst snd] in *.
    intros Hrest. apply IH in Hrest as (Hall & -> & Hvecs).
    assert (∀ n, default [] (vecs1 !! n) = default [] (vecs !! n)) as Hsame.
    { intros n. destruct (decide (name = n)) as [<-|Hn].
      - rewrite Hlook, Hfst. reflexivity.
      - rewrite Hne by exact Hn. reflexivity. }
    split; [constructor; eauto|]. split.
    + rewrite <- app_assoc, Hfst. cbn [app]. f_equal. f_equal.
      apply list_fmap_ext. intros _ n _. rewrite Hsame. reflexivity.
    + intros n. rewrite Hvecs. apply Hsame.
Qed.

(** What [EntitiesWith] returns for a non-empty request: the entries of
    the membership vector of one of the requested types, none of the
    requested types having a shorter vector, filtered by the membership
    word each entry carries. The table is not read. *)
Lemma EntitiesWith_filters_vector {T} (componentNames : list string) (s s' : ECS T)
    (r : list Entity) :
  componentNames ≠ [] →
  EntitiesWith componentNames s = Returns s' r →
  let size n := to_int (Z.of_nat (length (default [] (individualComponentVecs s !! n)))) in
  ∃ name,
    name ∈ componentNames ∧
    (∀ n, n ∈ componentNames → size name ≤ size n) ∧
    r = List.filter (λ e, bitfield.Has (bitfield e) (query_field s componentNames))
          (default [] (individualComponentVecs s !! name)) ∧
    entities s' = entities s.
Proof.
  intros Hne. unfold EntitiesWith, query_field.
  destruct componentNames as [|n0 names]; [congruence|].
  destruct (EntitiesWith_sizes (n0 :: names) (components s) (individualComponentVecs s) [])
    as [vecs' [ex|sizes]] eqn:Hsizes; [discriminate|].
  apply EntitiesWith_sizes_inr in Hsizes as (_ & -> & Hvecs).
  destruct (EntitiesWith_field (n0 :: names) (componentIndex s) 0) as [field index'].
  cbn [app fst].
  set (size := λ n, to_int (Z.of_nat (length (default [] (individualComponentVecs s !! n))))).
  change (λ n, (n, to_int (Z.of_nat (length (default [] (individualComponentVecs s !! n))))))
    with (λ n, (n, size n)).
  rewrite fmap_cons.
  pose proof (min_element_elem (n0, size n0) ((λ n, (n, size n)) <$> names)) as Hin.
  pose proof (min_element_least (n0, size n0) ((λ n, (n, size n)) <$> names)) as Hleast.
  rewrite <- (fmap_cons (λ n, (n, size n))) in Hin, Hleast.
  apply list_elem_of_fmap in Hin as (name & Hname & Hin).
  rewrite Hname in *. cbn [fst snd] in *.
  pose proof (subscript_fst [] vecs' name) as Hfst.
  destruct (subscript [] vecs' name) as [vec vecs'']. cbn [fst] in Hfst.
  intros [= <- <-].
  exists name. split; [exact Hin|]. split; [|split; [|reflexivity]].
  - intros n Hn. apply (Hleast (n, size n)).
    apply list_elem_of_fmap. exists n. split; [reflexivity | exact Hn].
  - rewrite Hfst, Hvecs. reflexivity.
Qed.


(** ** Membership vectors hold copies *)

(** Setting the flag leaves the identifiers alone: the entities of the
    new table the loop stopped at are the copies it pushed. *)
Lemma UUID_add_flag (entity : Entity) (componentFlag : Z) (e : Entity) :
  UUID (add_flag entity componentFlag e) = UUID e.
Proof. unfold add_flag. destruct (decide _); reflexivity. Qed.

Lemma matching_add_flag (entity : Entity) (componentFlag : Z) (es : list Entity) :
  matching entity (add_flag entity componentFlag <$> es)
  = add_flag entity componentFlag <$> matching entity es.
Proof.
  unfold matching. induction es as [|e es IH]; [reflexivity|].
  rewrite fmap_cons, !filter_cons, IH, UUID_add_flag.
  destruct (decide (UUID e = UUID entity)); reflexivity.
Qed.





(** C1 (the sources break it). In the scenario of the specification e1
    has a [Position] and a [Velocity], and [EntitiesWith(Position,
    Velocity)] returns no entity. Both vectors have two entries, the first
    requested type is searched, and the copy of e1 on the vector of
    [Position] was taken before e1 got its [Velocity]: the table has the
    word 3 for e1, the copy has 1. With the request in the other order the
    same store gives e1. *)
Theorem EntitiesWith_scenario :
  let s := Scenario.store_of Scenario.setup in
  returned (Scenario.setup ECS_new) = Some (Scenario.e0, Scenario.e1, Scenario.e2) ∧
  returned (HasComponent 0 Scenario.e1 Scenario.Position s) = Some true ∧
  returned (HasComponent 0 Scenario.e1 Scenario.Velocity s) = Some true ∧
  returned (EntitiesWith [Scenario.Position; Scenario.Velocity] s) = Some [] ∧
  entities s = [mkEntity 0 1; mkEntity 1 3; mkEntity 2 2] ∧
  individualComponentVecs s !! Scenario.Position = Some [mkEntity 0 1; mkEntity 1 1] ∧
  individualComponentVecs s !! Scenario.Velocity = Some [mkEntity 1 3; mkEntity 2 2] ∧
  returned (EntitiesWith [Scenario.Velocity; Scenario.Position] s) = Some [mkEntity 1 3] ∧
  returned (EntitiesWith [Scenario.Position] s) = Some [mkEntity 0 1; mkEntity 1 1] ∧
  returned (EntitiesWith [] s) = Some (entities s).
Proof.
  cbv zeta. repeat split; vm_compute; reflexivity.
Qed.


(** ** Stores reachable from a new store *)

Lemma same_schema_refl {T} (s : ECS T) : same_schema s s.
Proof. repeat split; auto. Qed.

Lemma is_Some_insert_present {A} (m : gmap string A) (k n : string) (a : A) :
  is_Some (m !! k) → is_Some (<[k := a]> m !! n) ↔ is_Some (m !! n).
Proof.
  intros Hk. destruct (decide (k = n)) as [<-|Hne].
  - rewrite lookup_insert_eq. split; eauto.
  - rewrite lookup_insert_ne by exact Hne. reflexivity.
Qed.

Lemma subscript_registered {T} (s : ECS T) (componentName : string) :
  is_Some (components s !! componentName) →
  (∀ n, is_Some (components s !! n) → is_Some (componentIndex s !! n)) →
  (subscript 0 (componentIndex s) componentName).2 = componentIndex s.
Proof.
  intros Hreg Hflag. destruct (Hflag _ Hreg) as [f Hf].
  rewrite (subscript_present 0 _ _ _ Hf). reflexivity.
Qed.

Lemma fmap_UUID_add_flag (entity : Entity) (componentFlag : Z) (es : list Entity) :
  UUID <$> (add_flag entity componentFlag <$> es) = UUID <$> es.
Proof.
  rewrite <- list_fmap_compose. apply list_fmap_ext. intros _ e _. apply UUID_add_flag.
Qed.

Lemma AddComponent_same_schema {T} (entity : Entity) (componentName : string) (component : T)
    (s s' : ECS T) :
  store_after (AddComponent entity componentName component s) = Some s' → same_schema s s'.
Proof.
  destruct (components s !! componentName) as [container|] eqn:Hreg.
  - rewrite (AddComponent_spec entity componentName component s container Hreg). cbv zeta.
    assert (is_Some (components s !! componentName)) as Hsome by eauto.
    destruct (matching entity (entities s)); intros [= <-];
      (split; [reflexivity|]; split; [reflexivity|];
       split; [apply fmap_UUID_add_flag|];
       split; [intros n; apply is_Some_insert_present, Hsome
              | apply subscript_registered, Hsome]).
  - rewrite (AddComponent_unregistered entity componentName component s Hreg).
    intros [= <-]. apply same_schema_refl.
Qed.

Lemma RemoveComponent_same_schema {T} (d : T) (entity : Entity) (componentName : string)
    (s s' : ECS T) :
  store_after (RemoveComponent d entity componentName s) = Some s' → same_schema s s'.
Proof.
  destruct (components s !! componentName) as [container|] eqn:Hreg.
  - rewrite (RemoveComponent_spec d entity componentName s container Hreg). cbv zeta.
    assert (is_Some (components s !! componentName)) as Hsome by eauto.
    destruct (RemoveComponent_find _ _ _) as [[entities' e']|] eqn:Hfind.
    + apply RemoveComponent_find_Some in Hfind
        as (before & e & after & Hes & -> & Hu & _ & ->).
      assert (UUID <$> before ++ mkEntity (UUID e) (bitfield.Clear (bitfield e)
                (bitfield.wrap (to_int (default 0 (componentIndex s !! componentName)))))
                :: after = UUID <$> entities s) as Huuid
        by (rewrite Hes, !fmap_app, !fmap_cons; reflexivity).
      destruct (individualComponentVecs s !! componentName); [|discriminate].
      destruct (erase_first _ _); intros [= <-];
        (split; [reflexivity|]; split; [reflexivity|]; split; [exact Huuid|];
         split; [intros n; first [apply is_Some_insert_present, Hsome | reflexivity]
                | apply subscript_registered, Hsome]).
    + intros [= <-].
      split; [reflexivity|]. split; [reflexivity|]. split; [reflexivity|].
      split; [reflexivity | apply subscript_registered, Hsome].
  - rewrite (RemoveComponent_unregistered d entity componentName s Hreg).
    intros [= <-]. apply same_schema_refl.
Qed.

Lemma GetComponent_same_schema {T} (d : T) (entity : Entity) (componentName : string)
    (s s' : ECS T) :
  store_after (GetComponent d entity componentName s) = Some s' → same_schema s s'.
Proof.
  destruct (components s !! componentName) as [container|] eqn:Hreg.
  - rewrite (GetComponent_spec d entity componentName s container Hreg). cbv zeta.
    assert (is_Some (components s !! componentName)) as Hsome by eauto.
    destruct (GetComponent_found _ _ _); intros [= <-];
      (split; [reflexivity|]; split; [reflexivity|]; split; [reflexivity|];
       split; [intros n; first [apply is_Some_insert_present, Hsome | reflexivity]
              | apply subscript_registered, Hsome]).
  - rewrite (GetComponent_unregistered d entity componentName s Hreg).
    intros [= <-]. apply same_schema_refl.
Qed.

Lemma HasComponent_store {T} (d : T) (entity : Entity) (componentName : string) (s : ECS T) :
  store_after (HasComponent d entity componentName s)
  = store_after (GetComponent d entity componentName s).
Proof.
  unfold HasComponent, bind. destruct (GetComponent d entity componentName s); reflexivity.
Qed.

Lemma EntitiesWith_field_registered (componentNames : list string) (index : gmap string Z)
    (field : Z) :
  Forall (λ n, is_Some (index !! n)) componentNames →
  (EntitiesWith_field componentNames index field).2 = index.
Proof.
  revert field. induction componentNames as [|n names IH]; intros field Hall; [reflexivity|].
  apply Forall_cons in Hall as [[f Hf] Hall]. simpl.
  rewrite (subscript_present 0 _ _ _ Hf). apply IH, Hall.
Qed.

Lemma EntitiesWith_same_schema {T} (componentNames : list string) (s s' : ECS T) :
  store_after (EntitiesWith componentNames s) = Some s' → same_schema s s'.
Proof.
  unfold EntitiesWith. destruct componentNames as [|n0 names];
    [intros [= <-]; apply same_schema_refl|].
  destruct (EntitiesWith_sizes (n0 :: names) (components s) (individualComponentVecs s) [])
    as [vecs' [ex|sizes]] eqn:Hsizes.
  - intros [= <-]. repeat split; auto.
  - apply EntitiesWith_sizes_inr in Hsizes as (Hall & -> & _).
    pose proof (EntitiesWith_field_registered (n0 :: names) (componentIndex s) 0) as Hfield.
    destruct (EntitiesWith_field (n0 :: names) (componentIndex s) 0) as [field index'].
    cbn [app fmap list_fmap].
    destruct (subscript [] vecs' _) as [vec vecs'']. intros [= <-].
    split; [reflexivity|]. split; [reflexivity|]. split; [reflexivity|].
    split; [reflexivity|]. intros Hflag. cbn [componentIndex]. cbn [snd] in Hfield.
    apply Hfield. eapply Forall_impl; [exact Hall|]. intros n Hn. apply Hflag, Hn.
Qed.

Lemma same_schema_well_formed {T} (s s' : ECS T) :
  same_schema s s' → well_formed s → well_formed s'.
Proof.
  intros (Hidx & Hbit & Huuid & Hdom & Hflags) (Hnd & Hpos & Hbound & Hb & Hf & Hboth).
  specialize (Hflags (λ n, proj1 (Hboth n))).
  unfold well_formed. rewrite Hidx, Hbit, Huuid, Hflags.
  split; [exact Hnd|]. split; [exact Hpos|].
  split; [|split; [exact Hb|split; [exact Hf|]]].
  - apply Forall_forall. intros e' He'.
    assert (UUID e' ∈ UUID <$> entities s) as Hin
      by (rewrite <- Huuid; apply list_elem_of_fmap_2, He').
    apply list_elem_of_fmap in Hin as (e & -> & He).
    rewrite Forall_forall in Hbound. apply Hbound, He.
  - intros n. rewrite Hdom. apply Hboth.
Qed.

Lemma ECS_new_well_formed {T} : well_formed (@ECS_new T).
Proof.
  unfold well_formed. cbn. split; [constructor|]. split; [lia|]. split; [constructor|].
  split; [lia|]. split.
  - intros n f Hf. rewrite lookup_empty in Hf. discriminate Hf.
  - intros n. rewrite !lookup_empty. split; intros [? [=]].
Qed.

Lemma CreateEntity_well_formed {T} (s s' : ECS T) :
  store_after (CreateEntity s) = Some s' → well_formed s → well_formed s'.
Proof.
  unfold CreateEntity. destruct (decide _); [discriminate|]. intros [= <-].
  intros (Hnd & Hpos & Hbound & Hb & Hf & Hboth). unfold well_formed.
  cbn [entities entityIndex bitIndex componentIndex components].
  split; [|split; [lia|split; [|auto]]].
  - rewrite fmap_app. apply NoDup_app. split; [exact Hnd|]. split; [|apply NoDup_singleton].
    intros u Hu Hnew. apply list_elem_of_singleton in Hnew. cbn in Hnew. subst u.
    apply list_elem_of_fmap in Hu as (e & Hu & He).
    rewrite Forall_forall in Hbound. specialize (Hbound e He). lia.
  - apply Forall_app. split.
    + eapply Forall_impl; [exact Hbound|]. intros e. cbn. lia.
    + apply Forall_singleton. cbn. lia.
Qed.

Lemma RegisterComponent_well_formed {T} (componentName : string) (s s' : ECS T) :
  store_after (RegisterComponent componentName s) = Some s' →
  well_formed s → well_formed s'.
Proof.
  unfold RegisterComponent.
  destruct (components s !! componentName) as [c|] eqn:Hreg; [intros [= <-]; auto|].
  intros Hafter (Hnd & Hpos & Hbound & Hb & Hf & Hboth).
  assert (s' = mkECS (entityIndex s) (bitfield.wrap (bitIndex s * 2)) (entities s)
                 (<[componentName := ∅]> (components s))
                 (<[componentName := bitIndex s]> (componentIndex s))
                 (individualComponentVecs s) (eventManager s)) as ->
    by (destruct (decide _); injection Hafter as <-; reflexivity).
  unfold well_formed. cbn [entities entityIndex bitIndex componentIndex components].
  split; [exact Hnd|]. split; [exact Hpos|]. split; [exact Hbound|].
  split; [apply wrap_range|]. split.
  - intros n f. destruct (decide (componentName = n)) as [<-|Hne].
    + rewrite lookup_insert_eq. intros [= <-]. exact Hb.
    + rewrite lookup_insert_ne by exact Hne. apply Hf.
  - intros n. destruct (decide (componentName = n)) as [<-|Hne].
    + rewrite !lookup_insert_eq. split; eauto.
    + rewrite !lookup_insert_ne by exact Hne. apply Hboth.
Qed.

Lemma exec_well_formed {T} (d : T) (c : op T) (s s' : ECS T) :
  exec d c s = Some s' → well_formed s → well_formed s'.
Proof.
  destruct c; cbn [exec]; intros Hexec.
  - exact (CreateEntity_well_formed s s' Hexec).
  - exact (RegisterComponent_well_formed _ s s' Hexec).
  - exact (same_schema_well_formed s s' (AddComponent_same_schema _ _ _ s s' Hexec)).
  - exact (same_schema_well_formed s s' (RemoveComponent_same_schema d _ _ s s' Hexec)).
  - exact (same_schema_well_formed s s' (GetComponent_same_schema d _ _ s s' Hexec)).
  - rewrite HasComponent_store in Hexec.
    exact (same_schema_well_formed s s' (GetComponent_same_schema d _ _ s s' Hexec)).
  - exact (same_schema_well_formed s s' (EntitiesWith_same_schema _ s s' Hexec)).
Qed.

Lemma run_well_formed {T} (d : T) (cs : list (op T)) (s s' : ECS T) :
  run d cs s = Some s' → well_formed s → well_formed s'.
Proof.
  revert s. induction cs as [|c cs IH]; intros s; cbn [run].
  - intros [= <-]. auto.
  - destruct (exec d c s) as [s1|] eqn:Hexec; [|discriminate]. cbn.
    intros Hrun Hwf. apply (IH s1 Hrun). exact (exec_well_formed d c s s1 Hexec Hwf).
Qed.

(** Every store a run of calls leaves is well formed. *)
Lemma reachable_well_formed {T} (d : T) (s : ECS T) : reachable d s → well_formed s.
Proof. intros [cs Hrun]. exact (run_well_formed d cs _ s Hrun ECS_new_well_formed). Qed.

(** In a reachable store the flag the member functions work with is the
    flag the type was registered with. *)
Lemma reachable_flag_of {T} (d : T) (s : ECS T) (componentName : string) (flag : Z) :
  reachable d s → componentIndex s !! componentName = Some flag →
  flag_of s componentName = flag.
Proof.
  intros Hreach Hflag. destruct (reachable_well_formed d s Hreach) as (_ & _ & _ & _ & Hf & _).
  unfold flag_of. rewrite Hflag. cbn [default from_option id].
  rewrite wrap_to_int. apply wrap_small. apply (Hf _ _ Hflag).
Qed.

(** ** Types that were never registered *)

(** Only [RegisterComponent] gives a type a container. *)
Lemma exec_unregistered {T} (d : T) (c : op T) (s s' : ECS T) (componentName : string) :
  exec d c s = Some s' → c ≠ OpRegisterComponent componentName →
  components s !! componentName = None → components s' !! componentName = None.
Proof.
  intros Hexec Hc Hnone.
  assert (∀ s1 : ECS T, same_schema s s1 → components s1 !! componentName = None) as Hsame.
  { intros s1 (_ & _ & _ & Hdom & _). apply eq_None_not_Some. rewrite Hdom, Hnone.
    intros [? [=]]. }
  destruct c; cbn [exec] in Hexec.
  - unfold CreateEntity in Hexec. destruct (decide _); [discriminate|].
    injection Hexec as <-. exact Hnone.
  - unfold RegisterComponent in Hexec.
    destruct (components s !! componentName0) eqn:Hreg; [injection Hexec as <-; exact Hnone|].
    assert (components s' = <[componentName0 := ∅]> (components s)) as ->
      by (destruct (decide _); injection Hexec as <-; reflexivity).
    rewrite lookup_insert_ne by congruence. exact Hnone.
  - exact (Hsame s' (AddComponent_same_schema _ _ _ s s' Hexec)).
  - exact (Hsame s' (RemoveComponent_same_schema d _ _ s s' Hexec)).
  - exact (Hsame s' (GetComponent_same_schema d _ _ s s' Hexec)).
  - rewrite HasComponent_store in Hexec.
    exact (Hsame s' (GetComponent_same_schema d _ _ s s' Hexec)).
  - exact (Hsame s' (EntitiesWith_same_schema _ s s' Hexec)).
Qed.

Lemma run_unregistered {T} (d : T) (cs : list (op T)) (s s' : ECS T) (componentName : string) :
  run d cs s = Some s' →
  Forall (λ c, c ≠ OpRegisterComponent componentName) cs →
  components s !! componentName = None → components s' !! componentName = None.
Proof.
  revert s. induction cs as [|c cs IH]; intros s; cbn [run].
  - intros [= <-]. auto.
  - destruct (exec d c s) as [s1|] eqn:Hexec; [|discriminate]. cbn.
    intros Hrun Hall Hnone. apply Forall_cons in Hall as [Hc Hall].
    apply (IH s1 Hrun Hall). exact (exec_unregistered d c s s1 _ Hexec Hc Hnone).
Qed.

(** C9. In the store a run of calls on a new store leaves, for a type
    that no call of the run passed to [RegisterComponent], and any entity:
    [GetComponent] and [HasComponent] throw
    [ComponentNotRegisteredException] (the error kind
    [ComponentNotRegistered]) and leave the store as it is; they return
    neither [nullptr] nor [false]. *)
Theorem Get_Has_never_registered_throw {T} (d : T) (cs : list (op T)) (s : ECS T)
    (entity : Entity) (componentName : string) :
  run d cs ECS_new = Some s →
  Forall (λ c, c ≠ OpRegisterComponent componentName) cs →
  GetComponent d entity componentName s
    = Throws s (ComponentNotRegisteredException componentName) ∧
  HasComponent d entity componentName s
    = Throws s (ComponentNotRegisteredException componentName) ∧
  kind_of (ComponentNotRegisteredException componentName) = ComponentNotRegistered ∧
  returned (GetComponent d entity componentName s) = None ∧
  returned (HasComponent d entity componentName s) = None.
Proof.
  intros Hrun Hnever.
  assert (components s !! componentName = None) as Hnone
    by (apply (run_unregistered d cs ECS_new s componentName Hrun Hnever), lookup_empty).
  assert (ComponentIsRegistered componentName s = false) as Hreg
    by (apply bool_decide_eq_false; rewrite Hnone; intros [? [=]]).
  destruct (Get_Has_unregistered d entity componentName s Hreg) as [-> ->].
  repeat split; reflexivity.
Qed.

Lemma Get_Has_never_registered_throw_witness :
  let cs := [OpRegisterComponent Scenario.Position; OpCreateEntity;
             OpAddComponent Scenario.e0 Scenario.Position 10] in
  let s := Scenario.store_of (λ s0, if run 0 cs s0 is Some s then Returns s tt else Undefined) in
  run 0 cs ECS_new = Some s ∧
  Forall (λ c, c ≠ OpRegisterComponent Scenario.Velocity) cs ∧
  GetComponent 0 Scenario.e0 Scenario.Velocity s
    = Throws s (ComponentNotRegisteredException Scenario.Velocity) ∧
  HasComponent 0 Scenario.e0 Scenario.Velocity s
    = Throws s (ComponentNotRegisteredException Scenario.Velocity).
Proof.
  cbv zeta.
  set (cs := [OpRegisterComponent Scenario.Position; OpCreateEntity;
              OpAddComponent Scenario.e0 Scenario.Position 10]).
  set (s := Scenario.store_of _).
  assert (run 0 cs ECS_new = Some s) as Hrun by (vm_compute; reflexivity).
  assert (Forall (λ c, c ≠ OpRegisterComponent Scenario.Velocity) cs) as Hnever
    by (repeat constructor; discriminate).
  split; [exact Hrun|]. split; [exact Hnever|].
  destruct (Get_Has_never_registered_throw 0 cs s Scenario.e0 Scenario.Velocity Hrun Hnever)
    as (Hget & Hhas & _).
  split; [exact Hget | exact Hhas].
Defined.


(** * Further properties of [Manager.hpp] *)

(** ** Keys of a container *)

(** X1. [EntityComparer] is a strict weak ordering, as [std::map]
    requires, and two entities are the same key of a container exactly
    when their [UUID]s are equal, whatever their membership words. *)
Theorem EntityComparer_same_key (a b c : Entity) :
  EntityComparer a a = false ∧
  (EntityComparer a b = true → EntityComparer b c = true → EntityComparer a c = true) ∧
  (same_key a b ↔ UUID a = UUID b) ∧
  (same_key a b → same_key b c → same_key a c).
Proof.
  unfold same_key, EntityComparer.
  rewrite !bool_decide_eq_true, !bool_decide_eq_false. repeat split; lia.
Qed.

(** X2. [GetComponentNames] pushes the names of its types on the vector
    in the order of the types: called by [EntitiesWith] on an empty
    vector it yields the requested names in order, and the vector is
    empty exactly when no type is requested. *)
Theorem GetComponentNames_appends (names types : list string) :
  GetComponentNames names types = names ++ types ∧
  GetComponentNames [] types = types ∧
  (length (GetComponentNames [] types) = 0%nat ↔ types = []).
Proof.
  assert (∀ ns, GetComponentNames ns types = ns ++ types) as Happ.
  { induction types as [|t ts IH]; intros ns; simpl.
    - rewrite app_nil_r. reflexivity.
    - rewrite IH, <- app_assoc. reflexivity. }
  rewrite !Happ. cbn [app]. split; [reflexivity|]. split; [reflexivity|].
  destruct types; simpl; split; (discriminate || reflexivity).
Qed.

(** ** The outcomes of [AddComponent] and [RemoveComponent] *)

Lemma registered_true {T} (componentName : string) (s : ECS T) :
  ComponentIsRegistered componentName s = true ↔ is_Some (components s !! componentName).
Proof. unfold ComponentIsRegistered. apply bool_decide_eq_true. Qed.

Lemma registered_false {T} (componentName : string) (s : ECS T) :
  ComponentIsRegistered componentName s = false ↔ components s !! componentName = None.
Proof.
  unfold ComponentIsRegistered. rewrite bool_decide_eq_false, eq_None_not_Some. reflexivity.
Qed.

Lemma live_matching {T} (entity : Entity) (s : ECS T) :
  live s (UUID entity) ↔ matching entity (entities s) ≠ [].
Proof.
  unfold live. rewrite Exists_exists. split.
  - intros (e & He & Hu). exact (matching_elem entity _ e He Hu).
  - intros Hne. destruct (matching entity (entities s)) as [|e l] eqn:Hm; [congruence|].
    assert (e ∈ matching entity (entities s)) as He by (rewrite Hm; left).
    apply list_elem_of_filter in He as [Hu He]. eauto.
Qed.

Lemma live_find {T} (uuid componentFlag : Z) (s : ECS T) :
  live s uuid ↔ is_Some (RemoveComponent_find uuid componentFlag (entities s)).
Proof.
  unfold live. rewrite Exists_exists. split.
  - intros (e & He & Hu).
    destruct (RemoveComponent_find uuid componentFlag (entities s)) eqn:Hfind; [eauto|].
    exfalso. exact (proj1 (RemoveComponent_find_None _ _ _) Hfind e He Hu).
  - intros [[es' e'] Hfind].
    apply RemoveComponent_find_Some in Hfind as (before & e & after & Hes & _ & Hu & _).
    exists e. split; [|exact Hu]. rewrite Hes. apply elem_of_app. right. left.
Qed.

(** X3. [AddComponent] never has undefined behaviour and has three
    outcomes: it throws [ComponentNotRegisteredException], leaving the
    store as it is, exactly when the type is not registered; it throws
    [runtime_error] exactly when the type is registered and no entity of
    the table has the identifier; it returns exactly when the type is
    registered and the identifier is live. *)
Theorem AddComponent_outcome {T} (entity : Entity) (componentName : string) (component : T)
    (s : ECS T) :
  AddComponent entity componentName component s ≠ Undefined ∧
  (ComponentIsRegistered componentName s = false ↔
   AddComponent entity componentName component s
     = Throws s (ComponentNotRegisteredException componentName)) ∧
  (ComponentIsRegistered componentName s = true ∧ ¬ live s (UUID entity) ↔
   ∃ s', AddComponent entity componentName component s
           = Throws s' (runtime_error "Failed to find entity to add component to")) ∧
  (ComponentIsRegistered componentName s = true ∧ live s (UUID entity) ↔
   ∃ s', AddComponent entity componentName component s = Returns s' tt).
Proof.
  rewrite registered_true, registered_false, live_matching.
  destruct (components s !! componentName) as [container|] eqn:Hreg.
  - rewrite (AddComponent_spec entity componentName component s container Hreg). cbv zeta.
    destruct (matching entity (entities s)) as [|m ms].
    + split; [discriminate|]. split; [split; discriminate|]. split.
      * split; [eauto|]. intros _. split; [eauto | intros H; apply H; reflexivity].
      * split; [intros [_ H]; congruence | intros [? [=]]].
    + split; [discriminate|]. split; [split; discriminate|]. split.
      * split; [intros [_ H]; exfalso; apply H; discriminate | intros [? [=]]].
      * split; eauto.
  - rewrite (AddComponent_unregistered entity componentName component s Hreg).
    split; [discriminate|]. split; [split; reflexivity|]. split.
    + split; [intros [[? [=]] _] | intros [? [=]]].
    + split; [intros [[? [=]] _] | intros [? [=]]].
Qed.

(** X4. [RemoveComponent] has four outcomes: it throws
    [ComponentNotRegisteredException], leaving the store as it is, exactly
    when the type is not registered; it throws [runtime_error] exactly
    when the type is registered and the identifier is not live; for a
    registered type and a live identifier it returns when the type has a
    membership vector, and its behaviour is undefined when the type has
    none (no component of the type was ever added and no query has asked
    for it): the iterator [individualComponentVecs.find] returns is
    dereferenced without a test. *)
Theorem RemoveComponent_outcome {T} (d : T) (entity : Entity) (componentName : string)
    (s : ECS T) :
  (ComponentIsRegistered componentName s = false ↔
   RemoveComponent d entity componentName s
     = Throws s (ComponentNotRegisteredException componentName)) ∧
  (ComponentIsRegistered componentName s = true ∧ ¬ live s (UUID entity) ↔
   ∃ s', RemoveComponent d entity componentName s
           = Throws s' (runtime_error "Failed to find entity to remove component from")) ∧
  (ComponentIsRegistered componentName s = true ∧ live s (UUID entity) ∧
   individualComponentVecs s !! componentName = None ↔
   RemoveComponent d entity componentName s = Undefined) ∧
  (ComponentIsRegistered componentName s = true ∧ live s (UUID entity) ∧
   is_Some (individualComponentVecs s !! componentName) ↔
   ∃ s', RemoveComponent d entity componentName s = Returns s' tt).
Proof.
  rewrite registered_true, registered_false.
  rewrite (live_find (UUID entity)
             (to_int (default 0 (componentIndex s !! componentName))) s).
  destruct (components s !! componentName) as [container|] eqn:Hreg.
  - rewrite (RemoveComponent_spec d entity componentName s container Hreg). cbv zeta.
    destruct (RemoveComponent_find _ _ _) as [[entities' e']|].
    + destruct (individualComponentVecs s !! componentName) as [vec|].
      * destruct (erase_first _ _);
          (split; [split; discriminate|]; split; [|split];
           [split; [intros [_ H]; exfalso; apply H; eauto | intros [? [=]]]
           |split; [intros (_ & _ & [=]) | discriminate]
           |split; eauto]).
      * split; [split; discriminate|]. split; [|split].
        -- split; [intros [_ H]; exfalso; apply H; eauto | intros [? [=]]].
        -- split; eauto.
        -- split; [intros (_ & _ & [? [=]]) | intros [? [=]]].
    + split; [split; discriminate|]. split; [|split].
      * split; [eauto|]. intros _. split; [eauto | intros [? [=]]].
      * split; [intros (_ & [? [=]] & _) | discriminate].
      * split; [intros (_ & [? [=]] & _) | intros [? [=]]].
  - rewrite (RemoveComponent_unregistered d entity componentName s Hreg).
    split; [split; reflexivity|]. split; [|split].
    + split; [intros [[? [=]] _] | intros [? [=]]].
    + split; [intros ([? [=]] & _) | discriminate].
    + split; [intros ([? [=]] & _) | intros [? [=]]].
Qed.

(** ** The outcomes and the results of [EntitiesWith] *)

(** The first loop of [EntitiesWith], whatever its outcome: it stops at
    the first name that is not registered, and all it does to the
    membership vectors is to create empty ones for registered types. *)
Lemma EntitiesWith_sizes_outcome {T} (componentNames : list string)
    (registered : gmap string (gmap Z T)) (vecs : gmap string (list Entity))
    (acc : list (string * Z)) :
  (∀ n, (EntitiesWith_sizes componentNames registered vecs acc).1 !! n = vecs !! n ∨
        (vecs !! n = None ∧
         (EntitiesWith_sizes componentNames registered vecs acc).1 !! n = Some [] ∧
         is_Some (registered !! n))) ∧
  match List.find (λ n, negb (bool_decide (is_Some (registered !! n)))) componentNames with
  | Some n =>
      (EntitiesWith_sizes componentNames registered vecs acc).2
        = inl (ComponentNotRegisteredException n)
  | None => ∃ sizes, (EntitiesWith_sizes componentNames registered vecs acc).2 = inr sizes
  end.
Proof.
  revert vecs acc. induction componentNames as [|name names IH]; intros vecs acc.
  - cbn. split; [auto | eauto].
  - cbn [EntitiesWith_sizes List.find].
    destruct (registered !! name) as [c|] eqn:Hreg.
    + rewrite bool_decide_eq_true_2 by eauto. cbn [negb].
      pose proof (subscript_lookup [] vecs name) as Hlook.
      pose proof (subscript_lookup_ne [] vecs name) as Hne.
      pose proof (subscript_fst [] vecs name) as Hfst.
      destruct (subscript [] vecs name) as [vec vecs1]. cbn [fst snd] in *.
      destruct (IH vecs1 (acc ++ [(name, to_int (Z.of_nat (length vec)))])) as [Hvecs Hfind].
      split; [|exact Hfind].
      intros n. destruct (Hvecs n) as [Hsame|(Hnone & Hnew & Hn)].
      * rewrite Hsame. destruct (decide (name = n)) as [<-|Hn].
        -- rewrite Hlook, Hfst. destruct (vecs !! name) eqn:Hv; [left; reflexivity|].
           right. split; [reflexivity|]. split; [reflexivity | rewrite Hreg; eauto].
        -- left. apply Hne, Hn.
      * destruct (decide (name = n)) as [<-|Hnn].
        -- rewrite Hlook in Hnone. discriminate Hnone.
        -- right. rewrite Hne in Hnone by exact Hnn. auto.
    + rewrite bool_decide_eq_false_2 by (intros [? [=]]). cbn. auto.
Qed.

(** X5. [EntitiesWith] never has undefined behaviour. When some requested
    name is not registered it throws [ComponentNotRegisteredException]
    for the first such name, and the failed call has changed nothing but,
    possibly, created empty membership vectors; otherwise it returns, and
    for an empty request the vector it returns has as many elements as the
    table has entities and the store is left as it is. *)
Theorem EntitiesWith_outcome {T} (componentNames : list string) (s : ECS T) :
  match first_unregistered componentNames s with
  | Some n =>
      ∃ s', EntitiesWith_size componentNames s
              = Throws s' (ComponentNotRegisteredException n) ∧
            entityIndex s' = entityIndex s ∧ bitIndex s' = bitIndex s ∧
            entities s' = entities s ∧ components s' = components s ∧
            componentIndex s' = componentIndex s ∧ eventManager s' = eventManager s ∧
            ∀ m, default [] (individualComponentVecs s' !! m)
                 = default [] (individualComponentVecs s !! m)
  | None =>
      ∃ s' size, EntitiesWith_size componentNames s = Returns s' size ∧
                 (componentNames = [] → s' = s ∧ size = length (entities s))
  end.
Proof.
  unfold first_unregistered, ComponentIsRegistered, EntitiesWith_size, EntitiesWith.
  destruct componentNames as [|n0 names]; [cbn; eauto|].
  destruct (EntitiesWith_sizes_outcome (n0 :: names) (components s)
              (individualComponentVecs s) []) as [Hvecs Hfind].
  destruct (List.find _ (n0 :: names)) as [n|].
  - destruct (EntitiesWith_sizes _ _ _ _) as [vecs' r]. cbn [fst snd] in *. subst r.
    eexists. split; [reflexivity|]. cbn. repeat split.
    intros m. destruct (Hvecs m) as [->|(-> & -> & _)]; reflexivity.
  - destruct Hfind as [sizes Hsizes].
    destruct (EntitiesWith_sizes _ _ _ _) as [vecs' r] eqn:Hrun. cbn [snd] in Hsizes. subst r.
    apply EntitiesWith_sizes_inr in Hrun as (_ & -> & _).
    destruct (EntitiesWith_field _ _ _) as [field index']. cbn [app fmap list_fmap].
    destruct (subscript [] vecs' _) as [vec vecs'']. eexists _, _.
    split; [reflexivity | discriminate].
Qed.

Lemma Has_lor (field a b : Z) :
  bitfield.Has field (Z.lor a b) = true →
  bitfield.Has field a = true ∧ bitfield.Has field b = true.
Proof.
  unfold bitfield.Has. rewrite !bool_decide_eq_true. intros H.
  split; apply Z.bits_inj'; intros n _;
    apply (f_equal (λ z, Z.testbit z n)) in H;
    rewrite Z.land_spec, Z.lor_spec in H; rewrite Z.land_spec;
    destruct (Z.testbit field n), (Z.testbit a n), (Z.testbit b n);
    (reflexivity || discriminate H).
Qed.

(** The mask built by the second loop has the mask it starts from and
    the flag of every name. *)
Lemma EntitiesWith_field_has (componentNames : list string) (index : gmap string Z)
    (field word : Z) :
  bitfield.Has word (EntitiesWith_field componentNames index field).1 = true →
  bitfield.Has word field = true ∧
  ∀ n, n ∈ componentNames → bitfield.Has word (default 0 (index !! n)) = true.
Proof.
  revert index field. induction componentNames as [|name names IH]; intros index field; simpl.
  - intros H. split; [exact H|]. intros n Hn. inversion Hn.
  - pose proof (subscript_fst 0 index name) as Hfst.
    pose proof (subscript_lookup 0 index name) as Hlook.
    pose proof (subscript_lookup_ne 0 index name) as Hne.
    destruct (subscript 0 index name) as [flag index']. cbn [fst snd] in *.
    intros H. apply IH in H as [Hboth Hrest].
    apply Has_lor in Hboth as [Hfield Hflag].
    split; [exact Hfield|]. intros n Hn.
    apply elem_of_cons in Hn as [->|Hn]; [rewrite <- Hfst; exact Hflag|].
    specialize (Hrest n Hn). destruct (decide (name = n)) as [<-|Hnn].
    + rewrite <- Hfst. exact Hflag.
    + rewrite Hne in Hrest by exact Hnn. exact Hrest.
Qed.

Lemma to_int_small (z : Z) : 0 ≤ z < 2 ^ 31 → to_int z = z.
Proof.
  intros Hz. unfold to_int. cbv zeta. rewrite Z.mod_small by lia.
  rewrite decide_True by lia. reflexivity.
Qed.

Lemma filter_length_bound {A} (f : A → bool) (l : list A) :
  (length (List.filter f l) ≤ length l)%nat.
Proof.
  induction l as [|x l IH]; [reflexivity|]. cbn. destruct (f x); cbn; lia.
Qed.

(** What [EntitiesWith_size] returns is the length of what
    [EntitiesWith] returns. *)
Lemma EntitiesWith_size_Returns {T} (componentNames : list string) (s s' : ECS T)
    (size : nat) :
  EntitiesWith_size componentNames s = Returns s' size ↔
  ∃ r, EntitiesWith componentNames s = Returns s' r ∧ size = length r.
Proof.
  unfold EntitiesWith_size. destruct (EntitiesWith componentNames s) as [s1 r| |].
  - split; [intros [= <- <-]; eauto | intros (r' & [= <- <-] & ->); reflexivity].
  - split; [discriminate | intros (r' & [=] & _)].
  - split; [discriminate | intros (r' & [=] & _)].
Qed.

(** X6. The vector a non-empty [EntitiesWith] returns has no more
    elements than the membership vector of any requested type has entries
    (the vectors being shorter than 2^31, so that their sizes fit the
    [int] they are compared in): the shortest of the requested vectors is
    the one that is filtered. *)
Theorem EntitiesWith_size_bound {T} (componentNames : list string) (s s' : ECS T)
    (size : nat) :
  EntitiesWith_size componentNames s = Returns s' size →
  Forall (λ n, Z.of_nat (length (default [] (individualComponentVecs s !! n))) < 2 ^ 31)
    componentNames →
  ∀ n, n ∈ componentNames →
       (size ≤ length (default [] (individualComponentVecs s !! n)))%nat.
Proof.
  intros Hret Hshort n Hn.
  apply EntitiesWith_size_Returns in Hret as (r & Hret & ->).
  assert (componentNames ≠ []) as Hne by (intros ->; inversion Hn).
  destruct (EntitiesWith_filters_vector componentNames s s' r Hne Hret)
    as (name & Hname & Hleast & -> & _).
  specialize (Hleast n Hn). cbv beta in Hleast.
  rewrite Forall_forall in Hshort.
  rewrite !to_int_small in Hleast by (split; [lia | auto]).
  pose proof (filter_length_bound
                (λ e, bitfield.Has (bitfield e) (query_field s componentNames))
                (default [] (individualComponentVecs s !! name))).
  lia.
Qed.

Lemma EntitiesWith_size_bound_witness :
  let s := History.after_setup in
  returned (EntitiesWith_size [Scenario.Velocity; Scenario.Position] s) = Some 1%nat ∧
  Forall (λ n, Z.of_nat (length (default [] (individualComponentVecs s !! n))) < 2 ^ 31)
    [Scenario.Velocity; Scenario.Position] ∧
  length (default [] (individualComponentVecs s !! Scenario.Position)) = 2%nat ∧
  (1 ≤ length (default [] (individualComponentVecs s !! Scenario.Position)))%nat.
Proof.
  cbv zeta.
  assert (Forall (λ n, Z.of_nat (length (default [] (individualComponentVecs
                                                       History.after_setup !! n))) < 2 ^ 31)
            [Scenario.Velocity; Scenario.Position]) as Hshort
    by (repeat constructor).
  split; [vm_compute; reflexivity|]. split; [exact Hshort|].
  split; [vm_compute; reflexivity|].
  destruct (EntitiesWith_size [Scenario.Velocity; Scenario.Position] History.after_setup)
    as [s' size| |] eqn:Hret; [|vm_compute in Hret; discriminate Hret..].
  assert (size = 1%nat) as Hsize
    by (apply (f_equal returned) in Hret; vm_compute in Hret; congruence).
  rewrite <- Hsize.
  apply (EntitiesWith_size_bound _ History.after_setup s' size Hret Hshort).
  right. left.
Defined.

(** ** What [AddComponent] leaves alone *)

(** X7. Whether it returns or throws, [AddComponent] changes no stored
    value but the one of its entity and type, changes the membership word
    of no entity with another identifier, keeps the order and the
    identifiers of the table, and registers nothing. *)
Theorem AddComponent_frame {T} (entity : Entity) (componentName : string) (component : T)
    (s s' : ECS T) :
  store_after (AddComponent entity componentName component s) = Some s' →
  (∀ name uuid, (name, uuid) ≠ (componentName, UUID entity) →
                stored s' name uuid = stored s name uuid) ∧
  (∀ i e, entities s !! i = Some e → UUID e ≠ UUID entity → entities s' !! i = Some e) ∧
  UUID <$> entities s' = UUID <$> entities s ∧
  (∀ name, ComponentIsRegistered name s' = ComponentIsRegistered name s) ∧
  bitIndex s' = bitIndex s ∧ entityIndex s' = entityIndex s.
Proof.
  intros Hafter.
  destruct (AddComponent_same_schema entity componentName component s s' Hafter)
    as (Hidx & Hbit & Huuid & Hdom & _).
  assert (∀ name, ComponentIsRegistered name s' = ComponentIsRegistered name s) as Hreg'.
  { intros name. unfold ComponentIsRegistered. apply bool_decide_ext, Hdom. }
  destruct (components s !! componentName) as [container|] eqn:Hreg.
  - rewrite (AddComponent_spec entity componentName component s container Hreg) in Hafter.
    cbv zeta in Hafter.
    assert (components s'
            = <[componentName := <[UUID entity := component]> container]> (components s) ∧
            entities s'
            = add_flag entity (to_int (default 0 (componentIndex s !! componentName)))
                <$> entities s) as [Hc He]
      by (destruct (matching entity (entities s)); injection Hafter as <-; auto).
    split; [|split; [|repeat split; assumption]].
    + intros name uuid Hne. unfold stored. rewrite Hc.
      destruct (decide (componentName = name)) as [<-|Hn].
      * rewrite lookup_insert_eq, Hreg. cbn. apply lookup_insert_ne. congruence.
      * rewrite lookup_insert_ne by exact Hn. reflexivity.
    + intros i e Hi Hu. rewrite He, list_lookup_fmap, Hi. cbn.
      unfold add_flag. rewrite decide_False by exact Hu. reflexivity.
  - rewrite (AddComponent_unregistered entity componentName component s Hreg) in Hafter.
    injection Hafter as <-. repeat split; auto.
Qed.

Lemma AddComponent_frame_witness :
  let s := History.after_setup in
  let s' := default s (store_after (AddComponent Scenario.e0 Scenario.Velocity 30 s)) in
  store_after (AddComponent Scenario.e0 Scenario.Velocity 30 s) = Some s' ∧
  stored s Scenario.Velocity 1 = Some 21 ∧
  stored s' Scenario.Velocity 1 = Some 21 ∧
  stored s' Scenario.Velocity 0 = Some 30.
Proof.
  cbv zeta.
  assert (store_after (AddComponent Scenario.e0 Scenario.Velocity 30 History.after_setup)
          = Some (default History.after_setup
                    (store_after (AddComponent Scenario.e0 Scenario.Velocity 30
                                    History.after_setup)))) as Hafter
    by (vm_compute; reflexivity).
  split; [exact Hafter|]. split; [vm_compute; reflexivity|].
  split; [|vm_compute; reflexivity].
  rewrite (proj1 (AddComponent_frame Scenario.e0 Scenario.Velocity 30 _ _ Hafter)
             Scenario.Velocity 1) by discriminate.
  vm_compute; reflexivity.
Defined.

(** ** Adding a component and removing it again *)

Lemma matching_NoDup (entity : Entity) (es : list Entity) (e : Entity) :
  NoDup (UUID <$> es) → e ∈ es → UUID e = UUID entity → matching entity es = [e].
Proof.
  unfold matching. induction es as [|x es IH]; intros Hnd He Hu; [inversion He|].
  rewrite fmap_cons in Hnd. apply NoDup_cons in Hnd as [Hx Hnd].
  rewrite filter_cons. apply elem_of_cons in He as [->|He].
  - rewrite decide_True by exact Hu. f_equal.
    apply (matching_nil entity). intros y Hy Hyu. apply Hx. rewrite Hu, <- Hyu.
    apply list_elem_of_fmap_2, Hy.
  - rewrite decide_False; [apply IH; assumption|].
    intros Hxu. apply Hx. rewrite Hxu, <- Hu. apply list_elem_of_fmap_2, He.
Qed.

Lemma erase_first_app (uuid : Z) (vec : list Entity) (e : Entity) (rest : list Entity) :
  Forall (λ x, UUID x ≠ uuid) vec → UUID e = uuid →
  erase_first uuid (vec ++ e :: rest) = Some (vec ++ rest).
Proof.
  intros Hvec Hu. induction Hvec as [|x vec Hx Hvec IH]; simpl.
  - rewrite decide_True by exact Hu. reflexivity.
  - rewrite decide_False by exact Hx. rewrite IH. reflexivity.
Qed.

(** X8. For a registered type, a live entity in a table without repeated
    identifiers, and a membership vector of the type that holds no entry
    for the entity: [AddComponent] followed by [RemoveComponent] both
    return, the membership vector is the one before the two calls (the
    empty one when there was none), the two events [ComponentAdded] and
    [ComponentRemoved] with the value added have been broadcast in that
    order, the value is still stored, and the entity does not have the
    component when the flag of the type is not the empty word. *)
Theorem Add_then_Remove {T} (d : T) (entity : Entity) (componentName : string)
    (component : T) (s : ECS T) :
  ComponentIsRegistered componentName s = true →
  NoDup (UUID <$> entities s) →
  live s (UUID entity) →
  Forall (λ x, UUID x ≠ UUID entity)
    (default [] (individualComponentVecs s !! componentName)) →
  ∃ s1 s2,
    AddComponent entity componentName component s = Returns s1 tt ∧
    RemoveComponent d entity componentName s1 = Returns s2 tt ∧
    individualComponentVecs s2 !! componentName
      = Some (default [] (individualComponentVecs s !! componentName)) ∧
    eventManager s2
      = eventManager s ++ [ComponentAdded entity componentName component;
                           ComponentRemoved entity componentName component] ∧
    stored s2 componentName (UUID entity) = Some component ∧
    UUID <$> entities s2 = UUID <$> entities s ∧
    (flag_of s componentName ≠ 0 →
     returned (HasComponent d entity componentName s2) = Some false).
Proof.
  intros Hreg Hnd Hlive Hvec.
  apply registered_true in Hreg as [container Hc].
  pose proof Hlive as Hlive'. unfold live in Hlive'.
  apply Exists_exists in Hlive' as (e & He & Hu).
  pose proof (matching_NoDup entity (entities s) e Hnd He Hu) as Hm.
  rewrite (AddComponent_spec entity componentName component s container Hc). cbv zeta.
  rewrite Hm. cbn [fmap list_fmap].
  set (componentFlag := to_int (default 0 (componentIndex s !! componentName))).
  set (vec := default [] (individualComponentVecs s !! componentName)) in *.
  set (s1 := mkECS _ _ _ _ _ _ _).
  assert (components s1 !! componentName = Some (<[UUID entity := component]> container))
    as Hc1 by apply lookup_insert_eq.
  assert (UUID <$> entities s1 = UUID <$> entities s) as Huuid1
    by apply fmap_UUID_add_flag.
  assert (individualComponentVecs s1 !! componentName
          = Some (vec ++ [add_flag entity componentFlag e])) as Hvec1
    by apply lookup_insert_eq.
  assert (flag_of s1 componentName = flag_of s componentName) as Hflag1
    by (unfold flag_of, s1; cbn [componentIndex]; rewrite subscript_default; reflexivity).
  exists s1. pose proof (RemoveComponent_spec d entity componentName s1 _ Hc1) as Hrem.
  cbv zeta in Hrem.
  assert (live s1 (UUID entity)) as Hlive1.
  { unfold live. apply Exists_exists. exists (add_flag entity componentFlag e).
    split; [apply list_elem_of_fmap_2, He | rewrite UUID_add_flag; exact Hu]. }
  apply (live_find (UUID entity)
           (to_int (default 0 (componentIndex s1 !! componentName)))) in Hlive1
    as [[entities' e'] Hfind].
  rewrite Hfind, Hvec1 in Hrem.
  pose proof Hfind as Hshape.
  apply RemoveComponent_find_Some in Hshape
    as (before & e1 & after & Hes1 & Hes' & Hu1 & _ & He').
  assert (UUID e' = UUID entity) as Hue' by (rewrite He'; exact Hu1).
  rewrite Hue' in Hrem.
  rewrite (erase_first_app (UUID entity) vec (add_flag entity componentFlag e) [])
    in Hrem by (try exact Hvec; rewrite UUID_add_flag; exact Hu).
  rewrite app_nil_r, lookup_insert_eq in Hrem. cbn [default from_option id] in Hrem.
  eexists. split; [reflexivity|]. split; [exact Hrem|].
  cbn [individualComponentVecs eventManager entities].
  split; [apply lookup_insert_eq|]. split; [|split; [|split]].
  - unfold s1. cbn [eventManager]. rewrite <- app_assoc. reflexivity.
  - unfold stored. cbn [components]. rewrite lookup_insert_eq. cbn.
    apply subscript_mono, lookup_insert_eq.
  - rewrite <- Huuid1, Hes', Hes1, He', !fmap_app, !fmap_cons. reflexivity.
  - intros Hflag.
    apply (RemoveComponent_clears d entity componentName s1);
      [rewrite Huuid1; exact Hnd | rewrite Hflag1; exact Hflag | exact Hrem].
Qed.

Lemma Add_then_Remove_witness :
  let s := History.after_setup in
  ∃ s1 s2,
    AddComponent Scenario.e0 Scenario.Velocity 30 s = Returns s1 tt ∧
    RemoveComponent 0 Scenario.e0 Scenario.Velocity s1 = Returns s2 tt ∧
    individualComponentVecs s2 !! Scenario.Velocity
      = Some (default [] (individualComponentVecs s !! Scenario.Velocity)) ∧
    eventManager s2
      = eventManager s ++ [ComponentAdded Scenario.e0 Scenario.Velocity 30;
                           ComponentRemoved Scenario.e0 Scenario.Velocity 30] ∧
    stored s2 Scenario.Velocity (UUID Scenario.e0) = Some 30 ∧
    UUID <$> entities s2 = UUID <$> entities s ∧
    (flag_of s Scenario.Velocity ≠ 0 →
     returned (HasComponent 0 Scenario.e0 Scenario.Velocity s2) = Some false).
Proof.
  apply (Add_then_Remove 0 Scenario.e0 Scenario.Velocity 30 History.after_setup).
  - vm_compute; reflexivity.
  - apply (bool_decide_unpack _); vm_compute; exact I.
  - apply (bool_decide_unpack _); vm_compute; exact I.
  - apply (bool_decide_unpack _); vm_compute; exact I.
Defined.

(** ** What each call leaves alone *)

Lemma CreateEntity_frame {T} (s s' : ECS T) :
  store_after (CreateEntity s) = Some s' →
  s' = mkECS (entityIndex s + 1) (bitIndex s) (entities s ++ [Entity_new (entityIndex s)])
         (components s) (componentIndex s) (individualComponentVecs s)
         (eventManager s ++ [EntityCreated (Entity_new (entityIndex s))]).
Proof.
  unfold CreateEntity. destruct (decide _); [discriminate|]. intros [= <-]. reflexivity.
Qed.

Lemma RegisterComponent_frame {T} (componentName : string) (s s' : ECS T) :
  store_after (RegisterComponent componentName s) = Some s' →
  (is_Some (components s !! componentName) ∧ s' = s) ∨
  (components s !! componentName = None ∧
   s' = mkECS (entityIndex s) (bitfield.wrap (bitIndex s * 2)) (entities s)
          (<[componentName := ∅]> (components s))
          (<[componentName := bitIndex s]> (componentIndex s))
          (individualComponentVecs s) (eventManager s)).
Proof.
  unfold RegisterComponent.
  destruct (components s !! componentName) as [c|] eqn:Hreg.
  - intros [= <-]. left. eauto.
  - intros Hafter. right. split; [reflexivity|].
    destruct (decide _); injection Hafter as <-; reflexivity.
Qed.

Lemma GetComponent_frame {T} (d : T) (entity : Entity) (componentName : string)
    (s s' : ECS T) :
  store_after (GetComponent d entity componentName s) = Some s' →
  entities s' = entities s ∧
  individualComponentVecs s' = individualComponentVecs s ∧
  eventManager s' = eventManager s ∧
  (components s' = components s ∨
   ∃ container, components s !! componentName = Some container ∧
                components s'
                = <[componentName := (subscript d container (UUID entity)).2]>
                    (components s)).
Proof.
  destruct (components s !! componentName) as [container|] eqn:Hreg.
  - rewrite (GetComponent_spec d entity componentName s container Hreg). cbv zeta.
    destruct (GetComponent_found _ _ _); intros [= <-]; cbn; eauto 10.
  - rewrite (GetComponent_unregistered d entity componentName s Hreg).
    intros [= <-]. auto.
Qed.

Lemma EntitiesWith_frame {T} (componentNames : list string) (s s' : ECS T) :
  store_after (EntitiesWith componentNames s) = Some s' →
  entities s' = entities s ∧ components s' = components s ∧
  eventManager s' = eventManager s ∧
  ∀ n, individualComponentVecs s' !! n = individualComponentVecs s !! n ∨
       (individualComponentVecs s !! n = None ∧
        individualComponentVecs s' !! n = Some [] ∧
        is_Some (components s !! n)).
Proof.
  unfold EntitiesWith. destruct componentNames as [|n0 names]; [intros [= <-]; auto|].
  destruct (EntitiesWith_sizes_outcome (n0 :: names) (components s)
              (individualComponentVecs s) []) as [Hvecs _].
  destruct (EntitiesWith_sizes (n0 :: names) (components s) (individualComponentVecs s) [])
    as [vecs1 [ex|sizes]] eqn:Hsizes; cbn [fst] in Hvecs.
  - intros [= <-]. cbn. auto.
  - apply EntitiesWith_sizes_inr in Hsizes as (Hall & -> & _).
    destruct (EntitiesWith_field (n0 :: names) (componentIndex s) 0) as [field index1].
    cbn [app]. rewrite fmap_cons.
    set (first := (n0, _)). set (rest := _ <$> names).
    pose proof (min_element_elem first rest) as Hin.
    assert (is_Some (components s !! (min_element first rest).1)) as Hreg.
    { rewrite Forall_forall in Hall.
      apply elem_of_cons in Hin as [->|Hin]; [apply Hall; left|].
      apply list_elem_of_fmap in Hin as (n & -> & Hn). apply Hall. right. exact Hn. }
    pose proof (subscript_lookup [] vecs1 (min_element first rest).1) as Hlook.
    pose proof (subscript_lookup_ne [] vecs1 (min_element first rest).1) as Hne.
    pose proof (subscript_fst [] vecs1 (min_element first rest).1) as Hfst.
    destruct (subscript [] vecs1 _) as [vec vecs2]. cbn [fst snd] in *.
    intros [= <-]. cbn [entities components eventManager individualComponentVecs].
    split; [reflexivity|]. split; [reflexivity|]. split; [reflexivity|].
    intros n. destruct (decide ((min_element first rest).1 = n)) as [<-|Hn].
    + rewrite Hlook, Hfst.
      destruct (Hvecs (min_element first rest).1) as [Hsame|(Hnone & Hnew & _)].
      * rewrite Hsame.
        destruct (individualComponentVecs s !! (min_element first rest).1) eqn:Hv;
          [left; reflexivity | right; auto].
      * rewrite Hnew. right. auto.
    + rewrite Hne by exact Hn. apply Hvecs.
Qed.

(** ** Flags and stored values over a run of calls *)

Lemma exec_flag_stable {T} (d : T) (c : op T) (s s' : ECS T) (n : string) (f : Z) :
  well_formed s → exec d c s = Some s' →
  componentIndex s !! n = Some f → componentIndex s' !! n = Some f.
Proof.
  intros Hwf Hexec Hf.
  pose proof Hwf as (_ & _ & _ & _ & _ & Hboth).
  assert (∀ s1 : ECS T, same_schema s s1 → componentIndex s1 !! n = Some f) as Hsame.
  { intros s1 (_ & _ & _ & _ & Hidx). rewrite Hidx; [exact Hf|]. intros m. apply Hboth. }
  destruct c; cbn [exec] in Hexec.
  - apply CreateEntity_frame in Hexec as ->. exact Hf.
  - apply RegisterComponent_frame in Hexec as [[_ ->]|[Hnone ->]]; [exact Hf|].
    cbn [componentIndex]. rewrite lookup_insert_ne; [exact Hf|].
    intros <-. apply eq_None_not_Some in Hnone. apply Hnone, Hboth. eauto.
  - exact (Hsame s' (AddComponent_same_schema _ _ _ s s' Hexec)).
  - exact (Hsame s' (RemoveComponent_same_schema d _ _ s s' Hexec)).
  - exact (Hsame s' (GetComponent_same_schema d _ _ s s' Hexec)).
  - rewrite HasComponent_store in Hexec.
    exact (Hsame s' (GetComponent_same_schema d _ _ s s' Hexec)).
  - exact (Hsame s' (EntitiesWith_same_schema _ s s' Hexec)).
Qed.

Lemma run_app {T} (d : T) (cs1 cs2 : list (op T)) (s0 s1 s2 : ECS T) :
  run d cs1 s0 = Some s1 → run d cs2 s1 = Some s2 → run d (cs1 ++ cs2) s0 = Some s2.
Proof.
  revert s0. induction cs1 as [|c cs1 IH]; intros s0; cbn [run app].
  - intros [= ->]. auto.
  - destruct (exec d c s0); [cbn; apply IH | discriminate].
Qed.

Lemma reachable_run {T} (d : T) (cs : list (op T)) (s s' : ECS T) :
  reachable d s → run d cs s = Some s' → reachable d s'.
Proof.
  intros [cs0 Hrun0] Hrun. exists (cs0 ++ cs). exact (run_app d cs0 cs _ s s' Hrun0 Hrun).
Qed.

(** X9. Over any run of calls that starts in a reachable store, a type
    keeps the flag it was registered with, and stays registered. *)
Theorem flag_never_changes {T} (d : T) (cs : list (op T)) (s s' : ECS T)
    (componentName : string) (flag : Z) :
  reachable d s → run d cs s = Some s' →
  componentIndex s !! componentName = Some flag →
  componentIndex s' !! componentName = Some flag ∧
  ComponentIsRegistered componentName s' = true ∧
  flag_of s' componentName = flag.
Proof.
  intros Hreach Hrun Hflag.
  pose proof (reachable_run d cs s s' Hreach Hrun) as Hreach'.
  assert (componentIndex s' !! componentName = Some flag) as Hflag'.
  { apply reachable_well_formed in Hreach. clear Hreach'.
    revert s Hreach Hrun Hflag. induction cs as [|c cs IH]; intros s Hwf; cbn [run].
    - intros [= <-]. auto.
    - destruct (exec d c s) as [s1|] eqn:Hexec; [|discriminate]. cbn.
      intros Hrun Hflag. apply (IH s1 (exec_well_formed d c s s1 Hexec Hwf) Hrun).
      exact (exec_flag_stable d c s s1 _ _ Hwf Hexec Hflag). }
  split; [exact Hflag'|]. split.
  - apply registered_true.
    destruct (reachable_well_formed d s' Hreach') as (_ & _ & _ & _ & _ & Hboth).
    apply Hboth. eauto.
  - exact (reachable_flag_of d s' componentName flag Hreach' Hflag').
Qed.

Lemma flag_never_changes_witness :
  let s := History.after_setup in
  let cs := [OpRemoveComponent Scenario.e1 Scenario.Position;
             OpRegisterComponent Scenario.Position; OpCreateEntity] in
  let s' := default s (run 0 cs s) in
  reachable 0 s ∧ run 0 cs s = Some s' ∧
  componentIndex s !! Scenario.Position = Some 1 ∧
  componentIndex s' !! Scenario.Position = Some 1 ∧
  ComponentIsRegistered Scenario.Position s' = true ∧
  flag_of s' Scenario.Position = 1.
Proof.
  cbv zeta.
  set (cs := [OpRemoveComponent Scenario.e1 Scenario.Position;
              OpRegisterComponent Scenario.Position; OpCreateEntity]).
  assert (reachable 0 History.after_setup) as Hreach
    by (exists History.setup_calls; vm_compute; reflexivity).
  assert (run 0 cs History.after_setup
          = Some (default History.after_setup (run 0 cs History.after_setup))) as Hrun
    by (vm_compute; reflexivity).
  assert (componentIndex History.after_setup !! Scenario.Position = Some 1) as Hflag
    by (vm_compute; reflexivity).
  split; [exact Hreach|]. split; [exact Hrun|]. split; [exact Hflag|].
  exact (flag_never_changes 0 cs _ _ Scenario.Position 1 Hreach Hrun Hflag).
Defined.

Lemma exec_stored_kept {T} (d : T) (c : op T) (s s' : ECS T) (n : string) (u : Z) (v : T) :
  exec d c s = Some s' → stored s n u = Some v →
  is_Some (stored s' n u) ∧ (¬ writes_value n u c → stored s' n u = Some v).
Proof.
  intros Hexec Hv.
  assert (is_Some (components s !! n)) as Hreg.
  { unfold stored in Hv. destruct (components s !! n); [eauto | discriminate Hv]. }
  assert (∀ s1 : ECS T, components s1 = components s →
            is_Some (stored s1 n u) ∧ (¬ writes_value n u c → stored s1 n u = Some v))
    as Hsame by (intros s1 Hc; unfold stored; rewrite Hc; fold (stored s n u); eauto).
  assert (∀ (s1 : ECS T) m w container,
            components s !! m = Some container →
            components s1 = <[m := (subscript d container w).2]> (components s) →
            is_Some (stored s1 n u) ∧ (¬ writes_value n u c → stored s1 n u = Some v))
    as Hread.
  { intros s1 m w container Hc Hc1.
    assert (stored s1 n u = Some v) as ->; [|eauto].
    unfold stored in *. rewrite Hc1. destruct (decide (m = n)) as [->|Hm].
    - rewrite lookup_insert_eq. rewrite Hc in Hv. cbn in *. apply subscript_mono, Hv.
    - rewrite lookup_insert_ne by exact Hm. exact Hv. }
  destruct c; cbn [exec] in Hexec.
  - apply CreateEntity_frame in Hexec as ->. apply Hsame. reflexivity.
  - apply RegisterComponent_frame in Hexec as [[_ ->]|[Hnone ->]]; [eauto|].
    assert (componentName ≠ n) as Hne
      by (intros ->; rewrite Hnone in Hreg; destruct Hreg; discriminate).
    assert (stored
              (mkECS (entityIndex s) (bitfield.wrap (bitIndex s * 2)) (entities s)
                 (<[componentName := ∅]> (components s))
                 (<[componentName := bitIndex s]> (componentIndex s))
                 (individualComponentVecs s) (eventManager s)) n u = Some v) as ->; [|eauto].
    unfold stored in *. cbn [components]. rewrite lookup_insert_ne by exact Hne. exact Hv.
  - destruct (components s !! componentName) as [container|] eqn:Hc.
    + rewrite (AddComponent_spec entity componentName component s container Hc) in Hexec.
      cbv zeta in Hexec.
      assert (components s'
              = <[componentName := <[UUID entity := component]> container]> (components s))
        as Hc' by (destruct (matching entity (entities s)); injection Hexec as <-; reflexivity).
      unfold stored in *. rewrite Hc'. cbn [writes_value].
      destruct (decide (componentName = n)) as [->|Hn].
      * rewrite lookup_insert_eq. rewrite Hc in Hv. cbn in *.
        destruct (decide (UUID entity = u)) as [->|Hu].
        -- rewrite lookup_insert_eq. split; [eauto|]. intros Hnot. exfalso. auto.
        -- rewrite lookup_insert_ne by exact Hu. rewrite Hv. eauto.
      * rewrite lookup_insert_ne by exact Hn. rewrite Hv. eauto.
    + rewrite (AddComponent_unregistered entity componentName component s Hc) in Hexec.
      injection Hexec as <-. eauto.
  - destruct (RemoveComponent_effects d entity componentName s s' Hexec)
      as [[Hc _]|(container & Hc & Hc' & _)]; [apply Hsame, Hc | eapply Hread; eauto].
  - destruct (GetComponent_frame d entity componentName s s' Hexec)
      as (_ & _ & _ & [Hc|(container & Hc & Hc')]); [apply Hsame, Hc | eapply Hread; eauto].
  - rewrite HasComponent_store in Hexec.
    destruct (GetComponent_frame d entity componentName s s' Hexec)
      as (_ & _ & _ & [Hc|(container & Hc & Hc')]); [apply Hsame, Hc | eapply Hread; eauto].
  - apply EntitiesWith_frame in Hexec as (_ & Hc & _). apply Hsame, Hc.
Qed.

(** X10. No call ever erases a stored value: a value stored for an entity
    and a type is still stored after any run of calls, and it is the same
    value when the run has no [AddComponent] for that entity and type. *)
Theorem stored_value_kept {T} (d : T) (cs : list (op T)) (s s' : ECS T)
    (componentName : string) (uuid : Z) (component : T) :
  run d cs s = Some s' →
  stored s componentName uuid = Some component →
  is_Some (stored s' componentName uuid) ∧
  (Forall (λ c, ¬ writes_value componentName uuid c) cs →
   stored s' componentName uuid = Some component).
Proof.
  revert s component. induction cs as [|c cs IH]; intros s component; cbn [run].
  - intros [= <-] Hv. eauto.
  - destruct (exec d c s) as [s1|] eqn:Hexec; [|discriminate]. cbn.
    intros Hrun Hv.
    destruct (exec_stored_kept d c s s1 componentName uuid component Hexec Hv)
      as [[v1 Hv1] Hsame].
    split; [exact (proj1 (IH s1 v1 Hrun Hv1))|].
    intros Hall. apply Forall_cons in Hall as [Hc Hall].
    exact (proj2 (IH s1 component Hrun (Hsame Hc)) Hall).
Qed.

Lemma stored_value_kept_witness :
  let s := History.after_setup in
  let cs := [OpRemoveComponent Scenario.e1 Scenario.Position;
             OpAddComponent Scenario.e0 Scenario.Position 12;
             OpEntitiesWith [Scenario.Position]] in
  let s' := default s (run 0 cs s) in
  run 0 cs s = Some s' ∧
  stored s Scenario.Position 1 = Some 11 ∧
  Forall (λ c, ¬ writes_value Scenario.Position 1 c) cs ∧
  stored s' Scenario.Position 1 = Some 11.
Proof.
  cbv zeta.
  set (cs := [OpRemoveComponent Scenario.e1 Scenario.Position;
              OpAddComponent Scenario.e0 Scenario.Position 12;
              OpEntitiesWith [Scenario.Position]]).
  assert (run 0 cs History.after_setup
          = Some (default History.after_setup (run 0 cs History.after_setup))) as Hrun
    by (vm_compute; reflexivity).
  assert (stored History.after_setup Scenario.Position 1 = Some 11) as Hv
    by (vm_compute; reflexivity).
  assert (Forall (λ c, ¬ writes_value Scenario.Position 1 c) cs) as Hall.
  { repeat constructor; cbn; try tauto. intros [_ Hu]. discriminate Hu. }
  split; [exact Hrun|]. split; [exact Hv|]. split; [exact Hall|].
  exact (proj2 (stored_value_kept 0 cs _ _ Scenario.Position 1 11 Hrun Hv) Hall).
Defined.

(** ** Membership words *)

Lemma word_iff (k x : Z) : 0 ≤ k → 0 ≤ x < 2 ^ k ↔ Z.land x (Z.ones k) = x.
Proof.
  intros Hk. rewrite Z.land_ones by exact Hk.
  assert (0 < 2 ^ k) by (apply Z.pow_pos_nonneg; lia).
  rewrite Z.mod_small_iff by lia. lia.
Qed.

Lemma lor_word (k a b : Z) :
  0 ≤ k → 0 ≤ a < 2 ^ k → 0 ≤ b < 2 ^ k → 0 ≤ Z.lor a b < 2 ^ k.
Proof.
  intros Hk Ha Hb. apply word_iff in Ha, Hb; try exact Hk. apply word_iff; [exact Hk|].
  rewrite Z.land_lor_distr_l, Ha, Hb. reflexivity.
Qed.

Lemma land_word (k a b : Z) : 0 ≤ k → 0 ≤ a < 2 ^ k → 0 ≤ Z.land a b < 2 ^ k.
Proof.
  intros Hk Ha. apply word_iff in Ha; [|exact Hk]. apply word_iff; [exact Hk|].
  rewrite <- Z.land_assoc, (Z.land_comm b), Z.land_assoc, Ha. reflexivity.
Qed.

Lemma Has_zero (x : Z) : bitfield.Has x 0 = true.
Proof. unfold bitfield.Has. apply bool_decide_eq_true. apply Z.land_0_r. Qed.

Lemma Has_pow2 (x i : Z) : 0 ≤ i → bitfield.Has x (2 ^ i) = Z.testbit x i.
Proof.
  intros Hi. unfold bitfield.Has. destruct (Z.testbit x i) eqn:Hbit.
  - apply bool_decide_eq_true. apply Z.bits_inj'. intros n Hn.
    rewrite Z.land_spec, Z.pow2_bits_eqb by exact Hi.
    destruct (Z.eqb_spec i n) as [<-|Hne]; [rewrite Hbit; reflexivity | apply andb_false_r].
  - apply bool_decide_eq_false. intros Heq.
    apply (f_equal (λ z, Z.testbit z i)) in Heq.
    rewrite Z.land_spec, Z.pow2_bits_true, Hbit in Heq by exact Hi. discriminate Heq.
Qed.

Lemma Has_Set_other (x flag i : Z) :
  0 ≤ i → Z.testbit flag i = false →
  bitfield.Has (bitfield.Set_ x flag) (2 ^ i) = bitfield.Has x (2 ^ i).
Proof.
  intros Hi Hbit. rewrite !Has_pow2 by exact Hi. unfold bitfield.Set_.
  rewrite Z.lor_spec, Hbit. apply orb_false_r.
Qed.

Lemma Has_Clear_other (x flag i : Z) :
  0 ≤ i < 32 → Z.testbit flag i = false →
  bitfield.Has (bitfield.Clear x flag) (2 ^ i) = bitfield.Has x (2 ^ i).
Proof.
  intros Hi Hbit. rewrite !Has_pow2 by lia. unfold bitfield.Clear, bitfield.wrap, bitfield.width.
  rewrite Z.land_spec, Z.mod_pow2_bits_low, Z.lnot_spec, Hbit by lia. apply andb_true_r.
Qed.

Lemma Has_Clear_mono (x flag f : Z) :
  bitfield.Has (bitfield.Clear x flag) f = true → bitfield.Has x f = true.
Proof.
  unfold bitfield.Has, bitfield.Clear. rewrite !bool_decide_eq_true. intros H.
  apply Z.bits_inj'. intros n _. apply (f_equal (λ z, Z.testbit z n)) in H.
  rewrite !Z.land_spec in H. rewrite Z.land_spec.
  destruct (Z.testbit x n), (Z.testbit f n); try reflexivity.
  cbn in H. discriminate H.
Qed.

(** ** The flags of a well-formed store *)

Lemma flag_of_Some {T} (s : ECS T) (n : string) (f : Z) :
  well_formed s → componentIndex s !! n = Some f → flag_of s n = f.
Proof.
  intros (_ & _ & _ & _ & Hf & _) Hflag. unfold flag_of. rewrite Hflag.
  cbn [default from_option id]. rewrite wrap_to_int. apply wrap_small, (Hf _ _ Hflag).
Qed.

Lemma flag_of_None {T} (s : ECS T) (n : string) :
  componentIndex s !! n = None → flag_of s n = 0.
Proof. intros Hflag. unfold flag_of. rewrite Hflag. reflexivity. Qed.

(** The flag of a type is the empty word or a single bit below [k]. *)
Lemma flag_of_shape {T} (s : ECS T) (k : Z) (n : string) :
  well_formed s → allocated s k →
  flag_of s n = 0 ∨ ∃ i, 0 ≤ i < k ∧ flag_of s n = 2 ^ i.
Proof.
  intros Hwf (_ & _ & Hflags & _). destruct (componentIndex s !! n) as [f|] eqn:Hf.
  - rewrite (flag_of_Some s n f Hwf Hf).
    destruct (Hflags n f Hf) as [[-> _]|(i & Hi & ->)]; eauto.
  - left. apply flag_of_None, Hf.
Qed.

Lemma flag_of_word {T} (s : ECS T) (k : Z) (n : string) :
  well_formed s → allocated s k → 0 ≤ flag_of s n < 2 ^ k.
Proof.
  intros Hwf Halloc. pose proof Halloc as (Hk & _).
  assert (0 < 2 ^ k) by (apply Z.pow_pos_nonneg; lia).
  destruct (flag_of_shape s k n Hwf Halloc) as [->|(i & Hi & ->)]; [lia|].
  split; [apply Z.pow_nonneg; lia | apply Z.pow_lt_mono_r; lia].
Qed.

(** The single bit of the flag of one type is not in the flag of another. *)
Lemma flag_of_other_bit {T} (s : ECS T) (k : Z) (n m : string) (i : Z) :
  well_formed s → allocated s k → n ≠ m → 0 ≤ i → flag_of s n = 2 ^ i →
  Z.testbit (flag_of s m) i = false.
Proof.
  intros Hwf Halloc Hne Hi Hn. pose proof Halloc as (_ & _ & Hflags & Hinj & _).
  assert (0 < 2 ^ i) as Hpos by (apply Z.pow_pos_nonneg; lia).
  destruct (componentIndex s !! m) as [fm|] eqn:Hfm.
  - rewrite (flag_of_Some s m fm Hwf Hfm).
    destruct (Hflags m fm Hfm) as [[-> _]|(j & Hj & ->)]; [apply Z.bits_0|].
    apply Z.pow2_bits_false. intros ->. apply Hne.
    destruct (componentIndex s !! n) as [fn|] eqn:Hfn.
    + rewrite (flag_of_Some s n fn Hwf Hfn) in Hn. subst fn.
      apply (Hinj n m (2 ^ i) Hfn Hfm). lia.
    + rewrite (flag_of_None s n Hfn) in Hn. lia.
  - rewrite (flag_of_None s m Hfm). apply Z.bits_0.
Qed.

(** A call other than [CreateEntity] and [RegisterComponent] leaves the
    flags of a well-formed store as they are. *)
Lemma same_schema_flag_of {T} (s s' : ECS T) (n : string) :
  well_formed s → same_schema s s' → flag_of s' n = flag_of s n.
Proof.
  intros (_ & _ & _ & _ & _ & Hboth) (_ & _ & _ & _ & Hidx).
  unfold flag_of. rewrite Hidx; [reflexivity|]. intros m. apply Hboth.
Qed.

(** ** The invariants, call by call *)

Lemma exec_sequential_ids {T} (d : T) (c : op T) (s s' : ECS T) :
  exec d c s = Some s' → sequential_ids s → sequential_ids s'.
Proof.
  intros Hexec [Hids Hidx].
  assert (∀ s1 : ECS T, same_schema s s1 → sequential_ids s1) as Hsame.
  { intros s1 (Hi & _ & Hu & _). unfold sequential_ids.
    assert (length (entities s1) = length (entities s)) as Hlen
      by (rewrite <- (length_fmap UUID), Hu, length_fmap; reflexivity).
    rewrite Hu, Hi, Hlen. auto. }
  destruct c; cbn [exec] in Hexec.
  - apply CreateEntity_frame in Hexec as ->. unfold sequential_ids.
    cbn [entities entityIndex]. rewrite length_app, fmap_app, Hids, Hidx. cbn [length].
    rewrite Nat.add_1_r, seq_S, fmap_app. split; [reflexivity | lia].
  - apply RegisterComponent_frame in Hexec as [[_ ->]|[_ ->]]; split; assumption.
  - exact (Hsame s' (AddComponent_same_schema _ _ _ s s' Hexec)).
  - exact (Hsame s' (RemoveComponent_same_schema d _ _ s s' Hexec)).
  - exact (Hsame s' (GetComponent_same_schema d _ _ s s' Hexec)).
  - rewrite HasComponent_store in Hexec.
    exact (Hsame s' (GetComponent_same_schema d _ _ s s' Hexec)).
  - exact (Hsame s' (EntitiesWith_same_schema _ s s' Hexec)).
Qed.

Lemma allocated_same_table {T} (s s' : ECS T) (k : Z) :
  well_formed s → same_schema s s' →
  Forall (λ e, 0 ≤ bitfield e < 2 ^ k) (entities s') → allocated s k → allocated s' k.
Proof.
  intros (_ & _ & _ & _ & _ & Hboth) (_ & Hbit & _ & _ & Hidx) Hwords
         (Hk & Hb & Hflags & Hinj & _).
  unfold allocated. rewrite Hbit, Hidx by (intros m; apply Hboth). auto.
Qed.

Lemma exec_allocated {T} (d : T) (c : op T) (s s' : ECS T) (k : Z) :
  exec d c s = Some s' → well_formed s → allocated s k → ∃ k', allocated s' k'.
Proof.
  intros Hexec Hwf Halloc. pose proof Halloc as (Hk & Hb & Hflags & Hinj & Hwords).
  destruct c; cbn [exec] in Hexec.
  - apply CreateEntity_frame in Hexec as ->. exists k. unfold allocated.
    cbn [bitIndex componentIndex entities]. repeat split; try tauto.
    apply Forall_app. split; [exact Hwords|]. apply Forall_singleton. cbn.
    assert (0 < 2 ^ k) by (apply Z.pow_pos_nonneg; lia). lia.
  - apply RegisterComponent_frame in Hexec as [[_ ->]|[Hnone ->]]; [eauto|].
    pose proof Hwf as (_ & _ & _ & _ & _ & Hboth).
    assert (componentIndex s !! componentName = None) as Hnoflag.
    { apply eq_None_not_Some. intros Hsome. apply Hboth in Hsome.
      rewrite Hnone in Hsome. destruct Hsome; discriminate. }
    destruct (decide (k = 32)) as [->|Hk32].
    + exists 32. unfold allocated. cbn [bitIndex componentIndex entities].
      rewrite Hb. split; [lia|]. split; [reflexivity|]. split; [|split; [|exact Hwords]].
      * intros n f. destruct (decide (componentName = n)) as [<-|Hn].
        -- rewrite lookup_insert_eq. intros [= <-]. left. split; reflexivity.
        -- rewrite lookup_insert_ne by exact Hn. apply Hflags.
      * intros n1 n2 f H1 H2 Hf.
        destruct (decide (componentName = n1)) as [<-|Hn1];
          [rewrite lookup_insert_eq in H1; injection H1 as <-; exfalso; apply Hf;
           reflexivity|].
        destruct (decide (componentName = n2)) as [<-|Hn2];
          [rewrite lookup_insert_eq in H2; injection H2 as <-; exfalso; apply Hf;
           reflexivity|].
        rewrite lookup_insert_ne in H1, H2 by assumption. exact (Hinj n1 n2 f H1 H2 Hf).
    + assert (bitIndex s = 2 ^ k) as Hbk.
      { rewrite Hb. apply wrap_small. split; [apply Z.pow_nonneg; lia|].
        apply Z.pow_lt_mono_r; lia. }
      assert (0 < 2 ^ k) as Hpos by (apply Z.pow_pos_nonneg; lia).
      exists (k + 1). unfold allocated. cbn [bitIndex componentIndex entities].
      rewrite Hbk. split; [lia|]. split; [|split; [|split]].
      * rewrite Z.pow_add_r, Z.pow_1_r by lia. reflexivity.
      * intros n f. destruct (decide (componentName = n)) as [<-|Hn].
        -- rewrite lookup_insert_eq. intros [= <-]. right. exists k. split; [lia|reflexivity].
        -- rewrite lookup_insert_ne by exact Hn. intros Hf.
           destruct (Hflags n f Hf) as [[_ ?]|(i & Hi & ->)]; [lia|].
           right. exists i. split; [lia | reflexivity].
      * assert (∀ n f, componentIndex s !! n = Some f → f ≠ 2 ^ k) as Hold.
        { intros n f Hf ->. destruct (Hflags n _ Hf) as [[? _]|(i & Hi & Heq)]; [lia|].
          apply Z.pow_inj_r in Heq; lia. }
        intros n1 n2 f H1 H2 Hf.
        destruct (decide (componentName = n1)) as [<-|Hn1];
          destruct (decide (componentName = n2)) as [<-|Hn2]; try reflexivity.
        -- rewrite lookup_insert_eq in H1. rewrite lookup_insert_ne in H2 by exact Hn2.
           injection H1 as <-. exfalso. exact (Hold _ _ H2 eq_refl).
        -- rewrite lookup_insert_eq in H2. rewrite lookup_insert_ne in H1 by exact Hn1.
           injection H2 as <-. exfalso. exact (Hold _ _ H1 eq_refl).
        -- rewrite lookup_insert_ne in H1, H2 by assumption. exact (Hinj n1 n2 f H1 H2 Hf).
      * eapply Forall_impl; [exact Hwords|]. intros e He. cbn in He.
        rewrite Z.pow_add_r, Z.pow_1_r by lia. lia.
  - exists k.
    apply (allocated_same_table s s' k Hwf (AddComponent_same_schema _ _ _ s s' Hexec));
      [|exact Halloc].
    destruct (components s !! componentName) as [container|] eqn:Hc.
    + rewrite (AddComponent_spec entity componentName component s container Hc) in Hexec.
      cbv zeta in Hexec.
      assert (entities s'
              = add_flag entity (to_int (default 0 (componentIndex s !! componentName)))
                  <$> entities s) as ->
        by (destruct (matching entity (entities s)); injection Hexec as <-; reflexivity).
      apply Forall_fmap. eapply Forall_impl; [exact Hwords|]. intros e He. cbn in *.
      unfold add_flag. destruct (decide _); [|exact He]. cbn [bitfield].
      apply lor_word; [lia | exact He |].
      exact (flag_of_word s k componentName Hwf Halloc).
    + rewrite (AddComponent_unregistered entity componentName component s Hc) in Hexec.
      injection Hexec as <-. exact Hwords.
  - exists k.
    apply (allocated_same_table s s' k Hwf (RemoveComponent_same_schema d _ _ s s' Hexec));
      [|exact Halloc].
    destruct (components s !! componentName) as [container|] eqn:Hc.
    + rewrite (RemoveComponent_spec d entity componentName s container Hc) in Hexec.
      cbv zeta in Hexec.
      destruct (RemoveComponent_find _ _ _) as [[entities' e']|] eqn:Hfind;
        [|injection Hexec as <-; exact Hwords].
      assert (entities s' = entities') as ->.
      { destruct (individualComponentVecs s !! componentName); [|discriminate].
        destruct (erase_first _ _); injection Hexec as <-; reflexivity. }
      apply RemoveComponent_find_Some in Hfind
        as (before & e & after & Hes & -> & _ & _ & ->).
      rewrite Hes in Hwords. apply Forall_app in Hwords as [Hbefore Hrest].
      apply Forall_cons in Hrest as [He Hafter].
      apply Forall_app. split; [exact Hbefore|]. apply Forall_cons. split; [|exact Hafter].
      cbn. apply land_word; [lia | exact He].
    + rewrite (RemoveComponent_unregistered d entity componentName s Hc) in Hexec.
      injection Hexec as <-. exact Hwords.
  - exists k.
    apply (allocated_same_table s s' k Hwf (GetComponent_same_schema d _ _ s s' Hexec));
      [|exact Halloc].
    destruct (GetComponent_frame d _ _ s s' Hexec) as (-> & _). exact Hwords.
  - rewrite HasComponent_store in Hexec. exists k.
    apply (allocated_same_table s s' k Hwf (GetComponent_same_schema d _ _ s s' Hexec));
      [|exact Halloc].
    destruct (GetComponent_frame d _ _ s s' Hexec) as (-> & _). exact Hwords.
  - exists k.
    apply (allocated_same_table s s' k Hwf (EntitiesWith_same_schema _ s s' Hexec));
      [|exact Halloc].
    destruct (EntitiesWith_frame _ s s' Hexec) as (-> & _). exact Hwords.
Qed.

Lemma erase_first_Forall (P : Entity → Prop) (uuid : Z) (vec vec' : list Entity) :
  erase_first uuid vec = Some vec' → Forall P vec → Forall P vec'.
Proof.
  intros Herase Hall.
  apply erase_first_Some in Herase as (before & x & after & -> & -> & _).
  apply Forall_app in Hall as [Hbefore Hrest]. apply Forall_cons in Hrest as [_ Hafter].
  apply Forall_app. auto.
Qed.

Lemma exec_vectors_flagged {T} (d : T) (c : op T) (s s' : ECS T) :
  exec d c s = Some s' → well_formed s → vectors_flagged s → vectors_flagged s'.
Proof.
  intros Hexec Hwf Hvf.
  assert (∀ s1 : ECS T,
            same_schema s s1 →
            (∀ n vec, individualComponentVecs s1 !! n = Some vec →
                      is_Some (components s !! n) ∧
                      Forall (λ e, bitfield.Has (bitfield e) (flag_of s n) = true) vec) →
            vectors_flagged s1) as Hsame.
  { intros s1 Hschema Hvecs n vec Hvec. destruct (Hvecs n vec Hvec) as [Hreg Hall].
    rewrite (same_schema_flag_of s s1 n Hwf Hschema).
    pose proof Hschema as (_ & _ & _ & Hdom & _). split; [apply Hdom, Hreg | exact Hall]. }
  destruct c; cbn [exec] in Hexec.
  - apply CreateEntity_frame in Hexec as ->. exact Hvf.
  - apply RegisterComponent_frame in Hexec as [[_ ->]|[Hnone ->]]; [exact Hvf|].
    intros n vec Hvec. cbn [individualComponentVecs] in Hvec.
    destruct (Hvf n vec Hvec) as [Hreg Hall].
    assert (componentName ≠ n) as Hne
      by (intros ->; rewrite Hnone in Hreg; destruct Hreg; discriminate).
    unfold flag_of in *. cbn [components componentIndex].
    rewrite !lookup_insert_ne by exact Hne. auto.
  - apply (Hsame s' (AddComponent_same_schema _ _ _ s s' Hexec)).
    destruct (components s !! componentName) as [container|] eqn:Hc.
    + rewrite (AddComponent_spec entity componentName component s container Hc) in Hexec.
      cbv zeta in Hexec.
      set (componentFlag := to_int (default 0 (componentIndex s !! componentName))) in *.
      assert (individualComponentVecs s'
              = push_back_all componentName
                  (add_flag entity componentFlag <$> matching entity (entities s))
                  (individualComponentVecs s)) as ->
        by (destruct (matching entity (entities s)); injection Hexec as <-; reflexivity).
      intros n vec. unfold push_back_all.
      destruct (add_flag entity componentFlag <$> matching entity (entities s))
        as [|c0 cs0] eqn:Hcopies; [apply Hvf|].
      destruct (decide (componentName = n)) as [<-|Hn];
        [|rewrite lookup_insert_ne by exact Hn; apply Hvf].
      rewrite lookup_insert_eq. intros [= <-]. split; [eauto|].
      apply Forall_app. split.
      * destruct (individualComponentVecs s !! componentName) as [old|] eqn:Hold;
          [apply (Hvf _ _ Hold) | constructor].
      * rewrite <- Hcopies. apply Forall_fmap, Forall_forall. intros e He.
        apply list_elem_of_filter in He as [Hu _]. cbn.
        unfold add_flag. rewrite decide_True by exact Hu. cbn [bitfield].
        apply Has_Set.
    + rewrite (AddComponent_unregistered entity componentName component s Hc) in Hexec.
      injection Hexec as <-. exact Hvf.
  - apply (Hsame s' (RemoveComponent_same_schema d _ _ s s' Hexec)).
    destruct (components s !! componentName) as [container|] eqn:Hc.
    + rewrite (RemoveComponent_spec d entity componentName s container Hc) in Hexec.
      cbv zeta in Hexec.
      destruct (RemoveComponent_find _ _ _) as [[entities' e']|];
        [|injection Hexec as <-; exact Hvf].
      destruct (individualComponentVecs s !! componentName) as [old|] eqn:Hold;
        [|discriminate].
      destruct (erase_first _ _) as [vec'|] eqn:Herase; injection Hexec as <-;
        [|exact Hvf].
      intros n vec. cbn [individualComponentVecs].
      destruct (decide (componentName = n)) as [<-|Hn];
        [|rewrite lookup_insert_ne by exact Hn; apply Hvf].
      rewrite lookup_insert_eq. intros [= <-]. destruct (Hvf _ _ Hold) as [Hreg Hall].
      split; [exact Hreg|]. exact (erase_first_Forall _ _ _ _ Herase Hall).
    + rewrite (RemoveComponent_unregistered d entity componentName s Hc) in Hexec.
      injection Hexec as <-. exact Hvf.
  - apply (Hsame s' (GetComponent_same_schema d _ _ s s' Hexec)).
    destruct (GetComponent_frame d _ _ s s' Hexec) as (_ & -> & _). exact Hvf.
  - rewrite HasComponent_store in Hexec.
    apply (Hsame s' (GetComponent_same_schema d _ _ s s' Hexec)).
    destruct (GetComponent_frame d _ _ s s' Hexec) as (_ & -> & _). exact Hvf.
  - apply (Hsame s' (EntitiesWith_same_schema _ s s' Hexec)).
    destruct (EntitiesWith_frame _ s s' Hexec) as (_ & _ & _ & Hvecs).
    intros n vec Hvec. destruct (Hvecs n) as [Heq|(_ & Hnew & Hreg)].
    + rewrite Heq in Hvec. exact (Hvf n vec Hvec).
    + rewrite Hnew in Hvec. injection Hvec as <-. split; [exact Hreg | constructor].
Qed.

(** Setting or clearing the flag of one type does not change whether a
    word has the flag of another. *)
Lemma Has_other_type {T} (s : ECS T) (k : Z) (n m : string) (x : Z) :
  well_formed s → allocated s k → n ≠ m →
  bitfield.Has (bitfield.Set_ x (flag_of s m)) (flag_of s n) = bitfield.Has x (flag_of s n) ∧
  bitfield.Has (bitfield.Clear x (flag_of s m)) (flag_of s n)
    = bitfield.Has x (flag_of s n).
Proof.
  intros Hwf Halloc Hne. pose proof Halloc as (Hk & _).
  destruct (flag_of_shape s k n Hwf Halloc) as [->|(i & Hi & Hn)].
  - rewrite !Has_zero. auto.
  - pose proof (flag_of_other_bit s k n m i Hwf Halloc Hne (proj1 Hi) Hn) as Hbit.
    rewrite Hn. split; [apply Has_Set_other | apply Has_Clear_other]; (lia || exact Hbit).
Qed.

Lemma Has_word_zero (f : Z) : f ≠ 0 → bitfield.Has 0 f = false.
Proof.
  intros Hf. unfold bitfield.Has. apply bool_decide_eq_false.
  rewrite Z.land_0_l. congruence.
Qed.

Lemma exec_flagged_stored {T} (d : T) (c : op T) (s s' : ECS T) (k : Z) :
  exec d c s = Some s' → well_formed s → allocated s k →
  flagged_stored s → flagged_stored s'.
Proof.
  intros Hexec Hwf Halloc Hfs.
  pose proof Halloc as (Hk & Hb & _ & _ & Hwords).
  assert (∀ n u (s1 : ECS T),
            (components s1 = components s ∨
             ∃ m w container, components s !! m = Some container ∧
               components s1 = <[m := (subscript d container w).2]> (components s)) →
            is_Some (stored s n u) → is_Some (stored s1 n u)) as Hkept.
  { intros n u s1 [Hc|(m & w & container & Hc & Hc1)] [v Hv]; unfold stored in *.
    - rewrite Hc. eauto.
    - rewrite Hc1. destruct (decide (m = n)) as [->|Hm].
      + rewrite lookup_insert_eq. rewrite Hc in Hv. cbn in *.
        rewrite (subscript_mono d container w u v Hv). eauto.
      + rewrite lookup_insert_ne by exact Hm. eauto. }
  assert (∀ s1 : ECS T,
            same_schema s s1 → entities s1 = entities s →
            (components s1 = components s ∨
             ∃ m w container, components s !! m = Some container ∧
               components s1 = <[m := (subscript d container w).2]> (components s)) →
            flagged_stored s1) as Hread.
  { intros s1 Hschema Hes Hc e n He Hreg Hflag Hhas.
    rewrite (same_schema_flag_of s s1 n Hwf Hschema) in Hflag, Hhas.
    pose proof Hschema as (_ & _ & _ & Hdom & _).
    rewrite Hes in He. apply (Hkept n (UUID e) s1 Hc).
    apply (Hfs e n He); [apply Hdom, Hreg | exact Hflag | exact Hhas]. }
  destruct c; cbn [exec] in Hexec.
  - apply CreateEntity_frame in Hexec as ->. intros e n He Hreg Hflag Hhas.
    cbn [entities] in He. apply elem_of_app in He as [He|He].
    + exact (Hfs e n He Hreg Hflag Hhas).
    + apply list_elem_of_singleton in He as ->. cbn [bitfield Entity_new] in Hhas.
      unfold flag_of in *. cbn [componentIndex] in *.
      rewrite Has_word_zero in Hhas by exact Hflag. discriminate Hhas.
  - apply RegisterComponent_frame in Hexec as [[_ ->]|[Hnone ->]]; [exact Hfs|].
    intros e n He Hreg Hflag Hhas. cbn [entities components] in *.
    destruct (decide (componentName = n)) as [<-|Hn].
    + exfalso. unfold flag_of in Hflag, Hhas. cbn [componentIndex] in Hflag, Hhas.
      rewrite lookup_insert_eq in Hflag, Hhas. cbn [default from_option id] in *.
      pose proof Hwf as (_ & _ & _ & Hbrange & _).
      rewrite wrap_to_int, (wrap_small _ Hbrange), Hb in Hflag, Hhas.
      destruct (decide (k = 32)) as [->|Hk32]; [apply Hflag; reflexivity|].
      rewrite wrap_small in Hhas
        by (split; [apply Z.pow_nonneg; lia | apply Z.pow_lt_mono_r; lia]).
      rewrite Has_pow2 in Hhas by lia.
      rewrite Forall_forall in Hwords. specialize (Hwords e He).
      destruct (decide (bitfield e = 0)) as [Hz|Hnz];
        [rewrite Hz, Z.bits_0 in Hhas; discriminate Hhas|].
      rewrite Z.bits_above_log2 in Hhas; [discriminate Hhas | lia |].
      apply Z.log2_lt_pow2; lia.
    + rewrite lookup_insert_ne in Hreg by exact Hn.
      unfold flag_of in Hflag, Hhas. cbn [componentIndex] in Hflag, Hhas.
      rewrite lookup_insert_ne in Hflag, Hhas by exact Hn.
      unfold stored. cbn [components]. rewrite lookup_insert_ne by exact Hn.
      exact (Hfs e n He Hreg Hflag Hhas).
  - pose proof (AddComponent_same_schema _ _ _ s s' Hexec) as Hschema.
    destruct (components s !! componentName) as [container|] eqn:Hc.
    + rewrite (AddComponent_spec entity componentName component s container Hc) in Hexec.
      cbv zeta in Hexec.
      set (componentFlag := to_int (default 0 (componentIndex s !! componentName))) in *.
      assert (entities s' = add_flag entity componentFlag <$> entities s ∧
              components s'
              = <[componentName := <[UUID entity := component]> container]> (components s))
        as [Hes Hcs]
        by (destruct (matching entity (entities s)); injection Hexec as <-; auto).
      intros e' n He' Hreg Hflag Hhas.
      rewrite (same_schema_flag_of s s' n Hwf Hschema) in Hflag, Hhas.
      pose proof Hschema as (_ & _ & _ & Hdom & _). apply Hdom in Hreg.
      rewrite Hes in He'. apply list_elem_of_fmap in He' as (e & -> & He).
      rewrite UUID_add_flag. unfold stored. rewrite Hcs.
      destruct (decide (componentName = n)) as [<-|Hn].
      * rewrite lookup_insert_eq. cbn.
        destruct (decide (UUID entity = UUID e)) as [->|Hu];
          [rewrite lookup_insert_eq; eauto|].
        rewrite lookup_insert_ne by exact Hu.
        unfold add_flag in Hhas. rewrite decide_False in Hhas by congruence.
        pose proof (Hfs e componentName He Hreg Hflag Hhas) as Hold.
        unfold stored in Hold. rewrite Hc in Hold. exact Hold.
      * rewrite lookup_insert_ne by exact Hn. apply (Hfs e n He Hreg Hflag).
        unfold add_flag in Hhas. destruct (decide (UUID e = UUID entity)); [|exact Hhas].
        cbn [bitfield] in Hhas.
        change (bitfield.wrap componentFlag) with (flag_of s componentName) in Hhas.
        rewrite (proj1 (Has_other_type s k n componentName _ Hwf Halloc
                          (not_eq_sym Hn))) in Hhas.
        exact Hhas.
    + rewrite (AddComponent_unregistered entity componentName component s Hc) in Hexec.
      injection Hexec as <-. exact Hfs.
  - pose proof (RemoveComponent_same_schema d _ _ s s' Hexec) as Hschema.
    pose proof (RemoveComponent_effects d entity componentName s s' Hexec) as Heff.
    assert (components s' = components s ∨
            ∃ m w container, components s !! m = Some container ∧
              components s' = <[m := (subscript d container w).2]> (components s)) as Hcs
      by (destruct Heff as [[-> _]|(container & ? & ? & _)]; eauto 10).
    assert (∀ e', e' ∈ entities s' →
              ∃ e, e ∈ entities s ∧ UUID e' = UUID e ∧
                   ∀ f, bitfield.Has (bitfield e') f = true →
                        bitfield.Has (bitfield e) f = true) as Htable.
    { destruct (components s !! componentName) as [container|] eqn:Hc.
      - rewrite (RemoveComponent_spec d entity componentName s container Hc) in Hexec.
        cbv zeta in Hexec.
        destruct (RemoveComponent_find _ _ _) as [[entities' e1]|] eqn:Hfind;
          [|injection Hexec as <-; eauto].
        assert (entities s' = entities') as ->.
        { destruct (individualComponentVecs s !! componentName); [|discriminate].
          destruct (erase_first _ _); injection Hexec as <-; reflexivity. }
        apply RemoveComponent_find_Some in Hfind
          as (before & e & after & Hes & -> & _ & _ & ->).
        intros e' He'. rewrite Hes.
        apply elem_of_app in He' as [He'|He'];
          [exists e'; split; [apply elem_of_app; auto | auto]|].
        apply elem_of_cons in He' as [->|He'].
        + exists e. split; [apply elem_of_app; right; left|]. split; [reflexivity|].
          intros f. cbn [bitfield]. apply Has_Clear_mono.
        + exists e'. split; [apply elem_of_app; right; right; exact He' | auto].
      - rewrite (RemoveComponent_unregistered d entity componentName s Hc) in Hexec.
        injection Hexec as <-. eauto. }
    intros e' n He' Hreg Hflag Hhas.
    rewrite (same_schema_flag_of s s' n Hwf Hschema) in Hflag, Hhas.
    pose proof Hschema as (_ & _ & _ & Hdom & _). apply Hdom in Hreg.
    destruct (Htable e' He') as (e & He & -> & Hmono).
    apply (Hkept n (UUID e) s' Hcs). exact (Hfs e n He Hreg Hflag (Hmono _ Hhas)).
  - destruct (GetComponent_frame d _ _ s s' Hexec) as (Hes & _ & _ & Hc).
    apply (Hread s' (GetComponent_same_schema d _ _ s s' Hexec) Hes).
    destruct Hc as [?|(container & ? & ?)]; eauto 10.
  - rewrite HasComponent_store in Hexec.
    destruct (GetComponent_frame d _ _ s s' Hexec) as (Hes & _ & _ & Hc).
    apply (Hread s' (GetComponent_same_schema d _ _ s s' Hexec) Hes).
    destruct Hc as [?|(container & ? & ?)]; eauto 10.
  - destruct (EntitiesWith_frame _ s s' Hexec) as (Hes & Hc & _).
    apply (Hread s' (EntitiesWith_same_schema _ s s' Hexec) Hes). left. exact Hc.
Qed.

Lemma ECS_new_coherent {T} : coherent (@ECS_new T).
Proof.
  split; [apply ECS_new_well_formed|]. split; [split; reflexivity|]. split; [|split].
  - exists 0. unfold allocated. cbn. split; [lia|]. split; [reflexivity|].
    split; [|split; [|constructor]]; intros *; rewrite lookup_empty; discriminate.
  - intros n vec Hvec. cbn in Hvec. rewrite lookup_empty in Hvec. discriminate Hvec.
  - intros e n He. inversion He.
Qed.

Lemma exec_coherent {T} (d : T) (c : op T) (s s' : ECS T) :
  exec d c s = Some s' → coherent s → coherent s'.
Proof.
  intros Hexec (Hwf & Hids & [k Halloc] & Hvf & Hfs).
  split; [exact (exec_well_formed d c s s' Hexec Hwf)|].
  split; [exact (exec_sequential_ids d c s s' Hexec Hids)|].
  split; [exact (exec_allocated d c s s' k Hexec Hwf Halloc)|].
  split; [exact (exec_vectors_flagged d c s s' Hexec Hwf Hvf)|].
  exact (exec_flagged_stored d c s s' k Hexec Hwf Halloc Hfs).
Qed.

Lemma run_coherent {T} (d : T) (cs : list (op T)) (s s' : ECS T) :
  run d cs s = Some s' → coherent s → coherent s'.
Proof.
  revert s. induction cs as [|c cs IH]; intros s; cbn [run].
  - intros [= <-]. auto.
  - destruct (exec d c s) as [s1|] eqn:Hexec; [|discriminate]. cbn.
    intros Hrun Hco. exact (IH s1 Hrun (exec_coherent d c s s1 Hexec Hco)).
Qed.

Lemma reachable_coherent {T} (d : T) (s : ECS T) : reachable d s → coherent s.
Proof. intros [cs Hrun]. exact (run_coherent d cs _ s Hrun ECS_new_coherent). Qed.

(** ** Properties of reachable stores *)

Lemma reachable_setup : reachable 0 History.after_setup.
Proof. exists History.setup_calls. vm_compute. reflexivity. Qed.

(** X11. In every store a run of calls on a new store leaves, the table
    lists the identifiers 0, 1, 2, ... in the order of creation (no call
    removes or reorders an entity), [entityIndex] is their number, the
    vector [EntitiesWith()] returns has [entityIndex] elements, and,
    short of the largest [int32_t], [CreateEntity] returns the entity
    with the next identifier and an empty membership word, appended to
    the table. *)
Theorem entities_sequential {T} (d : T) (s : ECS T) :
  reachable d s →
  UUID <$> entities s = Z.of_nat <$> seq 0 (length (entities s)) ∧
  entityIndex s = Z.of_nat (length (entities s)) ∧
  NoDup (UUID <$> entities s) ∧
  EntitiesWith_size [] s = Returns s (Z.to_nat (entityIndex s)) ∧
  (entityIndex s ≠ INT32_MAX →
   ∃ s', CreateEntity s = Returns s' (mkEntity (Z.of_nat (length (entities s))) 0) ∧
         entities s' = entities s ++ [mkEntity (Z.of_nat (length (entities s))) 0]).
Proof.
  intros Hreach.
  destruct (reachable_coherent d s Hreach) as ((Hnd & _) & [Hids Hidx] & _).
  split; [exact Hids|]. split; [exact Hidx|]. split; [exact Hnd|].
  split; [rewrite Hidx, Nat2Z.id; reflexivity|].
  intros Hmax. unfold CreateEntity. rewrite decide_False by exact Hmax.
  eexists. unfold Entity_new. rewrite Hidx. split; reflexivity.
Qed.

Lemma entities_sequential_witness :
  let s := History.after_setup in
  reachable 0 s ∧
  UUID <$> entities s = [0; 1; 2] ∧
  entityIndex s = 3 ∧
  EntitiesWith_size [] s = Returns s 3%nat.
Proof.
  cbv zeta. split; [exact reachable_setup|].
  destruct (entities_sequential 0 History.after_setup reachable_setup)
    as (Hids & Hidx & _ & Hall & _).
  assert (entityIndex History.after_setup = 3) as H3 by (vm_compute; reflexivity).
  split; [rewrite Hids; vm_compute; reflexivity|].
  split; [exact H3|]. rewrite Hall, H3. reflexivity.
Defined.

(** X12. In every reachable store a type is registered exactly when it
    has a flag; a flag is the empty word or a single one of the 32 bits;
    two types do not share a flag that is not the empty word; and as long
    as [bitIndex] has not wrapped to 0 no flag is the empty word, so that
    the flags of two types are two different bits. *)
Theorem flags_distinct_bits {T} (d : T) (s : ECS T) (n1 n2 : string) (f1 f2 : Z) :
  reachable d s →
  componentIndex s !! n1 = Some f1 → componentIndex s !! n2 = Some f2 → n1 ≠ n2 →
  ComponentIsRegistered n1 s = true ∧
  (f1 = 0 ∨ ∃ i, 0 ≤ i < 32 ∧ f1 = 2 ^ i) ∧
  (f1 ≠ 0 → f1 ≠ f2 ∧ Z.land f1 f2 = 0) ∧
  (bitIndex s ≠ 0 → f1 ≠ 0 ∧ f2 ≠ 0).
Proof.
  intros Hreach H1 H2 Hne.
  destruct (reachable_coherent d s Hreach) as (Hwf & _ & [k Halloc] & _).
  pose proof Hwf as (_ & _ & _ & _ & _ & Hboth).
  pose proof Halloc as (Hk & Hb & Hflags & Hinj & _).
  split; [apply registered_true, Hboth; eauto|].
  split; [destruct (Hflags n1 f1 H1) as [[-> _]|(i & Hi & ->)];
          [left; reflexivity | right; exists i; split; [lia | reflexivity]]|].
  split.
  - intros Hf1. split; [intros <-; exact (Hne (Hinj n1 n2 f1 H1 H2 Hf1))|].
    destruct (Hflags n1 f1 H1) as [[-> _]|(i & Hi & Hfi)]; [congruence|].
    pose proof (flag_of_other_bit s k n1 n2 i Hwf Halloc Hne (proj1 Hi)) as Hbit.
    rewrite (flag_of_Some s n1 f1 Hwf H1), (flag_of_Some s n2 f2 Hwf H2) in Hbit.
    specialize (Hbit Hfi). subst f1. apply Z.bits_inj'. intros n Hn.
    rewrite Z.land_spec, Z.bits_0, Z.pow2_bits_eqb by lia.
    destruct (Z.eqb_spec i n) as [<-|_]; [rewrite Hbit|]; reflexivity.
  - intros Hbit.
    assert (k ≠ 32) as Hk32 by (intros ->; apply Hbit; rewrite Hb; reflexivity).
    assert (∀ n f, componentIndex s !! n = Some f → f ≠ 0) as Hnz.
    { intros n f Hf ->. destruct (Hflags n 0 Hf) as [[_ ?]|(i & Hi & Heq)]; [lia|].
      assert (0 < 2 ^ i) by (apply Z.pow_pos_nonneg; lia). lia. }
    split; eapply Hnz; eassumption.
Qed.

Lemma flags_distinct_bits_witness :
  let s := History.after_setup in
  reachable 0 s ∧
  componentIndex s !! Scenario.Position = Some 1 ∧
  componentIndex s !! Scenario.Velocity = Some 2 ∧
  Scenario.Position ≠ Scenario.Velocity ∧
  (1 ≠ 0 → 1 ≠ 2 ∧ Z.land 1 2 = 0).
Proof.
  cbv zeta.
  assert (componentIndex History.after_setup !! Scenario.Position = Some 1) as H1
    by (vm_compute; reflexivity).
  assert (componentIndex History.after_setup !! Scenario.Velocity = Some 2) as H2
    by (vm_compute; reflexivity).
  assert (Scenario.Position ≠ Scenario.Velocity) as Hne by discriminate.
  split; [exact reachable_setup|]. split; [exact H1|]. split; [exact H2|].
  split; [exact Hne|].
  exact (proj1 (proj2 (proj2 (flags_distinct_bits 0 History.after_setup _ _ 1 2
                                 reachable_setup H1 H2 Hne)))).
Defined.

Lemma filter_all {A} (f : A → bool) (l : list A) :
  Forall (λ x, f x = true) l → List.filter f l = l.
Proof.
  induction 1 as [|x l Hx _ IH]; [reflexivity|]. cbn. rewrite Hx, IH. reflexivity.
Qed.

(** X13. In every reachable store the vector [EntitiesWith] returns for
    a single registered type has as many elements as the membership
    vector of the type has entries (none when the type has no vector
    yet): every entry carries the flag of its type and passes the filter.
    The table, the containers and the flags are left as they are. *)
Theorem EntitiesWith_single {T} (d : T) (s : ECS T) (componentName : string) :
  reachable d s → ComponentIsRegistered componentName s = true →
  ∃ s', EntitiesWith_size [componentName] s
          = Returns s' (length (default [] (individualComponentVecs s !! componentName))) ∧
        entities s' = entities s ∧ components s' = components s ∧
        componentIndex s' = componentIndex s.
Proof.
  intros Hreach Hreg. apply registered_true in Hreg.
  destruct (reachable_coherent d s Hreach) as (Hwf & _ & _ & Hvf & _).
  pose proof Hwf as (_ & _ & _ & _ & _ & Hboth).
  destruct (proj1 (Hboth componentName) Hreg) as [f Hf].
  destruct Hreg as [container Hc].
  unfold EntitiesWith_size, EntitiesWith.
  cbn [EntitiesWith_sizes EntitiesWith_field]. rewrite Hc.
  pose proof (subscript_fst [] (individualComponentVecs s) componentName) as Hfst.
  pose proof (subscript_lookup [] (individualComponentVecs s) componentName) as Hlook.
  destruct (subscript [] (individualComponentVecs s) componentName) as [vec vecs1].
  cbn [fst snd] in *. rewrite (subscript_present 0 _ _ _ Hf).
  cbn [app min_element fst]. rewrite (subscript_present [] _ _ _ Hlook).
  subst vec. rewrite filter_all; [eexists; split; [reflexivity | cbn; auto]|].
  destruct (individualComponentVecs s !! componentName) as [old|] eqn:Hold; [|constructor].
  destruct (Hvf _ _ Hold) as [_ Hall]. rewrite (flag_of_Some s _ f Hwf Hf) in Hall.
  unfold bitfield.Set_. rewrite Z.lor_0_l. exact Hall.
Qed.

Lemma EntitiesWith_single_witness :
  let s := History.after_setup in
  reachable 0 s ∧ ComponentIsRegistered Scenario.Velocity s = true ∧
  length (default [] (individualComponentVecs s !! Scenario.Velocity)) = 2%nat ∧
  ∃ s', EntitiesWith_size [Scenario.Velocity] s
          = Returns s' (length (default [] (individualComponentVecs s !! Scenario.Velocity))) ∧
        entities s' = entities s ∧ components s' = components s ∧
        componentIndex s' = componentIndex s.
Proof.
  cbv zeta.
  assert (ComponentIsRegistered Scenario.Velocity History.after_setup = true) as Hreg
    by (vm_compute; reflexivity).
  split; [exact reachable_setup|]. split; [exact Hreg|].
  split; [vm_compute; reflexivity|].
  exact (EntitiesWith_single 0 History.after_setup Scenario.Velocity reachable_setup Hreg).
Defined.

(** ** One type does not disturb another *)

Lemma existsb_fmap_ext {A} (f g : A → bool) (h : A → A) (l : list A) :
  (∀ x, x ∈ l → f (h x) = g x) → existsb f (h <$> l) = existsb g l.
Proof.
  induction l as [|x l IH]; intros Hext; [reflexivity|].
  rewrite fmap_cons. cbn [existsb]. rewrite (Hext x) by left.
  rewrite IH; [reflexivity|]. intros y Hy. apply Hext. right. exact Hy.
Qed.

(** X14. In a reachable store, [AddComponent<T>(e)] and
    [RemoveComponent<T>(e)], whether they return or throw, change the
    answer of [HasComponent<U>(e')] for no other pair: not for another
    registered type U, and not for an entity with another identifier. *)
Theorem HasComponent_undisturbed {T} (d : T) (s : ECS T) (entity entity' : Entity)
    (nameT nameU : string) (component : T) :
  reachable d s →
  ComponentIsRegistered nameU s = true →
  nameU ≠ nameT ∨ UUID entity' ≠ UUID entity →
  (∀ s', store_after (AddComponent entity nameT component s) = Some s' →
         returned (HasComponent d entity' nameU s')
         = returned (HasComponent d entity' nameU s)) ∧
  (∀ s', store_after (RemoveComponent d entity nameT s) = Some s' →
         returned (HasComponent d entity' nameU s')
         = returned (HasComponent d entity' nameU s)).
Proof.
  intros Hreach HregU Hother. apply registered_true in HregU.
  destruct (reachable_coherent d s Hreach) as (Hwf & _ & [k Halloc] & _).
  assert (∀ s' : ECS T,
            same_schema s s' →
            GetComponent_found (UUID entity') (to_int (default 0 (componentIndex s !! nameU)))
              (entities s')
            = GetComponent_found (UUID entity') (to_int (default 0 (componentIndex s !! nameU)))
                (entities s) →
            returned (HasComponent d entity' nameU s')
            = returned (HasComponent d entity' nameU s)) as Hfound.
  { intros s' Hschema Heq.
    pose proof Hschema as (_ & _ & _ & Hdom & Hidx). pose proof Hwf as (_ & _ & _ & _ & _ & Hb).
    rewrite (HasComponent_spec d entity' nameU s HregU).
    rewrite (HasComponent_spec d entity' nameU s' (proj2 (Hdom nameU) HregU)).
    rewrite Hidx by (intros m; apply Hb). rewrite Heq. reflexivity. }
  assert (∀ x, nameU ≠ nameT →
            bitfield.Has (bitfield.Set_ x (flag_of s nameT)) (flag_of s nameU)
            = bitfield.Has x (flag_of s nameU) ∧
            bitfield.Has (bitfield.Clear x (flag_of s nameT)) (flag_of s nameU)
            = bitfield.Has x (flag_of s nameU)) as Hbits
    by (intros x Hne; exact (Has_other_type s k nameU nameT x Hwf Halloc Hne)).
  split; intros s' Hafter.
  - apply (Hfound s' (AddComponent_same_schema _ _ _ s s' Hafter)).
    destruct (components s !! nameT) as [container|] eqn:Hc.
    + rewrite (AddComponent_spec entity nameT component s container Hc) in Hafter.
      cbv zeta in Hafter.
      assert (entities s'
              = add_flag entity (to_int (default 0 (componentIndex s !! nameT)))
                  <$> entities s) as ->
        by (destruct (matching entity (entities s)); injection Hafter as <-; reflexivity).
      unfold GetComponent_found. apply existsb_fmap_ext. intros x _.
      rewrite UUID_add_flag. unfold add_flag.
      destruct (decide (UUID x = UUID entity)) as [Hx|Hx]; [|reflexivity].
      cbn [bitfield]. destruct Hother as [Hne|Hu].
      * f_equal. apply (Hbits (bitfield x) Hne).
      * rewrite !bool_decide_eq_false_2 by congruence. reflexivity.
    + rewrite (AddComponent_unregistered entity nameT component s Hc) in Hafter.
      injection Hafter as <-. reflexivity.
  - apply (Hfound s' (RemoveComponent_same_schema d _ _ s s' Hafter)).
    destruct (components s !! nameT) as [container|] eqn:Hc.
    + rewrite (RemoveComponent_spec d entity nameT s container Hc) in Hafter.
      cbv zeta in Hafter.
      destruct (RemoveComponent_find _ _ _) as [[entities' e1]|] eqn:Hfind;
        [|injection Hafter as <-; reflexivity].
      assert (entities s' = entities') as ->.
      { destruct (individualComponentVecs s !! nameT); [|discriminate].
        destruct (erase_first _ _); injection Hafter as <-; reflexivity. }
      apply RemoveComponent_find_Some in Hfind
        as (before & e & after & -> & -> & Hu & _ & ->).
      unfold GetComponent_found. rewrite !existsb_app. cbn [existsb UUID bitfield].
      f_equal. f_equal. destruct Hother as [Hne|Hu'].
      * f_equal. apply (Hbits (bitfield e) Hne).
      * rewrite !bool_decide_eq_false_2 by congruence. reflexivity.
    + rewrite (RemoveComponent_unregistered d entity nameT s Hc) in Hafter.
      injection Hafter as <-. reflexivity.
Qed.

Lemma HasComponent_undisturbed_witness :
  let s := History.after_setup in
  reachable 0 s ∧ ComponentIsRegistered Scenario.Position s = true ∧
  (Scenario.Position ≠ Scenario.Velocity ∨ UUID Scenario.e1 ≠ UUID Scenario.e1) ∧
  ∀ s', store_after (RemoveComponent 0 Scenario.e1 Scenario.Velocity s) = Some s' →
        returned (HasComponent 0 Scenario.e1 Scenario.Position s')
        = returned (HasComponent 0 Scenario.e1 Scenario.Position s).
Proof.
  cbv zeta.
  assert (ComponentIsRegistered Scenario.Position History.after_setup = true) as Hreg
    by (vm_compute; reflexivity).
  assert (Scenario.Position ≠ Scenario.Velocity ∨ UUID Scenario.e1 ≠ UUID Scenario.e1)
    as Hother by (left; discriminate).
  split; [exact reachable_setup|]. split; [exact Hreg|]. split; [exact Hother|].
  exact (proj2 (HasComponent_undisturbed 0 History.after_setup Scenario.e1 Scenario.e1
                  Scenario.Velocity Scenario.Position 0 reachable_setup Hreg Hother)).
Defined.

(** ** A newly registered type *)

(** X15. In a reachable store whose [bitIndex] has not wrapped to 0, a
    type that is registered for the first time is had by no entity:
    [RegisterComponent] returns or throws, and in the store it leaves
    [HasComponent] returns [false] and [GetComponent] returns [nullptr]
    for every entity. *)
Theorem fresh_type_has_no_entity {T} (d : T) (s s' : ECS T) (componentName : string)
    (entity : Entity) :
  reachable d s →
  ComponentIsRegistered componentName s = false →
  bitIndex s ≠ 0 →
  store_after (RegisterComponent componentName s) = Some s' →
  flag_of s' componentName = bitIndex s ∧
  returned (HasComponent d entity componentName s') = Some false ∧
  returned (GetComponent d entity componentName s') = Some None.
Proof.
  intros Hreach Hreg Hbit Hafter. apply registered_false in Hreg.
  destruct (reachable_coherent d s Hreach) as (Hwf & _ & [k Halloc] & _).
  pose proof Hwf as (_ & _ & _ & Hbrange & _).
  pose proof Halloc as (Hk & Hb & _ & _ & Hwords).
  apply RegisterComponent_frame in Hafter as [[[? Hsome] _]|[_ ->]]; [congruence|].
  set (s1 := mkECS _ _ _ _ _ _ _).
  assert (k ≠ 32) as Hk32 by (intros ->; apply Hbit; rewrite Hb; reflexivity).
  assert (bitIndex s = 2 ^ k) as Hbk
    by (rewrite Hb; apply wrap_small;
        split; [apply Z.pow_nonneg; lia | apply Z.pow_lt_mono_r; lia]).
  assert (flag_of s1 componentName = bitIndex s) as Hflag.
  { unfold flag_of, s1. cbn [componentIndex]. rewrite lookup_insert_eq.
    cbn [default from_option id]. rewrite wrap_to_int. apply wrap_small, Hbrange. }
  assert (components s1 !! componentName = Some ∅) as Hc by apply lookup_insert_eq.
  assert (GetComponent_found (UUID entity)
            (to_int (default 0 (componentIndex s1 !! componentName))) (entities s1)
          = false) as Hfound.
  { apply not_true_is_false. intros Htrue.
    apply GetComponent_found_iff in Htrue as (e & He & _ & Hhas).
    change (bitfield.wrap _) with (flag_of s1 componentName) in Hhas.
    rewrite Hflag, Hbk, Has_pow2 in Hhas by lia.
    rewrite Forall_forall in Hwords. specialize (Hwords e He).
    destruct (decide (bitfield e = 0)) as [Hz|Hnz];
      [rewrite Hz, Z.bits_0 in Hhas; discriminate Hhas|].
    rewrite Z.bits_above_log2 in Hhas; [discriminate Hhas | lia |].
    apply Z.log2_lt_pow2; lia. }
  split; [exact Hflag|]. split.
  - rewrite HasComponent_spec by (rewrite Hc; eauto). rewrite Hfound. reflexivity.
  - rewrite (GetComponent_spec d entity componentName s1 _ Hc). cbv zeta.
    rewrite Hfound. reflexivity.
Qed.

Lemma fresh_type_has_no_entity_witness :
  let s := History.after_setup in
  let s' := default s (store_after (RegisterComponent "Health" s)) in
  reachable 0 s ∧ ComponentIsRegistered "Health" s = false ∧ bitIndex s ≠ 0 ∧
  store_after (RegisterComponent "Health" s) = Some s' ∧
  flag_of s' "Health" = bitIndex s ∧
  returned (HasComponent 0 Scenario.e1 "Health" s') = Some false ∧
  returned (GetComponent 0 Scenario.e1 "Health" s') = Some None.
Proof.
  cbv zeta.
  assert (ComponentIsRegistered "Health" History.after_setup = false) as Hreg
    by (vm_compute; reflexivity).
  assert (bitIndex History.after_setup ≠ 0) as Hbit by (vm_compute; discriminate).
  assert (store_after (RegisterComponent "Health" History.after_setup)
          = Some (default History.after_setup
                    (store_after (RegisterComponent "Health" History.after_setup))))
    as Hafter by (vm_compute; reflexivity).
  split; [exact reachable_setup|]. split; [exact Hreg|]. split; [exact Hbit|].
  split; [exact Hafter|].
  exact (fresh_type_has_no_entity 0 History.after_setup _ "Health" Scenario.e1
           reachable_setup Hreg Hbit Hafter).
Defined.

(** ** Queries do not write *)

Lemma ECS_eta {T} (s : ECS T) :
  mkECS (entityIndex s) (bitIndex s) (entities s) (components s) (componentIndex s)
    (individualComponentVecs s) (eventManager s) = s.
Proof. destruct s. reflexivity. Qed.

(** X16. In a reachable store, for a type whose flag is not the empty
    word, [GetComponent] and [HasComponent] leave the store exactly as it
    is, and a value [GetComponent] returns is the value stored for the
    entity: [container->data[entity]] never inserts a value-initialised
    component. *)
Theorem queries_do_not_write {T} (d : T) (s : ECS T) (entity : Entity)
    (componentName : string) :
  reachable d s → flag_of s componentName ≠ 0 →
  store_after (GetComponent d entity componentName s) = Some s ∧
  store_after (HasComponent d entity componentName s) = Some s ∧
  ∀ v, returned (GetComponent d entity componentName s) = Some (Some v) →
       stored s componentName (UUID entity) = Some v.
Proof.
  intros Hreach Hflag.
  destruct (reachable_coherent d s Hreach) as (Hwf & _ & _ & _ & Hfs).
  pose proof Hwf as (_ & _ & _ & _ & _ & Hboth).
  rewrite HasComponent_store.
  destruct (components s !! componentName) as [container|] eqn:Hc;
    [|rewrite (GetComponent_unregistered d entity componentName s Hc);
      split; [reflexivity|]; split; [reflexivity | discriminate]].
  rewrite (GetComponent_spec d entity componentName s container Hc). cbv zeta.
  rewrite (subscript_registered s componentName) by (try (intros m; apply Hboth); eauto).
  destruct (GetComponent_found _ _ _) eqn:Hfound.
  - apply GetComponent_found_iff in Hfound as (e & He & Hu & Hhas).
    destruct (Hfs e componentName He ltac:(eauto) Hflag Hhas) as [v Hv].
    unfold stored in *. rewrite Hu, Hc in Hv. cbn in Hv. rewrite Hc. cbn.
    rewrite (subscript_present d _ _ _ Hv), Hv. cbn [snd default from_option id].
    rewrite (insert_id _ _ _ Hc), ECS_eta.
    split; [reflexivity|]. split; [reflexivity|]. intros v' [= <-]. reflexivity.
  - rewrite ECS_eta. split; [reflexivity|]. split; [reflexivity | discriminate].
Qed.

Lemma queries_do_not_write_witness :
  let s := History.after_setup in
  reachable 0 s ∧ flag_of s Scenario.Velocity ≠ 0 ∧
  store_after (GetComponent 0 Scenario.e1 Scenario.Velocity s) = Some s ∧
  store_after (HasComponent 0 Scenario.e1 Scenario.Velocity s) = Some s ∧
  returned (GetComponent 0 Scenario.e1 Scenario.Velocity s) = Some (Some 21) ∧
  stored s Scenario.Velocity (UUID Scenario.e1) = Some 21.
Proof.
  cbv zeta.
  assert (flag_of History.after_setup Scenario.Velocity ≠ 0) as Hflag
    by (vm_compute; discriminate).
  assert (returned (GetComponent 0 Scenario.e1 Scenario.Velocity History.after_setup)
          = Some (Some 21)) as Hget by (vm_compute; reflexivity).
  destruct (queries_do_not_write 0 History.after_setup Scenario.e1 Scenario.Velocity
              reachable_setup Hflag) as (H1 & H2 & H3).
  split; [exact reachable_setup|]. split; [exact Hflag|]. split; [exact H1|].
  split; [exact H2|]. split; [exact Hget | exact (H3 21 Hget)].
Defined.

(** ** Entries of the membership vectors *)

Lemma exec_entries_live {T} (d : T) (c : op T) (s s' : ECS T) :
  exec d c s = Some s' → entries_live s → entries_live s'.
Proof.
  intros Hexec Hlive.
  assert (∀ s1 : ECS T,
            UUID <$> entities s1 = UUID <$> entities s →
            (∀ n vec, individualComponentVecs s1 !! n = Some vec →
                      Forall (λ e, UUID e ∈ UUID <$> entities s) vec) →
            entries_live s1) as Hsame
    by (intros s1 Hu Hvecs n vec Hvec; rewrite Hu; exact (Hvecs n vec Hvec)).
  destruct c; cbn [exec] in Hexec.
  - apply CreateEntity_frame in Hexec as ->. intros n vec Hvec.
    cbn [individualComponentVecs entities] in *.
    eapply Forall_impl; [exact (Hlive n vec Hvec)|]. intros e He. cbn in *.
    rewrite fmap_app. apply elem_of_app. left. exact He.
  - apply RegisterComponent_frame in Hexec as [[_ ->]|[_ ->]]; exact Hlive.
  - pose proof (AddComponent_same_schema _ _ _ s s' Hexec) as (_ & _ & Hu & _).
    apply (Hsame s' Hu).
    destruct (components s !! componentName) as [container|] eqn:Hc.
    + rewrite (AddComponent_spec entity componentName component s container Hc) in Hexec.
      cbv zeta in Hexec.
      set (componentFlag := to_int (default 0 (componentIndex s !! componentName))) in *.
      assert (individualComponentVecs s'
              = push_back_all componentName
                  (add_flag entity componentFlag <$> matching entity (entities s))
                  (individualComponentVecs s)) as ->
        by (destruct (matching entity (entities s)); injection Hexec as <-; reflexivity).
      intros n vec. unfold push_back_all.
      destruct (add_flag entity componentFlag <$> matching entity (entities s))
        as [|c0 cs0] eqn:Hcopies; [apply Hlive|].
      destruct (decide (componentName = n)) as [<-|Hn];
        [|rewrite lookup_insert_ne by exact Hn; apply Hlive].
      rewrite lookup_insert_eq. intros [= <-]. apply Forall_app. split.
      * destruct (individualComponentVecs s !! componentName) as [old|] eqn:Hold;
          [apply (Hlive _ _ Hold) | constructor].
      * rewrite <- Hcopies. apply Forall_fmap, Forall_forall. intros e He.
        apply list_elem_of_filter in He as [_ He]. cbn. rewrite UUID_add_flag.
        apply list_elem_of_fmap_2, He.
    + rewrite (AddComponent_unregistered entity componentName component s Hc) in Hexec.
      injection Hexec as <-. exact Hlive.
  - pose proof (RemoveComponent_same_schema d _ _ s s' Hexec) as (_ & _ & Hu & _).
    apply (Hsame s' Hu).
    destruct (components s !! componentName) as [container|] eqn:Hc.
    + rewrite (RemoveComponent_spec d entity componentName s container Hc) in Hexec.
      cbv zeta in Hexec.
      destruct (RemoveComponent_find _ _ _) as [[entities' e']|];
        [|injection Hexec as <-; exact Hlive].
      destruct (individualComponentVecs s !! componentName) as [old|] eqn:Hold;
        [|discriminate].
      destruct (erase_first _ _) as [vec'|] eqn:Herase; injection Hexec as <-;
        [|exact Hlive].
      intros n vec. cbn [individualComponentVecs].
      destruct (decide (componentName = n)) as [<-|Hn];
        [|rewrite lookup_insert_ne by exact Hn; apply Hlive].
      rewrite lookup_insert_eq. intros [= <-].
      exact (erase_first_Forall _ _ _ _ Herase (Hlive _ _ Hold)).
    + rewrite (RemoveComponent_unregistered d entity componentName s Hc) in Hexec.
      injection Hexec as <-. exact Hlive.
  - destruct (GetComponent_frame d _ _ s s' Hexec) as (He & Hv & _).
    intros n vec. rewrite He, Hv. apply Hlive.
  - rewrite HasComponent_store in Hexec.
    destruct (GetComponent_frame d _ _ s s' Hexec) as (He & Hv & _).
    intros n vec. rewrite He, Hv. apply Hlive.
  - destruct (EntitiesWith_frame _ s s' Hexec) as (He & _ & _ & Hvecs).
    intros n vec Hvec. rewrite He. destruct (Hvecs n) as [Heq|(_ & Hnew & _)].
    + rewrite Heq in Hvec. exact (Hlive n vec Hvec).
    + rewrite Hnew in Hvec. injection Hvec as <-. constructor.
Qed.

Lemma reachable_entries_live {T} (d : T) (s : ECS T) : reachable d s → entries_live s.
Proof.
  intros [cs Hrun]. revert Hrun.
  assert (entries_live (@ECS_new T)) as Hnew
    by (intros n vec Hvec; cbn in Hvec; rewrite lookup_empty in Hvec; discriminate Hvec).
  revert Hnew. generalize (@ECS_new T).
  induction cs as [|c cs IH]; intros s0 Hlive; cbn [run].
  - intros [= <-]. exact Hlive.
  - destruct (exec d c s0) as [s1|] eqn:Hexec; [|discriminate]. cbn.
    apply IH. exact (exec_entries_live d c s0 s1 Hexec Hlive).
Qed.

(** X17. In a reachable store every entry of a membership vector is a
    copy of an entity of the table, taken with the flag of the type: the
    type of the vector is registered, the identifier of the entry is the
    identifier of an entity of the table, and the membership word the
    entry carries has the flag of the type. The word of the copy need not
    be the one the table has. *)
Theorem membership_vector_entries {T} (d : T) (s : ECS T) (componentName : string)
    (vec : list Entity) (x : Entity) :
  reachable d s →
  individualComponentVecs s !! componentName = Some vec → x ∈ vec →
  ComponentIsRegistered componentName s = true ∧
  live s (UUID x) ∧
  bitfield.Has (bitfield x) (flag_of s componentName) = true.
Proof.
  intros Hreach Hvec Hx.
  destruct (reachable_coherent d s Hreach) as (_ & _ & _ & Hvf & _).
  destruct (Hvf _ _ Hvec) as [Hreg Hflag].
  pose proof (reachable_entries_live d s Hreach _ _ Hvec) as Hlive.
  rewrite Forall_forall in Hflag, Hlive.
  split; [apply registered_true, Hreg|]. split; [|apply Hflag, Hx].
  specialize (Hlive x Hx). apply list_elem_of_fmap in Hlive as (e & Hu & He).
  unfold live. apply Exists_exists. eauto.
Qed.

Lemma membership_vector_entries_witness :
  let s := History.after_setup in
  reachable 0 s ∧
  individualComponentVecs s !! Scenario.Position = Some [mkEntity 0 1; mkEntity 1 1] ∧
  entities s = [mkEntity 0 1; mkEntity 1 3; mkEntity 2 2] ∧
  ComponentIsRegistered Scenario.Position s = true ∧
  live s (UUID (mkEntity 1 1)) ∧
  bitfield.Has (bitfield (mkEntity 1 1)) (flag_of s Scenario.Position) = true.
Proof.
  cbv zeta.
  assert (individualComponentVecs History.after_setup !! Scenario.Position
          = Some [mkEntity 0 1; mkEntity 1 1]) as Hvec by (vm_compute; reflexivity).
  split; [exact reachable_setup|]. split; [exact Hvec|].
  split; [vm_compute; reflexivity|].
  apply (membership_vector_entries 0 History.after_setup Scenario.Position
           [mkEntity 0 1; mkEntity 1 1] (mkEntity 1 1) reachable_setup Hvec).
  right. left.
Defined.

(** ** A type registered after the flags are used up *)

(** X18. Once [bitIndex] has wrapped to 0, a type registered for the
    first time gets the empty flag, and in the store [RegisterComponent]
    leaves, [HasComponent] returns [true] for every live entity although
    no component of the type was added, and [GetComponent] returns a
    value-initialised component. *)
Theorem exhausted_type_on_every_entity {T} (d : T) (s s' : ECS T) (componentName : string)
    (entity : Entity) :
  ComponentIsRegistered componentName s = false →
  bitIndex s = 0 →
  live s (UUID entity) →
  store_after (RegisterComponent componentName s) = Some s' →
  RegisterComponent componentName s = Returns s' tt ∧
  componentIndex s' !! componentName = Some 0 ∧
  returned (HasComponent d entity componentName s') = Some true ∧
  returned (GetComponent d entity componentName s') = Some (Some d).
Proof.
  intros Hreg Hbit Hlive Hafter. apply registered_false in Hreg.
  assert (RegisterComponent componentName s = Returns s' tt) as Hret.
  { revert Hafter. unfold RegisterComponent. rewrite Hreg, Hbit.
    change (bitfield.wrap (0 * 2)) with 0. rewrite decide_False by lia.
    intros [= <-]. reflexivity. }
  apply RegisterComponent_frame in Hafter as [[[? Hsome] _]|[_ ->]]; [congruence|].
  set (s1 := mkECS _ _ _ _ _ _ _) in *.
  assert (components s1 !! componentName = Some ∅) as Hc by apply lookup_insert_eq.
  assert (componentIndex s1 !! componentName = Some 0) as Hf
    by (unfold s1; cbn [componentIndex]; rewrite Hbit; apply lookup_insert_eq).
  assert (GetComponent_found (UUID entity)
            (to_int (default 0 (componentIndex s1 !! componentName))) (entities s1)
          = true) as Hfound.
  { apply GetComponent_found_iff. unfold live in Hlive.
    apply Exists_exists in Hlive as (e & He & Hu). exists e.
    split; [exact He|]. split; [exact Hu|]. rewrite Hf. apply Has_zero. }
  split; [exact Hret|]. split; [exact Hf|]. split.
  - rewrite HasComponent_spec by (rewrite Hc; eauto). rewrite Hfound. reflexivity.
  - rewrite (GetComponent_spec d entity componentName s1 _ Hc). cbv zeta.
    rewrite Hfound. cbn [returned]. rewrite lookup_empty. reflexivity.
Qed.

Lemma exhausted_type_on_every_entity_witness :
  let cs := (OpRegisterComponent <$> (type_name <$> seq 1 32)) ++ [OpCreateEntity] in
  let s : ECS Z := default ECS_new (run 0 cs ECS_new) in
  let s' := default s (store_after (RegisterComponent "Health" s)) in
  run 0 cs ECS_new = Some s ∧
  ComponentIsRegistered "Health" s = false ∧ bitIndex s = 0 ∧ live s 0 ∧
  RegisterComponent "Health" s = Returns s' tt ∧
  returned (HasComponent 0 (mkEntity 0 0) "Health" s') = Some true.
Proof.
  cbv zeta.
  set (s := default ECS_new (run 0 _ ECS_new)).
  assert (ComponentIsRegistered "Health" s = false) as Hreg by (vm_compute; reflexivity).
  assert (bitIndex s = 0) as Hbit by (vm_compute; reflexivity).
  assert (live s (UUID (mkEntity 0 0))) as Hlive
    by (apply (bool_decide_unpack _); vm_compute; exact I).
  assert (store_after (RegisterComponent "Health" s)
          = Some (default s (store_after (RegisterComponent "Health" s)))) as Hafter
    by (vm_compute; reflexivity).
  destruct (exhausted_type_on_every_entity 0 s _ "Health" (mkEntity 0 0)
              Hreg Hbit Hlive Hafter) as (Hret & _ & Hhas & _).
  split; [vm_compute; reflexivity|].
  split; [exact Hreg|]. split; [exact Hbit|]. split; [exact Hlive|].
  split; [exact Hret | exact Hhas].
Defined.

(** ** Which registration throws *)

Lemma exec_counted {T} (d : T) (c : op T) (s s' : ECS T) :
  exec d c s = Some s' → well_formed s → counted s → counted s'.
Proof.
  intros Hexec Hwf Hcount.
  pose proof Hwf as (_ & _ & _ & Hbrange & _ & Hboth).
  assert (∀ s1 : ECS T, same_schema s s1 → counted s1) as Hsame.
  { intros s1 (_ & Hbit & _ & _ & Hidx). unfold counted.
    rewrite Hbit, Hidx by (intros m; apply Hboth). exact Hcount. }
  destruct c; cbn [exec] in Hexec.
  - apply CreateEntity_frame in Hexec as ->. exact Hcount.
  - apply RegisterComponent_frame in Hexec as [[_ ->]|[Hnone ->]]; [exact Hcount|].
    assert (componentIndex s !! componentName = None) as Hnoflag.
    { apply eq_None_not_Some. intros Hsome. apply Hboth in Hsome.
      rewrite Hnone in Hsome. destruct Hsome; discriminate. }
    unfold counted. cbn [bitIndex componentIndex]. intros Hnz.
    assert (bitIndex s ≠ 0) as Hnz0 by (intros Hz; apply Hnz; rewrite Hz; reflexivity).
    specialize (Hcount Hnz0).
    assert (bitIndex s * 2 < 2 ^ 32) as Hlt.
    { destruct (decide (bitIndex s * 2 < 2 ^ 32)) as [Hlt|Hge]; [exact Hlt|].
      exfalso. apply Hnz.
      assert (Z.of_nat (size (componentIndex s)) = 31) as Hsize.
      { assert (Z.of_nat (size (componentIndex s)) < 32) as Hlt.
        { apply (Z.pow_lt_mono_r_iff 2); [lia | lia |]. rewrite <- Hcount. lia. }
        assert (30 < Z.of_nat (size (componentIndex s))) as Hgt.
        { apply (Z.pow_lt_mono_r_iff 2); [lia | lia |]. rewrite <- Hcount.
          change (2 ^ 30) with 1073741824. change (2 ^ 32) with 4294967296 in Hge. lia. }
        lia. }
      rewrite Hcount, Hsize. reflexivity. }
    rewrite wrap_small by lia.
    rewrite (map_size_insert_None _ _ _ Hnoflag), Nat2Z.inj_succ, Z.pow_succ_r by lia.
    lia.
  - exact (Hsame s' (AddComponent_same_schema _ _ _ s s' Hexec)).
  - exact (Hsame s' (RemoveComponent_same_schema d _ _ s s' Hexec)).
  - exact (Hsame s' (GetComponent_same_schema d _ _ s s' Hexec)).
  - rewrite HasComponent_store in Hexec.
    exact (Hsame s' (GetComponent_same_schema d _ _ s s' Hexec)).
  - exact (Hsame s' (EntitiesWith_same_schema _ s s' Hexec)).
Qed.

Lemma reachable_counted {T} (d : T) (s : ECS T) : reachable d s → counted s.
Proof.
  intros [cs Hrun]. revert Hrun.
  assert (counted (@ECS_new T)) as Hnew by (intros _; reflexivity).
  pose proof (@ECS_new_well_formed T) as Hwf.
  revert Hnew Hwf. generalize (@ECS_new T).
  induction cs as [|c cs IH]; intros s0 Hcount Hwf; cbn [run].
  - intros [= <-]. exact Hcount.
  - destruct (exec d c s0) as [s1|] eqn:Hexec; [|discriminate]. cbn.
    apply IH; [exact (exec_counted d c s0 s1 Hexec Hwf Hcount)|].
    exact (exec_well_formed d c s0 s1 Hexec Hwf).
Qed.

(** X19. [RegisterComponent] never has undefined behaviour, and in a
    reachable store it throws exactly when the type is new and 31 types
    are registered already, [bitIndex] being 2^31: the registration of the
    32nd distinct type throws, after the type has got its flag and its
    container, and every other registration returns. *)
Theorem RegisterComponent_outcome {T} (d : T) (s : ECS T) (componentName : string) :
  reachable d s →
  RegisterComponent componentName s ≠ Undefined ∧
  ((∃ s' ex, RegisterComponent componentName s = Throws s' ex) ↔
   ComponentIsRegistered componentName s = false ∧ size (componentIndex s) = 31%nat ∧
   bitIndex s = 2 ^ 31) ∧
  (∀ s' ex, RegisterComponent componentName s = Throws s' ex →
            kind_of ex = CapacityExceeded ∧
            ComponentIsRegistered componentName s' = true ∧
            componentIndex s' !! componentName = Some (2 ^ 31) ∧ bitIndex s' = 0).
Proof.
  intros Hreach. pose proof (reachable_counted d s Hreach) as Hcount.
  destruct (reachable_coherent d s Hreach) as (Hwf & _ & [k Halloc] & _).
  pose proof Halloc as (Hk & Hb & _).
  rewrite registered_false. unfold RegisterComponent.
  destruct (components s !! componentName) as [c|] eqn:Hreg.
  - split; [discriminate|]. split; [|discriminate].
    split; [intros (? & ? & [=]) | intros [[=] _]].
  - assert (bitfield.wrap (bitIndex s * 2) < bitIndex s ↔ bitIndex s = 2 ^ 31) as Hwrap.
    { rewrite Hb. destruct (decide (k = 32)) as [->|Hk32].
      { replace (bitfield.wrap (2 ^ 32)) with 0 by reflexivity.
        replace (bitfield.wrap (0 * 2)) with 0 by reflexivity. lia. }
      rewrite (wrap_small (2 ^ k))
        by (split; [apply Z.pow_nonneg; lia | apply Z.pow_lt_mono_r; lia]).
      assert (0 < 2 ^ k) by (apply Z.pow_pos_nonneg; lia).
      destruct (decide (k = 31)) as [->|Hk31].
      { replace (bitfield.wrap (2 ^ 31 * 2)) with 0 by reflexivity. lia. }
      assert (2 ^ k * 2 = 2 ^ (k + 1)) as -> by (rewrite Z.pow_add_r by lia; lia).
      rewrite wrap_small
        by (split; [apply Z.pow_nonneg; lia | apply Z.pow_lt_mono_r; lia]).
      rewrite Z.pow_add_r by lia. split; [lia|]. intros Heq.
      apply (Z.pow_inj_r 2) in Heq; lia. }
    assert (bitIndex s = 2 ^ 31 → size (componentIndex s) = 31%nat) as Hsize.
    { intros Hbit.
      assert (bitIndex s ≠ 0) as Hnz by (rewrite Hbit; discriminate).
      specialize (Hcount Hnz). rewrite Hbit in Hcount.
      apply (Z.pow_inj_r 2) in Hcount; lia. }
    destruct (decide _) as [Hlt|Hge].
    + apply Hwrap in Hlt. split; [discriminate|]. split; [split; eauto|].
      intros s' ex [= <- <-]. cbn [kind_of components componentIndex bitIndex].
      rewrite Hlt. split; [reflexivity|]. split; [|split; [|reflexivity]].
      * apply registered_true. cbn [components]. rewrite lookup_insert_eq. eauto.
      * apply lookup_insert_eq.
    + split; [discriminate|]. split; [|discriminate].
      split; [intros (? & ? & [=])|]. intros (_ & _ & Hbit). exfalso.
      apply Hge, Hwrap, Hbit.
Qed.

Lemma RegisterComponent_outcome_witness :
  let s := History.after_setup in
  reachable 0 s ∧
  RegisterComponent "Health" s ≠ Undefined ∧
  ((∃ s' ex, RegisterComponent "Health" s = Throws s' ex) ↔
   ComponentIsRegistered "Health" s = false ∧ size (componentIndex s) = 31%nat ∧
   bitIndex s = 2 ^ 31).
Proof.
  cbv zeta. split; [exact reachable_setup|].
  destruct (RegisterComponent_outcome 0 History.after_setup "Health" reachable_setup)
    as (H1 & H2 & _).
  split; [exact H1 | exact H2].
Defined.

(** ** What a successful [AddComponent] does *)

(** X20. For a registered type and the entity [e] of a table without
    repeated identifiers, [AddComponent] returns and applies exactly four
    effects: the value is written into the container of the type, the
    flag of the type is set in the membership word of [e] in the table,
    one copy of [e] with its new word is pushed at the end of the
    membership vector of the type, and one [ComponentAdded] event is
    broadcast; the other entities, vectors and containers, the flags and
    the two counters are as before. *)
Theorem AddComponent_effects {T} (entity : Entity) (componentName : string) (component : T)
    (s : ECS T) (e : Entity) (container : gmap Z T) :
  components s !! componentName = Some container →
  NoDup (UUID <$> entities s) →
  e ∈ entities s → UUID e = UUID entity →
  ∃ s1,
    AddComponent entity componentName component s = Returns s1 tt ∧
    components s1
      = <[componentName := <[UUID entity := component]> container]> (components s) ∧
    individualComponentVecs s1
      = <[componentName :=
            default [] (individualComponentVecs s !! componentName)
            ++ [mkEntity (UUID e) (bitfield.Set_ (bitfield e) (flag_of s componentName))]]>
          (individualComponentVecs s) ∧
    eventManager s1 = eventManager s ++ [ComponentAdded entity componentName component] ∧
    (∀ i x, entities s !! i = Some x →
            entities s1 !! i
            = Some (if decide (x = e)
                    then mkEntity (UUID e)
                           (bitfield.Set_ (bitfield e) (flag_of s componentName))
                    else x)) ∧
    length (entities s1) = length (entities s) ∧
    bitIndex s1 = bitIndex s ∧ entityIndex s1 = entityIndex s ∧
    flag_of s1 componentName = flag_of s componentName.
Proof.
  intros Hc Hnd He Hu.
  rewrite (AddComponent_spec entity componentName component s container Hc). cbv zeta.
  rewrite (matching_NoDup entity (entities s) e Hnd He Hu). cbn [fmap list_fmap].
  eexists. split; [reflexivity|].
  cbn [components individualComponentVecs eventManager entities bitIndex entityIndex].
  assert (add_flag entity (to_int (default 0 (componentIndex s !! componentName))) e
          = mkEntity (UUID e) (bitfield.Set_ (bitfield e) (flag_of s componentName)))
    as Hadd by (unfold add_flag; rewrite decide_True by exact Hu; reflexivity).
  split; [reflexivity|]. split; [unfold push_back_all; rewrite Hadd; reflexivity|].
  split; [reflexivity|]. split; [|split; [apply length_fmap|]].
  - intros i x Hi. rewrite list_lookup_fmap, Hi. cbn. f_equal.
    destruct (decide (x = e)) as [->|Hx]; [exact Hadd|].
    unfold add_flag. rewrite decide_False; [reflexivity|]. intros Hxu. apply Hx.
    apply (UUID_determines (entities s)); [exact Hnd | | exact He | congruence].
    apply list_elem_of_lookup. eauto.
  - split; [reflexivity|]. split; [reflexivity|].
    unfold flag_of. cbn [componentIndex]. rewrite subscript_default. reflexivity.
Qed.

Lemma AddComponent_effects_witness :
  let s := History.after_setup in
  ∃ s1,
    AddComponent Scenario.e0 Scenario.Velocity 30 s = Returns s1 tt ∧
    individualComponentVecs s1 !! Scenario.Velocity
      = Some [mkEntity 1 3; mkEntity 2 2; mkEntity 0 3] ∧
    eventManager s1 = eventManager s ++ [ComponentAdded Scenario.e0 Scenario.Velocity 30] ∧
    entities s1 = [mkEntity 0 3; mkEntity 1 3; mkEntity 2 2].
Proof.
  cbv zeta.
  assert (components History.after_setup !! Scenario.Velocity
          = Some ({[1 := 21; 2 := 22]} : gmap Z Z)) as Hc by (vm_compute; reflexivity).
  assert (NoDup (UUID <$> entities History.after_setup)) as Hnd
    by (apply (bool_decide_unpack _); vm_compute; exact I).
  assert (mkEntity 0 1 ∈ entities History.after_setup) as He
    by (apply (bool_decide_unpack _); vm_compute; exact I).
  destruct (AddComponent_effects Scenario.e0 Scenario.Velocity 30 History.after_setup
              (mkEntity 0 1) _ Hc Hnd He eq_refl)
    as (s1 & Hadd & _ & Hvec & Hev & _).
  exists s1. split; [exact Hadd|]. split; [rewrite Hvec; vm_compute; reflexivity|].
  split; [exact Hev|].
  apply (f_equal store_after) in Hadd. vm_compute in Hadd. injection Hadd as <-.
  reflexivity.
Defined.

(** ** Removing a component the entity does not have *)

(** Clearing a bit that is not set leaves the word as it is. *)
Lemma Clear_absent (x i : Z) :
  0 ≤ x < 2 ^ 32 → 0 ≤ i < 32 → Z.testbit x i = false → bitfield.Clear x (2 ^ i) = x.
Proof.
  intros Hx Hi Hbit. unfold bitfield.Clear, bitfield.wrap, bitfield.width.
  apply Z.bits_inj'. intros n Hn. rewrite Z.land_spec.
  destruct (decide (n < 32)) as [Hlt|Hge].
  - rewrite Z.mod_pow2_bits_low, Z.lnot_spec, Z.pow2_bits_eqb by lia.
    destruct (Z.eqb_spec i n) as [<-|_]; [rewrite Hbit; reflexivity | apply andb_true_r].
  - rewrite Z.mod_pow2_bits_high by lia. rewrite andb_false_r. symmetry.
    destruct (decide (x = 0)) as [->|Hx0]; [apply Z.bits_0|].
    apply Z.bits_above_log2; [lia|].
    assert (Z.log2 x < 32) by (apply Z.log2_lt_pow2; lia). lia.
Qed.

Lemma reachable_only_e1 : reachable 0 (Scenario.store_of Scenario.only_e1).
Proof. exists History.only_e1_calls. vm_compute. reflexivity. Qed.

(** C4, as amended. For a registered type whose membership vector exists
    and holds no entry for the entity, and a live entity that does not
    have the component, [RemoveComponent] returns normally (the sources
    have no [ComponentNotPresent] error): it broadcasts no event, leaves
    the membership vectors and the containers as they are, and the entity
    still does not have the component. In a store a run of calls on a new
    store leaves, the call changes nothing at all: the bit it clears in
    the membership word of the table was clear, and the store after the
    call is the store before it. *)
Theorem RemoveComponent_absent_is_silent {T} (d : T) (entity : Entity)
    (componentName : string) (s : ECS T) (componentVector : list Entity) :
  ComponentIsRegistered componentName s = true →
  live s (UUID entity) →
  returned (HasComponent d entity componentName s) = Some false →
  individualComponentVecs s !! componentName = Some componentVector →
  Forall (λ x, UUID x ≠ UUID entity) componentVector →
  ∃ s', RemoveComponent d entity componentName s = Returns s' tt ∧
        eventManager s' = eventManager s ∧
        individualComponentVecs s' = individualComponentVecs s ∧
        components s' = components s ∧
        returned (HasComponent d entity componentName s') = Some false ∧
        (reachable d s → s' = s).
Proof.
  intros Hreg Hlive Hhas Hvec Hnone.
  apply bool_decide_eq_true in Hreg. pose proof Hreg as [container Hc].
  rewrite (RemoveComponent_spec d entity componentName s container Hc). cbv zeta.
  rewrite (HasComponent_spec d entity componentName s Hreg) in Hhas.
  injection Hhas as Hhas.
  set (componentFlag := to_int (default 0 (componentIndex s !! componentName))) in *.
  destruct (RemoveComponent_find (UUID entity) componentFlag (entities s))
    as [[entities' e']|] eqn:Hfind.
  - apply RemoveComponent_find_Some in Hfind
      as (before & e & after & Hes & -> & Hu & Hbefore & ->).
    rewrite Hvec. cbn [UUID].
    assert (erase_first (UUID e) componentVector = None) as ->.
    { apply erase_first_None. intros x Hx. rewrite Hu.
      rewrite Forall_forall in Hnone. apply Hnone, Hx. }
    rewrite Hes in Hhas. unfold GetComponent_found in Hhas.
    rewrite existsb_app in Hhas. cbn [existsb] in Hhas.
    apply orb_false_iff in Hhas as [Hb Hrest].
    apply orb_false_iff in Hrest as [He Ha].
    rewrite bool_decide_eq_true_2 in He by exact Hu. cbn [andb] in He.
    eexists. split; [reflexivity|]. cbn [eventManager individualComponentVecs components].
    split; [reflexivity|]. split; [reflexivity|]. split; [reflexivity|]. split.
    + rewrite HasComponent_spec by exact Hreg. f_equal.
      cbn [entities componentIndex].
      rewrite subscript_lookup, subscript_fst. cbn [default from_option id].
      fold componentFlag. unfold GetComponent_found.
      rewrite existsb_app. cbn [existsb].
      rewrite Hb, Ha. cbn [UUID bitfield].
      rewrite (Has_Clear _ _ He). rewrite andb_false_r. reflexivity.
    + intros Hreach.
      destruct (reachable_coherent d s Hreach) as (Hwf & _ & [k Halloc] & _).
      pose proof Hwf as (_ & _ & _ & _ & _ & Hboth).
      pose proof Halloc as (Hk & _ & _ & _ & Hwords).
      rewrite (subscript_registered s componentName Hreg (λ n, proj1 (Hboth n))).
      assert (e ∈ entities s) as Hin by (rewrite Hes; apply elem_of_app; right; left).
      rewrite Forall_forall in Hwords. specialize (Hwords e Hin). cbv beta in Hwords.
      assert (2 ^ k ≤ 2 ^ 32) as Hpow by (apply Z.pow_le_mono_r; lia).
      change (bitfield.wrap componentFlag) with (flag_of s componentName) in *.
      assert (bitfield.Clear (bitfield e) (flag_of s componentName) = bitfield e) as ->.
      { destruct (flag_of_shape s k componentName Hwf Halloc) as [H0|(i & Hi & Hf)];
          rewrite ?H0, ?Hf in *.
        - rewrite Has_zero in He. discriminate He.
        - rewrite Has_pow2 in He by lia. apply Clear_absent; [lia | lia | exact He]. }
      assert (mkEntity (UUID e) (bitfield e) = e) as -> by (destruct e; reflexivity).
      rewrite <- Hes. apply ECS_eta.
  - exfalso. unfold live in Hlive. apply Exists_exists in Hlive as (e & He & Hu).
    apply (proj1 (RemoveComponent_find_None _ _ _) Hfind e He Hu).
Qed.

Lemma RemoveComponent_absent_is_silent_witness :
  let s := Scenario.store_of Scenario.only_e1 in
  returned (Scenario.only_e1 ECS_new) = Some (Scenario.e0, Scenario.e1) ∧
  reachable 0 s ∧
  entities s = [mkEntity 0 0; mkEntity 1 1] ∧
  individualComponentVecs s !! Scenario.Position = Some [mkEntity 1 1] ∧
  ∃ s', RemoveComponent 0 Scenario.e0 Scenario.Position s = Returns s' tt ∧
        eventManager s' = eventManager s ∧
        individualComponentVecs s' = individualComponentVecs s ∧
        components s' = components s ∧
        returned (HasComponent 0 Scenario.e0 Scenario.Position s') = Some false ∧
        s' = s.
Proof.
  cbv zeta.
  assert (individualComponentVecs (Scenario.store_of Scenario.only_e1) !! Scenario.Position
          = Some [mkEntity 1 1]) as Hvec by (vm_compute; reflexivity).
  split; [vm_compute; reflexivity|].
  split; [exact reachable_only_e1|].
  split; [vm_compute; reflexivity|].
  split; [exact Hvec|].
  destruct (RemoveComponent_absent_is_silent 0 Scenario.e0 Scenario.Position
              (Scenario.store_of Scenario.only_e1) [mkEntity 1 1])
    as (s' & Hret & Hevents & Hvecs & Hcomponents & Hhas & Hsame).
  - vm_compute; reflexivity.
  - left. reflexivity.
  - vm_compute; reflexivity.
  - exact Hvec.
  - repeat constructor; discriminate.
  - exists s'. repeat split; try assumption. exact (Hsame reachable_only_e1).
Defined.

(** ** Asking for a type registered after the flags are used up *)

(** For a type whose flag is a single bit, in a reachable store:
    [GetComponent] returns without an exception, with a value exactly
    when that bit is set in the membership word of the entity in the
    table. *)
Lemma GetComponent_iff_bit {T} (d : T) (entity : Entity) (componentName : string)
    (s : ECS T) (e : Entity) (i : Z) :
  reachable d s → e ∈ entities s → UUID e = UUID entity →
  componentIndex s !! componentName = Some (2 ^ i) → 0 ≤ i →
  ∃ s' r, GetComponent d entity componentName s = Returns s' r ∧
          (is_Some r ↔ Z.testbit (bitfield e) i = true).
Proof.
  intros Hreach He Hu Hflag Hi.
  pose proof (reachable_well_formed d s Hreach) as Hwf.
  pose proof Hwf as (Hnd & _ & _ & _ & _ & Hboth).
  assert (ComponentIsRegistered componentName s = true) as Hreg
    by (apply registered_true, Hboth; eauto).
  destruct (AddComponent_then_Get_Has d entity componentName d s e Hreg Hnd He Hu)
    as [_ (s' & r & Hget & Hiff)].
  rewrite (flag_of_Some s componentName _ Hwf Hflag), Has_pow2 in Hiff by exact Hi.
  eauto.
Qed.

(** C6 (the sources break it). 33 types are registered on a new store,
    each exception caught, and an entity is created; no component is ever
    added. The membership word of the entity is 0, no bit of it is set,
    and nothing is stored for the entity. For the 33rd type, which is
    registered and whose flag is the empty word, [HasComponent] returns
    [true] and [GetComponent] returns a pointer to a value-initialised
    component that it inserts into the container; for the first type
    [GetComponent] returns [nullptr]. *)
Theorem GetComponent_after_exhaustion :
  let s := History.exhausted in
  let e := mkEntity 0 0 in
  run 0 History.exhausted_calls ECS_new = Some s ∧
  entities s = [e] ∧
  eventManager s = [EntityCreated e] ∧
  ComponentIsRegistered (type_name 33) s = true ∧
  componentIndex s !! type_name 33 = Some 0 ∧
  flag_of s (type_name 33) = 0 ∧
  (∀ i, Z.testbit (bitfield e) i = false) ∧
  stored s (type_name 33) (UUID e) = None ∧
  returned (HasComponent 0 e (type_name 33) s) = Some true ∧
  (∀ d, returned (GetComponent d e (type_name 33) s) = Some (Some d)) ∧
  (∀ d s', store_after (GetComponent d e (type_name 33) s) = Some s' →
           stored s' (type_name 33) (UUID e) = Some d) ∧
  componentIndex s !! type_name 1 = Some 1 ∧
  returned (GetComponent 0 e (type_name 1) s) = Some None.
Proof.
  cbv zeta.
  split; [vm_compute; reflexivity|].
  split; [vm_compute; reflexivity|].
  split; [vm_compute; reflexivity|].
  split; [vm_compute; reflexivity|].
  split; [vm_compute; reflexivity|].
  split; [vm_compute; reflexivity|].
  split; [intros i; apply Z.bits_0|].
  split; [vm_compute; reflexivity|].
  split; [vm_compute; reflexivity|].
  split; [intros d; vm_compute; reflexivity|].
  split; [|split; vm_compute; reflexivity].
  intros d s' Hafter.
  assert (components History.exhausted !! type_name 33 = Some ∅) as Hc
    by (vm_compute; reflexivity).
  rewrite (GetComponent_spec d (mkEntity 0 0) (type_name 33) History.exhausted ∅ Hc)
    in Hafter.
  cbv zeta in Hafter.
  assert (GetComponent_found (UUID (mkEntity 0 0))
            (to_int (default 0 (componentIndex History.exhausted !! type_name 33)))
            (entities History.exhausted) = true) as Hfound by (vm_compute; reflexivity).
  rewrite Hfound in Hafter. injection Hafter as <-.
  unfold stored. cbn [components]. rewrite lookup_insert_eq. cbn.
  apply lookup_insert_eq.
Qed.

(** ** Membership vectors hold snapshots *)







